(** * Lead management: record normalisation and follow-up scheduling

    A shallow embedding of [lead_manager.py] (class [LeadManager]) together
    with the part of [database.py] it talks to, and the properties of the
    specification stated over it.

    Conventions of the embedding
    - A Python [str] is a [string] of 8-bit code points (Latin-1).
    - A pandas cell is a [value]; [None] and [NaN] are kept apart because
      Python's truth test tells them apart.
    - A [pd.Timestamp] is an integer number of nanoseconds ([Z]).
    - A [DataFrame] is an ordered list of column names and an ordered list
      of labelled rows; frames are objects living in a store, so that
      [.copy()], boolean indexing (which allocates) and in-place assignment
      are distinguished. *)

From Stdlib Require Import ZArith List Ascii String Bool Lia Sorted
  Permutation.
From stdpp Require Import gmap strings list fin_maps.

Local Open Scope string_scope.
Local Open Scope Z_scope.

(** ** Python strings *)

Module PyStr.

(** [str.isspace] on the code points below 256. *)
Definition is_space (c : ascii) : bool :=
  let n := N_of_ascii c in
  (((9 <=? n) && (n <=? 13)) || ((28 <=? n) && (n <=? 32))
   || (n =? 133) || (n =? 160))%N.

Fixpoint lstrip (s : string) : string :=
  match s with
  | EmptyString => EmptyString
  | String c s' => if is_space c then lstrip s' else s
  end.

Definition is_empty (s : string) : bool :=
  match s with EmptyString => true | String _ _ => false end.

Fixpoint rstrip (s : string) : string :=
  match s with
  | EmptyString => EmptyString
  | String c s' =>
      let r := rstrip s' in
      if is_space c && is_empty r then EmptyString else String c r
  end.

(** [s.strip()] *)
Definition strip (s : string) : string := rstrip (lstrip s).

(** [s.split(sep)] for a non-empty separator: [skip] counts the characters
    of a matched separator that are still to be passed over. *)
Fixpoint split_from (sep : string) (skip : nat) (s : string) : list string :=
  match s with
  | EmptyString => [EmptyString]
  | String c s' =>
      match skip with
      | S k => split_from sep k s'
      | O =>
          if String.prefix sep s
          then EmptyString :: split_from sep (String.length sep - 1) s'
          else match split_from sep 0 s' with
               | f :: fs => String c f :: fs
               | [] => [String c EmptyString]
               end
      end
  end.

Definition split (sep s : string) : list string := split_from sep 0 s.

(** [sub in s] *)
Fixpoint contains (sub s : string) : bool :=
  String.prefix sub s
  || match s with
     | EmptyString => false
     | String _ s' => contains sub s'
     end.

(** [c] occurs in [s] *)
Fixpoint occurs (c : ascii) (s : string) : bool :=
  match s with
  | EmptyString => false
  | String a s' => Ascii.eqb a c || occurs c s'
  end.

(** [str.lower] on Latin-1: A-Z, and the accented capitals 192..222 but
    for the multiplication sign 215. *)
Definition lower_char (c : ascii) : ascii :=
  let n := N_of_ascii c in
  if (((65 <=? n) && (n <=? 90))
      || ((192 <=? n) && (n <=? 222) && negb (n =? 215)))%N
  then ascii_of_N (n + 32) else c.

Fixpoint lower (s : string) : string :=
  match s with
  | EmptyString => EmptyString
  | String c s' => String (lower_char c) (lower s')
  end.

(** [sep.join(xs)] *)
Definition join (sep : string) (xs : list string) : string :=
  String.concat sep xs.

(** [list(dict.fromkeys(xs))]: keys are inserted in order, a key already
    in the dictionary keeps its place. *)
Definition dict_add (d : list string) (k : string) : list string :=
  if existsb (String.eqb k) d then d else (d ++ [k])%list.

Definition fromkeys (xs : list string) : list string :=
  fold_left dict_add xs [].

(** The characters that are operators of a regular expression. *)
Definition regex_operators : string := ".^$*+?{}[]\|()".

(** A pattern without any operator: as a regular expression it stands
    for its own text. *)
Fixpoint plain_pattern (pat : string) : bool :=
  match pat with
  | EmptyString => true
  | String c rest => negb (occurs c regex_operators) && plain_pattern rest
  end.

End PyStr.

(** ** The Value Splitter *)

(** One pass of the cascade:
    [new.extend([v.strip() for v in val.split(sep) if v.strip()])]
    for every [val]. *)
Definition split_pass (sep : string) (vals : list string) : list string :=
  flat_map
    (fun val =>
       flat_map
         (fun v => if PyStr.is_empty (PyStr.strip v) then []
                   else [PyStr.strip v])
         (PyStr.split sep val))
    vals.

Definition cascade (separators : list string) (cell : string) : list string :=
  fold_left (fun processed sep => split_pass sep processed) separators [cell].

Definition LF : string := String (ascii_of_N 10) EmptyString.
Definition CRLF : string :=
  String (ascii_of_N 13) (String (ascii_of_N 10) EmptyString).

(** Separator order of [_process_multiple_values]. *)
Definition separators_import : list string := [";"; ","; "|"; LF; CRLF].
(** Separator order of [get_multiple_emails] and [get_multiple_products]. *)
Definition separators_read : list string := [","; ";"; "|"; LF; CRLF].

(** The splitter of [_process_multiple_values]: cascade, then
    [list(dict.fromkeys(processed_values))]. *)
Definition split_values (cell : string) : list string :=
  PyStr.fromkeys (cascade separators_import cell).

(** [if '@' in email and '.' in email.split('@')[-1]] *)
Definition valid_email (email : string) : bool :=
  PyStr.contains "@" email
  && PyStr.contains "." (List.last (PyStr.split "@" email) EmptyString).

(** The string part of [get_multiple_emails], from the cell value on. *)
Definition emails_of_cell (cell : string) : list string :=
  PyStr.fromkeys (List.filter valid_email (cascade separators_read cell)).

Definition NL : ascii := ascii_of_N 10.

(** What the cascade leaves: a non-empty, stripped fragment without any
    of the one-character separators. *)
Definition fragment (f : string) : Prop :=
  PyStr.is_empty f = false /\ PyStr.strip f = f
  /\ PyStr.occurs ";" f = false /\ PyStr.occurs "," f = false
  /\ PyStr.occurs "|" f = false /\ PyStr.occurs NL f = false.

(** ** Cells *)

Inductive value :=
| VNone                (* None *)
| VNaN                 (* float('nan') *)
| VStr (s : string)
| VBool (b : bool)
| VInt (z : Z)
| VTime (t : Z).       (* pd.Timestamp, nanoseconds *)

Global Instance value_eq_dec : EqDecision value.
Proof. solve_decision. Defined.

Definition value_code (v : value) : unit + unit + string + bool + Z + Z :=
  match v with
  | VNone => inl (inl (inl (inl (inl tt))))
  | VNaN => inl (inl (inl (inl (inr tt))))
  | VStr s => inl (inl (inl (inr s)))
  | VBool b => inl (inl (inr b))
  | VInt z => inl (inr z)
  | VTime t => inr t
  end.

Definition value_decode (c : unit + unit + string + bool + Z + Z) : value :=
  match c with
  | inl (inl (inl (inl (inl _)))) => VNone
  | inl (inl (inl (inl (inr _)))) => VNaN
  | inl (inl (inl (inr s))) => VStr s
  | inl (inl (inr b)) => VBool b
  | inl (inr z) => VInt z
  | inr t => VTime t
  end.

Global Instance value_countable : Countable value.
Proof.
  apply (inj_countable' value_code value_decode). intros []; reflexivity.
Defined.

(** Python's truth test, [bool(v)]: NaN is a non-zero float, hence true. *)
Definition truthy (v : value) : bool :=
  match v with
  | VNone => false
  | VNaN => true
  | VStr s => negb (PyStr.is_empty s)
  | VBool b => b
  | VInt z => negb (z =? 0)
  | VTime _ => true
  end.

(** [pd.isna] / [Series.isna] *)
Definition isna (v : value) : bool :=
  match v with VNone | VNaN => true | _ => false end.

Definition notna (v : value) : bool := negb (isna v).

(** [v == s] for a Python string [s]. *)
Definition eq_str (v : value) (s : string) : bool :=
  match v with VStr x => String.eqb x s | _ => false end.

(** [v == False]: [0 == False] holds in Python. *)
Definition eq_False (v : value) : bool :=
  match v with
  | VBool b => negb b
  | VInt z => z =? 0
  | _ => false
  end.

Definition NS_PER_DAY : Z := 86400000000000.

(** [Timestamp.normalize()]: midnight of the same day. *)
Definition normalize (t : Z) : Z := t - t mod NS_PER_DAY.

(** The instants a nanosecond [datetime64] holds: [pd.Timestamp.min] to
    [pd.Timestamp.max]. *)
Definition in_ns_range (t : Z) : bool :=
  (-9223372036854775807 <=? t) && (t <=? 9223372036854775807).

(** What SQLite stores as an INTEGER. *)
Definition in_int64 (z : Z) : bool :=
  (-9223372036854775808 <=? z) && (z <=? 9223372036854775807).

(** What the embedding takes from the platform (pandas, [re] and
    [datetime]).
    - [to_datetime] is [pd.to_datetime(_, errors='coerce')] on one cell,
      [None] standing for NaT; a timestamp outside the nanosecond range
      is coerced to NaT, so the law holds inside the range only.
    - [regex_valid pat] says that [re.compile(pat, re.IGNORECASE)] does
      not raise, [regex_search pat text] that the compiled pattern finds
      a match in [text]; a pattern without operators finds its own text,
      whatever the case.
    - [quicksort_order col rows] is the order in which the one-column
      [sort_values] (numpy's quicksort, which is not stable) takes the
      rows before equal keys are left where they are; it is some
      permutation of the rows.
    - [json_writable columns rows] says that [save_leads_data] gets
      through [df.to_json(orient='records')] and its SQLite statements
      for a table; it does not when two columns share a name.
    - the last four are the texts of timestamps and numbers. *)
Record Platform := {
  to_datetime : value -> option Z;
  to_datetime_time :
    forall t, in_ns_range t = true -> to_datetime (VTime t) = Some t;
  to_datetime_none : to_datetime VNone = None;
  to_datetime_nan : to_datetime VNaN = None;
  regex_valid : string -> bool;
  regex_search : string -> string -> bool;
  regex_plain :
    forall pat, PyStr.plain_pattern pat = true ->
      regex_valid pat = true
      /\ forall text,
           regex_search pat text
           = PyStr.contains (PyStr.lower pat) (PyStr.lower text);
  quicksort_order :
    string -> list (Z * gmap string value) -> list (Z * gmap string value);
  quicksort_order_perm :
    forall col rs, Permutation (quicksort_order col rs) rs;
  json_writable : list string -> list (Z * gmap string value) -> bool;
  json_writable_unique :
    forall cols rs, json_writable cols rs = true -> NoDup cols;
  str_timestamp : Z -> string;        (* str(pd.Timestamp) *)
  str_int : Z -> string;              (* str(int) *)
  strftime_date : Z -> string;        (* strftime('%Y-%m-%d') *)
  strftime_minute : Z -> string       (* strftime('%Y-%m-%d %H:%M') *)
}.

(** [str(v)], also [Series.astype(str)] on one cell. *)
Definition str_of (pf : Platform) (v : value) : string :=
  match v with
  | VNone => "None"
  | VNaN => "nan"
  | VStr s => s
  | VBool true => "True"
  | VBool false => "False"
  | VInt z => str_int pf z
  | VTime t => str_timestamp pf t
  end.

(** ** Data frames *)

Inductive dtype := object_ | int64 | float64 | bool_ | datetime64.

Abbreviation row := (gmap string value).

(** A frame: the column index, the dtype each column had when it was
    created, and the labelled rows in order.  A cell missing from a row
    reads as NaN. *)
Record DataFrame := {
  columns : list string;
  dtypes : gmap string dtype;
  rows : list (Z * row)
}.

Module Frame.

(** [pd.DataFrame()] *)
Definition empty_frame : DataFrame :=
  {| columns := []; dtypes := ∅; rows := [] |}.

Definition index (d : DataFrame) : list Z := map fst (rows d).

(** [col in df.columns] *)
Definition has_column (col : string) (d : DataFrame) : bool :=
  bool_decide (col ∈ columns d).

(** [idx in df.index] *)
Definition has_label (idx : Z) (d : DataFrame) : bool :=
  bool_decide (idx ∈ index d).

(** [df.empty] *)
Definition empty (d : DataFrame) : bool :=
  match columns d, rows d with
  | [], _ => true
  | _, [] => true
  | _, _ => false
  end.

Definition cell (r : row) (col : string) : value :=
  match r !! col with Some v => v | None => VNaN end.

Definition dtype_of (d : DataFrame) (col : string) : dtype :=
  match dtypes d !! col with Some t => t | None => object_ end.

Definition scalar_dtype (v : value) : dtype :=
  match v with
  | VBool _ => bool_
  | VInt _ => int64
  | VNaN => float64
  | VTime _ => datetime64
  | _ => object_
  end.

Definition add_column (col : string) (cols : list string) : list string :=
  if bool_decide (col ∈ cols) then cols else (cols ++ [col])%list.

(** [df[col] = f(row)] for every row: a new column is appended, an
    existing one is overwritten in place. *)
Definition assign (col : string) (t : dtype) (f : row -> value)
    (d : DataFrame) : DataFrame :=
  {| columns := add_column col (columns d);
     dtypes := <[col := t]> (dtypes d);
     rows := map (fun '(i, r) => (i, <[col := f r]> r)) (rows d) |}.

(** [df[col] = scalar] *)
Definition assign_scalar (col : string) (v : value) (d : DataFrame)
    : DataFrame :=
  assign col (scalar_dtype v) (fun _ => v) d.

(** [df.loc[idx, col] = v].  A label that is in the index is written in
    place (every row carrying it); a label that is not is appended as a
    new row ("setting with enlargement"), whose other cells are NaN. *)
Definition set_loc (idx : Z) (col : string) (v : value) (d : DataFrame)
    : DataFrame :=
  {| columns := add_column col (columns d);
     dtypes := dtypes d;
     rows :=
       if has_label idx d
       then map (fun '(i, r) =>
                   if bool_decide (i = idx) then (i, <[col := v]> r)
                   else (i, r)) (rows d)
       else (rows d ++ [(idx, {[col := v]})])%list |}.

(** [df[mask]] with the mask computed row by row. *)
Definition select (mask : row -> bool) (d : DataFrame) : DataFrame :=
  {| columns := columns d;
     dtypes := dtypes d;
     rows := List.filter (fun '(_, r) => mask r) (rows d) |}.

(** [df.drop(col, axis=1)] on a column that exists. *)
Definition drop (col : string) (d : DataFrame) : DataFrame :=
  {| columns := List.filter (fun c => negb (String.eqb c col)) (columns d);
     dtypes := delete col (dtypes d);
     rows := map (fun '(i, r) => (i, delete col r)) (rows d) |}.

(** The first row labelled [idx]. *)
Fixpoint find_row (idx : Z) (rs : list (Z * row)) : option row :=
  match rs with
  | [] => None
  | (i, r) :: rest => if bool_decide (i = idx) then Some r
                      else find_row idx rest
  end.

(** Stable insertion sort of the rows; [le a b] says that [a] may stay in
    front of [b]. *)
Fixpoint insert_row (le : row -> row -> bool) (x : Z * row)
    (sorted : list (Z * row)) : list (Z * row) :=
  match sorted with
  | [] => [x]
  | y :: rest => if le (snd x) (snd y) then x :: sorted
                 else y :: insert_row le x rest
  end.

Definition sort_rows (le : row -> row -> bool) (rs : list (Z * row))
    : list (Z * row) :=
  fold_right (insert_row le) [] rs.

End Frame.

(** ** The object store, the manager and the persistence gateway *)

Abbreviation loc := positive.

(** The mapping is a Python dict: insertion-ordered, read with [.get]. *)
Definition mapping := list (string * string).

Fixpoint dict_get (m : mapping) (k : string) : option string :=
  match m with
  | [] => None
  | (k', v) :: rest => if String.eqb k' k then Some v else dict_get rest k
  end.

(** [m.get(k, default)] *)
Definition get_default (m : mapping) (k default : string) : string :=
  match dict_get m k with Some v => v | None => default end.

(** One row of the [lead_updates] table. *)
Record Update := {
  lead_row_id : Z;
  field_name : string;
  old_value : string;
  new_value : string
}.

(** What [df.to_json(orient='records', date_format='iso')] writes of a
    cell: [None] and NaN are both [null], a timestamp is its ISO text. *)
Inductive json_cell :=
| JNull
| JText (s : string)
| JBool (b : bool)
| JNumber (z : Z)
| JIso (t : Z).

Definition to_json_cell (v : value) : json_cell :=
  match v with
  | VNone | VNaN => JNull
  | VStr s => JText s
  | VBool b => JBool b
  | VInt z => JNumber z
  | VTime t => JIso t
  end.

(** The records of a table: one object per row, without the row label. *)
Definition json_records : Type := list (list (string * json_cell)).

(** [df.to_json(orient='records')], [None] when the table cannot be
    written. *)
Definition to_json (pf : Platform) (d : DataFrame) : option json_records :=
  if json_writable pf (columns d) (rows d)
  then Some (map (fun '(_, r) =>
                    map (fun c => (c, to_json_cell (Frame.cell r c)))
                        (columns d))
                 (rows d))
  else None.

(** [LeadDatabase]: the single row of table [leads] (the records of the
    table, the mapping and the original columns) and the rows of
    [lead_updates]. *)
Record LeadDatabase := {
  leads_table : option (json_records * mapping * list string);
  lead_updates : list Update
}.

(** The attributes of a [LeadManager]; [leads_df] is a reference. *)
Record LeadManager := {
  leads_df : option loc;
  column_mapping : mapping;
  original_columns : list string
}.

Record World := {
  frames : gmap loc DataFrame;
  self : LeadManager;
  db : LeadDatabase
}.

Inductive exn :=
| KeyError (key : string)
| LabelError (label : Z)        (* KeyError on a row label *)
| AttributeError (attr : string)
| TypeError
| ReError                       (* re.error: the pattern does not compile *)
| IndexingError                 (* a boolean Series that cannot be aligned *)
| Dangling.                     (* a reference outside the store *)

Inductive outcome (A : Type) :=
| Return (a : A)
| Raise (e : exn).
Arguments Return {A} a.
Arguments Raise {A} e.

(** Computations: state passing with exceptions; what was written before
    an exception stays written. *)
Definition M (A : Type) : Type := World -> outcome A * World.

Definition ret {A} (a : A) : M A := fun w => (Return a, w).

Definition bind {A B} (m : M A) (k : A -> M B) : M B :=
  fun w => match m w with
           | (Return a, w') => k a w'
           | (Raise e, w') => (Raise e, w')
           end.

Definition raise {A} (e : exn) : M A := fun w => (Raise e, w).

(** [try: m except Exception: h] *)
Definition try_except {A} (m : M A) (h : M A) : M A :=
  fun w => match m w with
           | (Return a, w') => (Return a, w')
           | (Raise _, w') => h w'
           end.

Notation "'do' x <- m ; k" := (bind m (fun x => k))
  (at level 10, x name, m at level 100, k at level 200).
Notation "'run' m ; k" := (bind m (fun _ => k))
  (at level 10, m at level 100, k at level 200).

Definition lift_opt {A} (e : exn) (o : option A) : M A :=
  match o with Some a => ret a | None => raise e end.

(** The reference a new object gets: one that is not in use (the one
    after the highest in use). *)
Definition alloc (w : World) : loc :=
  map_fold (fun l _ top => Pos.max (Pos.succ l) top) 1%positive (frames w).

(** A new object holding [d]. *)
Definition new_frame (d : DataFrame) : M loc :=
  fun w =>
    let l := alloc w in
    (Return l,
     {| frames := <[l := d]> (frames w); self := self w; db := db w |}).

(** The frame an object holds. *)
Definition read_frame (l : loc) : M DataFrame :=
  fun w => match frames w !! l with
           | Some d => (Return d, w)
           | None => (Raise Dangling, w)
           end.

(** In-place change of an object. *)
Definition modify_frame (l : loc) (f : DataFrame -> DataFrame) : M unit :=
  fun w => match frames w !! l with
           | Some d =>
               (Return tt,
                {| frames := <[l := f d]> (frames w);
                   self := self w; db := db w |})
           | None => (Raise Dangling, w)
           end.

Definition get_self : M LeadManager := fun w => (Return (self w), w).

Definition set_self (s : LeadManager) : M unit :=
  fun w => (Return tt, {| frames := frames w; self := s; db := db w |}).

Definition get_db : M LeadDatabase := fun w => (Return (db w), w).

Definition set_db (b : LeadDatabase) : M unit :=
  fun w => (Return tt, {| frames := frames w; self := self w; db := b |}).

(** [df[col]]: the column must exist. *)
Definition column_of (d : DataFrame) (col : string) : M unit :=
  if Frame.has_column col d then ret tt else raise (KeyError col).

(** [df.loc[idx, col]] read. *)
Definition get_loc (d : DataFrame) (idx : Z) (col : string) : M value :=
  match Frame.find_row idx (rows d) with
  | None => raise (LabelError idx)
  | Some r => if Frame.has_column col d then ret (Frame.cell r col)
              else raise (KeyError col)
  end.

(** ** Column-level operations used by the manager *)

Definition any_keyword (keywords : list string) (name : string) : bool :=
  existsb (fun keyword => PyStr.contains keyword (PyStr.lower name)) keywords.

Definition is_email_column : string -> bool :=
  any_keyword ["email"; "mail"; "e-mail"].

Definition is_product_column : string -> bool :=
  any_keyword ["product"; "item"; "service"; "offering"].

Definition null_values : list string :=
  ["nan"; "None"; "NULL"; "null"; "<NA>"; ""].

(** [Series.replace(null_val, None)] on one cell. *)
Definition replace_null (null_val : string) (v : value) : value :=
  if eq_str v null_val then VNone else v.

(** The body of the loop of [_process_multiple_values] on one cell: the
    value to be written back, if any.  The column has just been converted
    with [astype(str)], so a cell is a [str] or [None]. *)
Definition process_cell (v : value) : option value :=
  if truthy v && negb (eq_str v "None") then
    match v with
    | VStr s =>
        let unique_values := split_values s in
        if (1 <? length unique_values)%nat
        then Some (VStr (PyStr.join ", " unique_values))
        else None
    | _ => None
    end
  else None.

Definition process_row (col : string) (r : row) : row :=
  match process_cell (Frame.cell r col) with
  | Some v => <[col := v]> r
  | None => r
  end.

(** Ordering used by [sort_values]: nulls last, otherwise the order of
    the values. *)
Definition value_lt (a b : value) : bool :=
  match a, b with
  | VTime x, VTime y => x <? y
  | VInt x, VInt y => x <? y
  | VInt x, VBool y => x <? Z.b2z y
  | VBool x, VInt y => Z.b2z x <? y
  | VBool x, VBool y => Z.b2z x <? Z.b2z y
  | VStr x, VStr y => String.ltb x y
  | _, _ => false
  end.

Definition value_le (a b : value) : bool :=
  if isna b then true else if isna a then false else negb (value_lt b a).

Definition kind (v : value) : nat :=
  match v with
  | VNone | VNaN => 0
  | VStr _ => 1
  | VBool _ | VInt _ => 2
  | VTime _ => 3
  end%nat.

(** Python can order the non-null values of a column only when they are
    of one kind. *)
Definition comparable (vs : list value) : bool :=
  match List.filter notna vs with
  | [] => true
  | v :: rest => forallb (fun u => Nat.eqb (kind u) (kind v)) rest
  end.

Definition column_values (d : DataFrame) (col : string) : list value :=
  map (fun '(_, r) => Frame.cell r col) (rows d).

(** [df.sort_values(col)]: the rows in ascending order of [col], nulls
    last.  Which of two rows with equal keys comes first is up to the
    sorting routine: the rows are taken in the platform's order and
    equal keys are then left as they are. *)
Definition sort_values (pf : Platform) (col : string) (d : DataFrame)
    : M DataFrame :=
  run column_of d col;
  if comparable (column_values d col)
  then ret {| columns := columns d; dtypes := dtypes d;
              rows := Frame.sort_rows
                        (fun a b => value_le (Frame.cell a col)
                                             (Frame.cell b col))
                        (quicksort_order pf col (rows d)) |}
  else raise TypeError.

(** [df.sort_values([c1, c2], ascending=[False, True])]: a sort on
    several keys is stable. *)
Definition sort_values_desc_asc (c1 c2 : string) (d : DataFrame)
    : M DataFrame :=
  run column_of d c1;
  run column_of d c2;
  if comparable (column_values d c1) && comparable (column_values d c2)
  then ret {| columns := columns d; dtypes := dtypes d;
              rows := Frame.sort_rows
                        (fun a b =>
                           let x := Frame.cell a c1 in
                           let y := Frame.cell b c1 in
                           if value_lt y x then true
                           else if value_lt x y then false
                           else value_le (Frame.cell a c2) (Frame.cell b c2))
                        (rows d) |}
  else raise TypeError.

(** [priority_order = {'High': 3, 'Medium': 2, 'Low': 1}], then
    [.map(priority_order).fillna(2)]. *)
Definition priority_order (v : value) : value :=
  if eq_str v "High" then VInt 3
  else if eq_str v "Medium" then VInt 2
  else if eq_str v "Low" then VInt 1
  else VInt 2.

(** [Series.value_counts().to_dict()] after [dropna()]. *)
Definition value_counts (vs : list value) : gmap value nat :=
  fold_left (fun m v => <[v := S (default 0%nat (m !! v))]> m)
            (List.filter notna vs) ∅.

(** [sorted(xs)] on strings. *)
Fixpoint insert_sorted (x : string) (xs : list string) : list string :=
  match xs with
  | [] => [x]
  | y :: rest => if String.leb x y then x :: xs
                 else y :: insert_sorted x rest
  end.

Definition sorted (xs : list string) : list string :=
  fold_right insert_sorted [] xs.

(** The result of [get_analytics]. *)
Record Analytics := {
  total_leads : nat;
  active_followups : nat;
  overdue_tasks : nat;
  qualified_leads : nat;
  status_distribution : gmap value nat;
  priority_distribution : gmap value nat
}.

Definition qualified_statuses : list string := ["qualified"; "closed"; "won"].

(** ** [LeadDatabase] *)

Section Manager.

Variable pf : Platform.

(** [update_lead_field]: one more row in [lead_updates].  An identifier
    that SQLite cannot store as an INTEGER makes the insertion raise
    (OverflowError); the method catches the exception and prints it, so
    nothing is written and the caller goes on. *)
Definition update_lead_field (lead_row : Z) (field : string)
    (old new : value) : M unit :=
  if in_int64 lead_row then
    do b <- get_db;
    set_db {| leads_table := leads_table b;
              lead_updates :=
                (lead_updates b ++
                 [{| lead_row_id := lead_row; field_name := field;
                     old_value := str_of pf old;
                     new_value := str_of pf new |}])%list |}
  else ret tt.

(** [save_leads_data]: the table is turned into its JSON records and the
    row of [leads] is replaced.  When the table cannot be written the
    method catches the exception, the row of [leads] stays as it was
    (nothing was committed) and the method returns [False]. *)
Definition save_leads_data (d : DataFrame) (m : mapping)
    (cols : list string) : M bool :=
  match to_json pf d with
  | Some data_json =>
      do b <- get_db;
      run set_db {| leads_table := Some (data_json, m, cols);
                    lead_updates := lead_updates b |};
      ret true
  | None => ret false
  end.

(** ** [LeadManager] *)

(** [self.leads_df], an attribute error when it is [None]. *)
Definition the_leads : M loc :=
  do s <- get_self;
  lift_opt (AttributeError "leads_df") (leads_df s).

Definition has_data : M bool :=
  do s <- get_self;
  match leads_df s with
  | None => ret false
  | Some l => do d <- read_frame l; ret (negb (Frame.empty d))
  end.

Definition save_to_database : M unit :=
  try_except
    (do ok <- has_data;
     if ok then
       do s <- get_self;
       do l <- the_leads;
       do d <- read_frame l;
       run save_leads_data d (column_mapping s) (original_columns s);
       ret tt
     else ret tt)
    (ret tt).

(** [_process_multiple_values(col)] *)
Definition _process_multiple_values (col : string) : M unit :=
  if is_email_column col || is_product_column col then
    do l <- the_leads;
    modify_frame l
      (fun d =>
         {| columns := columns d; dtypes := dtypes d;
            rows := map (fun '(i, r) => (i, process_row col r)) (rows d) |})
  else ret tt.

(** One turn of the loop of [_clean_data_types]. *)
Definition clean_column (col : string) : M unit :=
  do l <- the_leads;
  do d <- read_frame l;
  match Frame.dtype_of d col with
  | object_ =>
      run modify_frame l
        (Frame.assign col object_
           (fun r => VStr (str_of pf (Frame.cell r col))));
      run modify_frame l
        (Frame.assign col object_
           (fun r => fold_left (fun v null_val => replace_null null_val v)
                               null_values (Frame.cell r col)));
      _process_multiple_values col
  | int64 | float64 =>
      (* pd.to_numeric on a numeric column does not fail *)
      ret tt
  | _ => ret tt
  end.

Fixpoint for_each {A} (xs : list A) (body : A -> M unit) : M unit :=
  match xs with
  | [] => ret tt
  | x :: rest => run body x; for_each rest body
  end.

Definition _clean_data_types : M unit :=
  do l <- the_leads;
  do d <- read_frame l;
  for_each (columns d) clean_column.

(** [_standardize_columns] *)
Definition _standardize_columns : M unit :=
  do s <- get_self;
  for_each (column_mapping s)
    (fun '(standard_name, mapped_column) =>
       do l <- the_leads;
       do d <- read_frame l;
       if negb (PyStr.is_empty mapped_column)
          && Frame.has_column mapped_column d
       then
         if negb (Frame.has_column standard_name d)
         then modify_frame l
                (Frame.assign standard_name (Frame.dtype_of d mapped_column)
                   (fun r => Frame.cell r mapped_column))
         else ret tt
       else ret tt).

(** [if col not in self.leads_df.columns: self.leads_df[col] = v] *)
Definition add_if_missing (col : string) (v : value) : M unit :=
  do l <- the_leads;
  do d <- read_frame l;
  if negb (Frame.has_column col d)
  then modify_frame l (Frame.assign_scalar col v)
  else ret tt.

(** [load_data(df, column_mapping)]; [df] is the caller's object. *)
Definition load_data (df : loc) (column_mapping : mapping) : M unit :=
  do d <- read_frame df;
  do l <- new_frame d;
  run set_self
    {| leads_df := Some l;
       column_mapping :=
         List.filter (fun '(_, v) => negb (PyStr.is_empty v)) column_mapping;
       original_columns := columns d |};
  run _clean_data_types;
  run add_if_missing "priority" (VStr "Medium");
  run add_if_missing "follow_up_date" VNone;
  run add_if_missing "last_contact" VNone;
  run add_if_missing "follow_up_completed" (VBool false);
  run _standardize_columns;
  save_to_database.

(** [get_multiple_emails(lead_idx)] *)
Definition get_multiple_emails (lead_idx : Z) : M (list string) :=
  do s <- get_self;
  do l <- the_leads;
  do d <- read_frame l;
  let email_col := get_default (column_mapping s) "email" "email" in
  if negb (Frame.has_column email_col d) then ret []
  else
    do email_value <- get_loc d lead_idx email_col;
    if negb (truthy email_value) || eq_str email_value "None" then ret []
    else match email_value with
         | VStr cell => ret (emails_of_cell cell)
         | _ => raise (AttributeError "split")
         end.

(** *** Queries *)

(** [df[col].astype(str).str.contains(pat, case=False, na=False)] on one
    cell, once the pattern has been compiled: the pattern is a regular
    expression ([regex=True] is the default). *)
Definition contains_ci (pat : string) (v : value) : bool :=
  regex_search pf pat (str_of pf v).

(** The labels of the frame are 0 .. n-1 in some order.  The search mask
    of [get_filtered_leads] is a Series on 0 .. n-1 ([pd.Series([False] *
    len(df))]), [|=] keeps that index, and [df[search_mask]] finds every
    label of [df] in it only then. *)
Definition range_labels (d : DataFrame) : bool :=
  bool_decide (NoDup (Frame.index d))
  && forallb (fun i => (0 <=? i) && (i <? Z.of_nat (length (rows d))))
             (Frame.index d).

(** The columns searched by [get_filtered_leads]. *)
Definition search_columns_of (m : mapping) (d : DataFrame) : list string :=
  flat_map
    (fun col =>
       if Frame.has_column col d then [col]
       else match dict_get m col with
            | Some mapped =>
                if negb (PyStr.is_empty mapped) && Frame.has_column mapped d
                then [mapped] else []
            | None => []
            end)
    ["name"; "email"; "company"].

Definition get_filtered_leads (search_term status_filter
    priority_filter : string) : M loc :=
  do ok <- has_data;
  if negb ok then new_frame Frame.empty_frame
  else
    try_except
      (do s <- get_self;
       do l <- the_leads;
       do d <- read_frame l;
       do df <- new_frame d;
       do df <-
         (if negb (PyStr.is_empty search_term) then
            do d <- read_frame df;
            let search_columns := search_columns_of (column_mapping s) d in
            match search_columns with
            | [] => ret df
            | _ =>
                if negb (regex_valid pf search_term) then raise ReError
                else if negb (range_labels d) then raise IndexingError
                else
                  new_frame
                    (Frame.select
                       (fun r => existsb
                                   (fun col => Frame.has_column col d
                                               && contains_ci search_term
                                                    (Frame.cell r col))
                                   search_columns) d)
            end
          else ret df);
       do df <-
         (if negb (String.eqb status_filter "All") then
            do d <- read_frame df;
            let status_col :=
              get_default (column_mapping s) "status" "status" in
            if Frame.has_column status_col d
            then
              if negb (regex_valid pf status_filter) then raise ReError
              else new_frame
                     (Frame.select
                        (fun r => contains_ci status_filter
                                    (Frame.cell r status_col)) d)
            else ret df
          else ret df);
       do d <- read_frame df;
       if negb (String.eqb priority_filter "All")
          && Frame.has_column "priority" d
       then new_frame
              (Frame.select
                 (fun r => eq_str (Frame.cell r "priority") priority_filter) d)
       else ret df)
      (new_frame Frame.empty_frame).

Definition get_unique_statuses : M (list string) :=
  do ok <- has_data;
  if negb ok then ret []
  else
    try_except
      (do s <- get_self;
       do l <- the_leads;
       do d <- read_frame l;
       let status_col := get_default (column_mapping s) "status" "status" in
       if Frame.has_column status_col d then
         let unique_statuses :=
           PyStr.fromkeys
             (map (str_of pf)
                  (List.filter notna (column_values d status_col))) in
         ret (sorted
                (List.filter
                   (fun status => negb (PyStr.is_empty status)
                                  && negb (String.eqb status "nan"))
                   unique_statuses))
       else ret [])
      (ret []).

(** The part of the masks shared by the time-windowed views:
    [(df['follow_up_date'].notna()) & (df['follow_up_completed'] == False)]. *)
Definition open_followup (r : row) : bool :=
  notna (Frame.cell r "follow_up_date")
  && eq_False (Frame.cell r "follow_up_completed").

(** A comparison with NaT is false. *)
Definition date_test (test : Z -> bool) (r : row) : bool :=
  match to_datetime pf (Frame.cell r "follow_up_date") with
  | Some t => test t
  | None => false
  end.

Definition upcoming_mask (today end_date : Z) (r : row) : bool :=
  open_followup r
  && date_test (fun t => today <=? t) r
  && date_test (fun t => t <=? end_date) r.

Definition overdue_mask (today : Z) (r : row) : bool :=
  open_followup r && date_test (fun t => t <? today) r.

Definition daily_mask (target_date : Z) (r : row) : bool :=
  open_followup r && date_test (fun t => normalize t =? target_date) r.

(** [view = self.leads_df[mask].copy()]
    [if not view.empty: view = view.sort_values('follow_up_date')] *)
Definition sorted_view (mask : row -> bool) : M loc :=
  do l <- the_leads;
  do d <- read_frame l;
  run column_of d "follow_up_date";
  run column_of d "follow_up_completed";
  do view <- new_frame (Frame.select mask d);
  do v <- read_frame view;
  if negb (Frame.empty v)
  then do sorted_frame <- sort_values pf "follow_up_date" v;
       new_frame sorted_frame
  else ret view.

Definition get_upcoming_followups (now : Z) (days_ahead : Z) : M loc :=
  do ok <- has_data;
  if negb ok then new_frame Frame.empty_frame
  else
    let today := normalize now in
    let end_date := today + days_ahead * NS_PER_DAY in
    sorted_view (upcoming_mask today end_date).

Definition get_overdue_followups (now : Z) : M loc :=
  do ok <- has_data;
  if negb ok then new_frame Frame.empty_frame
  else
    let today := normalize now in
    sorted_view (overdue_mask today).

Definition get_daily_tasks (date : Z) : M loc :=
  do ok <- has_data;
  if negb ok then new_frame Frame.empty_frame
  else
    let target_date := normalize date in
    do l <- the_leads;
    do d <- read_frame l;
    run column_of d "follow_up_date";
    run column_of d "follow_up_completed";
    do daily_tasks <- new_frame (Frame.select (daily_mask target_date) d);
    do t <- read_frame daily_tasks;
    if negb (Frame.empty t) then
      run column_of t "priority";
      run modify_frame daily_tasks
        (Frame.assign "priority_order" int64
           (fun r => priority_order (Frame.cell r "priority")));
      do t <- read_frame daily_tasks;
      do sorted_frame <-
        sort_values_desc_asc "priority_order" "follow_up_date" t;
      do daily_tasks <- new_frame sorted_frame;
      do t <- read_frame daily_tasks;
      new_frame (Frame.drop "priority_order" t)
    else ret daily_tasks.

Definition count_rows (mask : row -> bool) (d : DataFrame) : nat :=
  length (List.filter (fun '(_, r) => mask r) (rows d)).

Definition get_analytics (now : Z) : M Analytics :=
  do ok <- has_data;
  if negb ok then
    ret {| total_leads := 0; active_followups := 0; overdue_tasks := 0;
           qualified_leads := 0; status_distribution := ∅;
           priority_distribution := ∅ |}
  else
    let today := normalize now in
    do s <- get_self;
    do l <- the_leads;
    do d <- read_frame l;
    run column_of d "follow_up_date";
    run column_of d "follow_up_completed";
    let status_col := get_default (column_mapping s) "status" "status" in
    let status_dist :=
      if Frame.has_column status_col d
      then value_counts (column_values d status_col) else ∅ in
    run column_of d "priority";
    let qualified :=
      if Frame.has_column status_col d
      then fold_left
             (fun qualified_leads status =>
                (qualified_leads +
                 count_rows
                   (fun r => PyStr.contains status
                               (PyStr.lower
                                  (str_of pf (Frame.cell r status_col))))
                   d)%nat)
             qualified_statuses 0%nat
      else 0%nat in
    ret {| total_leads := length (rows d);
           active_followups := count_rows open_followup d;
           overdue_tasks := count_rows (overdue_mask today) d;
           qualified_leads := qualified;
           status_distribution := status_dist;
           priority_distribution :=
             value_counts (column_values d "priority") |}.

(** *** Mutations *)

(** [df.loc[idx, col] if idx in df.index else None] *)
Definition old_cell (d : DataFrame) (lead_idx : Z) (col : string) : M value :=
  if Frame.has_label lead_idx d then get_loc d lead_idx col else ret VNone.

Definition update_lead_status (now : Z) (lead_idx : Z) (new_status : string)
    : M unit :=
  do ok <- has_data;
  if negb ok then ret tt
  else
    do s <- get_self;
    do l <- the_leads;
    do d <- read_frame l;
    let status_col := get_default (column_mapping s) "status" "status" in
    do status_col <-
      (if negb (Frame.has_column status_col d)
       then run modify_frame l (Frame.assign_scalar "status" VNone);
            ret "status"
       else ret status_col);
    do d <- read_frame l;
    do old_status <- old_cell d lead_idx status_col;
    run update_lead_field lead_idx "status" old_status (VStr new_status);
    run modify_frame l (Frame.set_loc lead_idx status_col (VStr new_status));
    run modify_frame l
      (Frame.set_loc lead_idx "last_contact" (VStr (strftime_date pf now)));
    save_to_database.

Definition update_lead_priority (lead_idx : Z) (new_priority : string)
    : M unit :=
  do ok <- has_data;
  if negb ok then ret tt
  else
    do l <- the_leads;
    do d <- read_frame l;
    do old_priority <- old_cell d lead_idx "priority";
    run update_lead_field lead_idx "priority" old_priority
          (VStr new_priority);
    run modify_frame l (Frame.set_loc lead_idx "priority" (VStr new_priority));
    save_to_database.

(** [follow_up_date] is the argument after [pd.Timestamp(follow_up_date)]. *)
Definition schedule_followup (lead_idx : Z) (follow_up_date : Z) : M unit :=
  do ok <- has_data;
  if negb ok then ret tt
  else
    do l <- the_leads;
    do d <- read_frame l;
    do old_date <- old_cell d lead_idx "follow_up_date";
    run update_lead_field lead_idx "follow_up_date" old_date
          (VTime follow_up_date);
    run modify_frame l
      (Frame.set_loc lead_idx "follow_up_date" (VTime follow_up_date));
    run modify_frame l
      (Frame.set_loc lead_idx "follow_up_completed" (VBool false));
    save_to_database.

Definition add_note (now : Z) (lead_idx : Z) (note : string) : M unit :=
  do ok <- has_data;
  if negb ok || PyStr.is_empty (PyStr.strip note) then ret tt
  else
    do s <- get_self;
    do l <- the_leads;
    do d <- read_frame l;
    let notes_col := get_default (column_mapping s) "notes" "notes" in
    do notes_col <-
      (if negb (Frame.has_column notes_col d)
       then run modify_frame l (Frame.assign_scalar "notes" (VStr ""));
            ret "notes"
       else ret notes_col);
    do d <- read_frame l;
    do current_note <- get_loc d lead_idx notes_col;
    let stamped := "[" +:+ strftime_minute pf now +:+ "] " +:+ note in
    let new_note :=
      if isna current_note || eq_str current_note ""
      then stamped
      else str_of pf current_note +:+ LF +:+ stamped in
    run update_lead_field lead_idx "notes" current_note (VStr new_note);
    run modify_frame l (Frame.set_loc lead_idx notes_col (VStr new_note));
    save_to_database.

Definition complete_followup (now : Z) (lead_idx : Z) : M unit :=
  do ok <- has_data;
  if negb ok then ret tt
  else
    do l <- the_leads;
    run update_lead_field lead_idx "follow_up_completed"
          (VBool false) (VBool true);
    run modify_frame l
      (Frame.set_loc lead_idx "follow_up_completed" (VBool true));
    run modify_frame l
      (Frame.set_loc lead_idx "last_contact" (VStr (strftime_date pf now)));
    save_to_database.

End Manager.

(** ** Observations of a world *)

(** The Lead Store: the frame [self.leads_df] refers to. *)
Definition store (w : World) : option DataFrame :=
  match leads_df (self w) with
  | Some l => frames w !! l
  | None => None
  end.

(** The frame a returned reference holds. *)
Definition frame_at (w : World) (l : loc) : option DataFrame := frames w !! l.

(** A world in which the object [l] holds [d]. *)
Definition put_frame (l : loc) (d : DataFrame) (w : World) : World :=
  {| frames := <[l := d]> (frames w); self := self w; db := db w |}.

Definition management_columns : list string :=
  ["priority"; "follow_up_date"; "last_contact"; "follow_up_completed"].

(** The invariant of the Lead Store: the management columns exist. *)
Definition normalized (d : DataFrame) : bool :=
  forallb (fun col => Frame.has_column col d) management_columns.

(** The column a mutation of the semantic field [name] writes, and the
    frame once that column is ensured ([df[name] = fill] when the
    looked-up column is not there). *)
Definition target_column (m : mapping) (name : string) (d : DataFrame)
    : string :=
  if Frame.has_column (get_default m name name) d
  then get_default m name name else name.

Definition ensure_column (m : mapping) (name : string) (fill : value)
    (d : DataFrame) : DataFrame :=
  if Frame.has_column (get_default m name name) d then d
  else Frame.assign_scalar name fill d.

(** The text [add_note] stores. *)
Definition stamped_note (pf : Platform) (now : Z) (current_note : value)
    (note : string) : string :=
  let stamped := "[" +:+ strftime_minute pf now +:+ "] " +:+ note in
  if isna current_note || eq_str current_note ""
  then stamped
  else str_of pf current_note +:+ LF +:+ stamped.

(** The index of the frame a query returned. *)
Definition result_index (res : outcome loc * World) : option (list Z) :=
  match res with
  | (Return l, w) => Frame.index <$> frames w !! l
  | (Raise _, _) => None
  end.

(** *** Which column a consumer of the status reads *)

(** The resolution of the specification: the column literally named
    [semantic_name], else the mapped column, else the default. *)
Definition resolve_three_tier (m : mapping) (d : DataFrame)
    (semantic_name : string) (default : value) (r : row) : value :=
  if Frame.has_column semantic_name d then Frame.cell r semantic_name
  else match dict_get m semantic_name with
       | Some mapped =>
           if Frame.has_column mapped d then Frame.cell r mapped
           else default
       | None => default
       end.

(** The column [self.column_mapping.get(name, name)] names: the mapped
    column when the mapping designates one, else the literal one. *)
Definition mapped_first (m : mapping) (semantic_name : string) : string :=
  match dict_get m semantic_name with
  | Some mapped => mapped
  | None => semantic_name
  end.

(** *** The qualified-lead count, said in two ways *)

Definition has_keyword (pf : Platform) (keyword : string) (status : value)
    : bool :=
  PyStr.contains keyword (PyStr.lower (str_of pf status)).

(** Keyword by keyword: the number of records containing it, summed. *)
Definition qualified_by_keyword (pf : Platform) (statuses : list value)
    : nat :=
  list_sum
    (map (fun keyword =>
            length (List.filter (has_keyword pf keyword) statuses))
         qualified_statuses).



(** An import with a column [Stage] mapped to the status, followed by one
    status update of record 0. *)
Definition stage_import : DataFrame :=
  {| columns := ["Stage"];
     dtypes := {[ "Stage" := object_ ]};
     rows := [(0, {[ "Stage" := VStr "new" ]})] |}.

Definition fresh_world (import : DataFrame) : World :=
  {| frames := {[ 1%positive := import ]};
     self := {| leads_df := None; column_mapping := [];
                original_columns := [] |};
     db := {| leads_table := None; lead_updates := [] |} |}.

(** *** Predicates used in the statements *)

(** A world after a mutation of the store: the frame of [l] replaced and
    the gateway written. *)
Definition mutated (w : World) (l : loc) (d' : DataFrame) (w' : World) : Prop :=
  frames w' = <[l := d']> (frames w) /\ self w' = self w.

(** What a view returns: a new frame with the selected rows in some
    order; nothing else changes. *)
Definition view_of (mask : row -> bool) (w : World) (l : loc) (d : DataFrame)
    (l' : loc) (w' : World) : Prop :=
  exists v,
    frames w' !! l' = Some v
    /\ columns v = columns d
    /\ (forall x, In x (rows v) <-> In x (rows d) /\ mask (snd x) = true)
    /\ self w' = self w /\ db w' = db w /\ frames w' !! l = Some d.

(** What [get_daily_tasks] returns. *)
Definition daily_view_of (mask : row -> bool) (w : World) (l : loc)
    (d : DataFrame) (l' : loc) (w' : World) : Prop :=
  exists v,
    frames w' !! l' = Some v
    /\ incl (columns v) (columns d)
    /\ (forall i, In i (Frame.index v) <->
                  exists r, In (i, r) (rows d) /\ mask r = true)
    /\ self w' = self w /\ db w' = db w /\ frames w' !! l = Some d.

(** The frame [complete_followup] leaves. *)
Definition completed (today : string) (lead_idx : Z) (d : DataFrame)
    : DataFrame :=
  Frame.set_loc lead_idx "last_contact" (VStr today)
    (Frame.set_loc lead_idx "follow_up_completed" (VBool true) d).

(** A step that returns normally and keeps [I]. *)
Definition keeps (I : World -> Prop) (m : M unit) : Prop :=
  forall w, I w -> exists w', m w = (Return tt, w') /\ I w'.

(** The store is the object [l] and its frame satisfies [P]. *)
Definition store_is (l : loc) (s : LeadManager) (P : DataFrame -> Prop)
    (w : World) : Prop :=
  self w = s /\ leads_df s = Some l
  /\ exists d, frames w !! l = Some d /\ P d.

(** The defaults [load_data] injects. *)
Definition management_defaults : list (string * value) :=
  [("priority", VStr "Medium"); ("follow_up_date", VNone);
   ("last_contact", VNone); ("follow_up_completed", VBool false)].

(** Whatever the outcome of [m], the store is normalised afterwards. *)
Definition stays_normalized (m : M unit) (w : World) : Prop :=
  exists d', store (snd (m w)) = Some d' /\ normalized d' = true.

(** The frame of the store during the import of [d]: same records, the
    columns of [d] and those injected so far, and the default in every
    row of an injected column the import did not have. *)
Definition injected (d : DataFrame) (done : list (string * value))
    (d' : DataFrame) : Prop :=
  Frame.index d' = Frame.index d
  /\ (forall c, In c (columns d') <->
                In c (columns d) \/ In c (map fst done))
  /\ (forall c v, In (c, v) done -> ~ In c (columns d) ->
                  Forall (fun x => Frame.cell (snd x) c = v) (rows d')).

(** Cleaning keeps the columns and the records. *)
Definition same_shape (d d' : DataFrame) : Prop :=
  columns d' = columns d /\ Frame.index d' = Frame.index d.

(** What [load_data] establishes on the import [d]. *)
Definition imported (d d' : DataFrame) : Prop :=
  Frame.index d' = Frame.index d
  /\ normalized d' = true
  /\ (forall c v, In (c, v) management_defaults -> ~ In c (columns d) ->
                  Forall (fun x => Frame.cell (snd x) c = v) (rows d')).

(** Nothing that existed before has changed: the attributes of the
    manager, the gateway, and every object of [w]. *)
Definition untouched (w w' : World) : Prop :=
  self w' = self w /\ db w' = db w /\ frames w ⊆ frames w'.

(** [m] keeps [I], however it ends. *)
Definition preserves {A} (I : World -> Prop) (m : M A) : Prop :=
  forall w, I w -> I (snd (m w)).

(** A call of [m] in [w] changes nothing: the attributes of the manager
    (the reference to the table, the column mapping, the original
    columns), the table of the Lead Store, the gateway, and every frame
    that existed are as before. *)
Definition unchanged_by {A} (m : M A) (w : World) : Prop :=
  let w' := snd (m w) in
  self w' = self w /\ store w' = store w /\ db w' = db w
  /\ frames w ⊆ frames w'.

(** The columns of the Lead Store. *)
Definition store_columns (w : World) : list string :=
  match store w with
  | Some d => columns d
  | None => []
  end.

(** A platform for running examples: only timestamps inside the
    nanosecond range are dates, a pattern is taken to compile when it
    has no operator (the examples use no other), sorting takes the rows
    as they are (which is what numpy does on the short tables of the
    examples), and the texts are fixed. *)
Definition distinct (cols : list string) : bool :=
  bool_decide (NoDup cols).

Definition distinct_unique (cols : list string) (H : distinct cols = true)
    : NoDup cols :=
  bool_decide_eq_true_1 (NoDup cols) H.

Definition demo_platform : Platform :=
  {| to_datetime :=
       fun v => match v with
                | VTime t => if in_ns_range t then Some t else None
                | _ => None
                end;
     to_datetime_time :=
       fun t H =>
         @eq_ind_r bool true
           (fun b : bool => (if b then Some t else None) = Some t)
           eq_refl (in_ns_range t) H;
     to_datetime_none := eq_refl;
     to_datetime_nan := eq_refl;
     regex_valid := PyStr.plain_pattern;
     regex_search :=
       fun pat text => PyStr.contains (PyStr.lower pat) (PyStr.lower text);
     regex_plain := fun pat H => conj H (fun _ => eq_refl);
     quicksort_order := fun _ rs => rs;
     quicksort_order_perm := fun _ rs => Permutation_refl rs;
     json_writable := fun cols _ => distinct cols;
     json_writable_unique := fun cols _ H => distinct_unique cols H;
     str_timestamp := fun _ => "<timestamp>";
     str_int := fun _ => "<int>";
     strftime_date := fun _ => "<date>";
     strftime_minute := fun _ => "<date hh:mm>" |}.

Definition stage_world : World :=
  snd (update_lead_status demo_platform 0 0 "qualified"
         (snd (load_data demo_platform 1%positive [("status", "Stage")]
                 (fresh_world stage_import)))).

(** An import that has a column literally named [name] and another
    column, [Alias], that the mapping designates for the name. *)
Definition alias_import : DataFrame :=
  {| columns := ["name"; "Alias"];
     dtypes := {[ "name" := object_; "Alias" := object_ ]};
     rows := [(0, {[ "name" := VStr "Ann"; "Alias" := VStr "Bob" ]})] |}.

Definition alias_world : World :=
  snd (load_data demo_platform 1%positive [("name", "Alias")]
         (fresh_world alias_import)).

(** The frame of the Lead Store, for a world that has one. *)
Definition the_store (w : World) : DataFrame :=
  default Frame.empty_frame (store w).

(** Three leads; the contact column holds several addresses in one cell,
    and the first status contains two of the qualifying keywords. *)
Definition demo_import : DataFrame :=
  {| columns := ["Name"; "Contact"; "Stage"];
     dtypes := {[ "Name" := object_; "Contact" := object_;
                  "Stage" := object_ ]};
     rows :=
       [(0, {[ "Name" := VStr "Ann";
               "Contact" := VStr "a@x.com; b@y.com,a@x.com";
               "Stage" := VStr "Closed Won" ]});
        (1, {[ "Name" := VStr "Bob"; "Contact" := VNaN;
               "Stage" := VStr "new" ]});
        (2, {[ "Name" := VStr "Cy"; "Contact" := VStr "c@z.org";
               "Stage" := VStr "qualified" ]})] |}.

Definition demo_mapping : mapping :=
  [("name", "Name"); ("email", "Contact"); ("status", "Stage")].

Definition demo_world : World :=
  snd (load_data demo_platform 1%positive demo_mapping
         (fresh_world demo_import)).

(** A file whose [email] column is blank in every row: the parser makes
    it a float64 column of NaN, which the cleaning leaves alone. *)
Definition blank_email_import : DataFrame :=
  {| columns := ["name"; "email"];
     dtypes := {[ "name" := object_; "email" := float64 ]};
     rows := [(0, {[ "name" := VStr "Ann"; "email" := VNaN ]})] |}.

Definition blank_email_world : World :=
  snd (load_data demo_platform 1%positive []
         (fresh_world blank_email_import)).

(** Two leads with a follow-up on the seventh day from the epoch: the
    first at midnight, the second at 15:00. *)
Definition midnight_day7 : Z := 7 * NS_PER_DAY.
Definition afternoon_day7 : Z := 7 * NS_PER_DAY + 15 * 3600 * 1000000000.

Definition two_leads_import : DataFrame :=
  {| columns := ["name"];
     dtypes := {[ "name" := object_ ]};
     rows := [(0, {[ "name" := VStr "Ann" ]});
              (1, {[ "name" := VStr "Bob" ]})] |}.

Definition boundary_world : World :=
  snd (schedule_followup demo_platform 1 afternoon_day7
         (snd (schedule_followup demo_platform 0 midnight_day7
                 (snd (load_data demo_platform 1%positive []
                         (fresh_world two_leads_import)))))).

(** ** Product extraction *)

(** The columns [get_multiple_products] reads: those whose name holds a
    product keyword, in column order, then the column the mapping gives
    for [products] when it gives one. *)
Definition product_columns (m : mapping) (d : DataFrame) : list string :=
  (List.filter is_product_column (columns d)
   ++ match dict_get m "products" with
      | Some mapped => if PyStr.is_empty mapped then [] else [mapped]
      | None => []
      end)%list.

(** One turn of the loop over [product_cols]. *)
Definition products_of_column (d : DataFrame) (lead_idx : Z)
    (all_products : list string) (col : string) : M (list string) :=
  if Frame.has_column col d then
    do product_value <- get_loc d lead_idx col;
    if truthy product_value && negb (eq_str product_value "None") then
      match product_value with
      | VStr cell => ret (all_products ++ cascade separators_read cell)%list
      | _ => raise (AttributeError "split")
      end
    else ret all_products
  else ret all_products.

(** A loop that carries an accumulator. *)
Fixpoint fold_m {A B} (body : B -> A -> M B) (xs : list A) (acc : B) : M B :=
  match xs with
  | [] => ret acc
  | x :: rest => do acc' <- body acc x; fold_m body rest acc'
  end.

(** [get_multiple_products(lead_idx)] *)
Definition get_multiple_products (lead_idx : Z) : M (list string) :=
  do s <- get_self;
  do l <- the_leads;
  do d <- read_frame l;
  do all_products <-
    fold_m (products_of_column d lead_idx)
           (product_columns (column_mapping s) d) [];
  ret (PyStr.fromkeys all_products).

(** The order of Python's [sorted] on strings. *)
Definition leb_true (a b : string) : Prop := String.leb a b = true.

(** A cell that holds text or [None]. *)
Definition text_or_none (v : value) : bool :=
  match v with VNone | VStr _ => true | _ => false end.


(** A table with two product columns, one of them also mapped. *)
Definition shop_import : DataFrame :=
  {| columns := ["name"; "Products"; "Item list"; "Stage"];
     dtypes := {[ "name" := object_; "Products" := object_;
                  "Item list" := object_; "Stage" := object_ ]};
     rows :=
       [(0, {[ "name" := VStr "Ann"; "Products" := VStr "pen; ink|pen";
               "Item list" := VStr "ink, paper"; "Stage" := VStr "won" ]});
        (1, {[ "name" := VStr "Bob"; "Products" := VNaN;
               "Item list" := VStr ""; "Stage" := VStr "New" ]});
        (2, {[ "name" := VStr "Cy"; "Products" := VStr "ink";
               "Item list" := VNaN; "Stage" := VStr "new" ]})] |}.

Definition shop_mapping : mapping :=
  [("name", "name"); ("products", "Products"); ("status", "Stage");
   ("company", "")].

Definition shop_world : World :=
  snd (load_data demo_platform 1%positive shop_mapping
         (fresh_world shop_import)).

(** ** What a mutation leaves behind *)

(** The value a mutation logs as the old one:
    [df.loc[idx, col] if idx in df.index else None]. *)
Definition previous (d : DataFrame) (lead_idx : Z) (col : string) : value :=
  match Frame.find_row lead_idx (rows d) with
  | Some r => Frame.cell r col
  | None => VNone
  end.

(** The row [update_lead_field] writes. *)
Definition change (pf : Platform) (lead_idx : Z) (field : string)
    (old new : value) : Update :=
  {| lead_row_id := lead_idx; field_name := field;
     old_value := str_of pf old; new_value := str_of pf new |}.

(** The log after [update_lead_field]: one more row when the identifier
    is one SQLite can store. *)
Definition logged (lead_idx : Z) (u : Update) (log : list Update)
    : list Update :=
  if in_int64 lead_idx then (log ++ [u])%list else log.

(** The row of [leads] after [save_leads_data] on the table [d]: its
    records with the mapping and the original columns of the manager
    [s], or what the row was when the table cannot be written. *)
Definition saved_table (pf : Platform) (d : DataFrame) (s : LeadManager)
    (before : option (json_records * mapping * list string))
    : option (json_records * mapping * list string) :=
  match to_json pf d with
  | Some data_json => Some (data_json, column_mapping s, original_columns s)
  | None => before
  end.

(** The world after a mutation of the store [l]: its frame replaced by
    [d'], the log as [update_lead_field] left it, and the table saved. *)
Definition committed (pf : Platform) (l : loc) (d' : DataFrame)
    (lead_idx : Z) (u : Update) (w : World) : World :=
  {| frames := <[l := d']> (frames w);
     self := self w;
     db := {| leads_table := saved_table pf d' (self w) (leads_table (db w));
              lead_updates := logged lead_idx u (lead_updates (db w)) |} |}.

(** The gateway of [w'] after a save of the Lead Store that started with
    the gateway of [w]: the table of [leads] holds the JSON records of
    the table of the store (the cells column by column, without the row
    labels, a null for [None] and for NaN), the mapping and the original
    columns; when the table could not be written, it holds what it held
    in [w]. *)
Definition saved_after (pf : Platform) (w w' : World) : Prop :=
  exists d',
    store w' = Some d'
    /\ leads_table (db w')
       = saved_table pf d' (self w') (leads_table (db w))
    /\ (forall data_json, to_json pf d' = Some data_json ->
          leads_table (db w')
          = Some (data_json, column_mapping (self w'),
                  original_columns (self w'))).

(** The records other than [lead_idx] are the same in [d] and [d']. *)
Definition others_kept (lead_idx : Z) (d d' : DataFrame) : Prop :=
  List.filter (fun x => negb (Z.eqb (fst x) lead_idx)) (rows d')
  = List.filter (fun x => negb (Z.eqb (fst x) lead_idx)) (rows d).

(** ** What the filters keep *)

(** The status filter of [get_filtered_leads] on one record: "All", or a
    status column that is missing, keeps every record. *)
Definition status_test (pf : Platform) (m : mapping) (d : DataFrame)
    (status_filter : string) (r : row) : bool :=
  String.eqb status_filter "All"
  || negb (Frame.has_column (get_default m "status" "status") d)
  || contains_ci pf status_filter
       (Frame.cell r (get_default m "status" "status")).

(** The status filter is applied and is not a regular expression:
    [str.contains] raises [re.error]. *)
Definition status_filter_fails (pf : Platform) (m : mapping) (d : DataFrame)
    (status_filter : string) : bool :=
  negb (String.eqb status_filter "All")
  && Frame.has_column (get_default m "status" "status") d
  && negb (regex_valid pf status_filter).

(** The priority filter on one record. *)
Definition priority_test (d : DataFrame) (priority_filter : string)
    (r : row) : bool :=
  String.eqb priority_filter "All"
  || negb (Frame.has_column "priority" d)
  || eq_str (Frame.cell r "priority") priority_filter.

(** ** The order of the views *)

(** The rank [get_daily_tasks] sorts by: High 3, Medium 2, Low 1, and 2
    for anything else. *)
Definition priority_rank (v : value) : Z :=
  if eq_str v "High" then 3
  else if eq_str v "Medium" then 2
  else if eq_str v "Low" then 1
  else 2.

(** Ascending follow-up date, nulls last. *)
Definition by_date (x y : Z * row) : Prop :=
  value_le (Frame.cell (snd x) "follow_up_date")
           (Frame.cell (snd y) "follow_up_date") = true.

(** Descending priority rank, then ascending follow-up date. *)
Definition by_priority_then_date (x y : Z * row) : Prop :=
  priority_rank (Frame.cell (snd y) "priority")
  < priority_rank (Frame.cell (snd x) "priority")
  \/ (priority_rank (Frame.cell (snd x) "priority")
      = priority_rank (Frame.cell (snd y) "priority")
      /\ by_date x y).

(** A cell that is null or a timestamp. *)
Definition null_or_time (v : value) : bool :=
  match v with VNone | VNaN | VTime _ => true | _ => false end.

(** ** The aliases of the mapped columns *)

(** Every entry [(name, column)] of the mapping whose column is in the
    import [d], and whose name is neither a column of the import nor a
    management column, has in [d'] a column [name] that holds in each
    record what [column] holds. *)
Definition aliased (m : mapping) (d d' : DataFrame) : Prop :=
  forall name column,
    In (name, column) m -> PyStr.is_empty column = false ->
    In column (columns d) ->
    ~ In name (columns d) -> ~ In name management_columns ->
    Frame.has_column name d' = true
    /\ Forall (fun x => Frame.cell (snd x) name = Frame.cell (snd x) column)
              (rows d').

(** The state of the loop of [_standardize_columns] after the entries
    [done], on a frame that had the columns [cols0] when the loop
    started. *)
Definition aliases_done (cols0 : list string) (done : mapping)
    (d' : DataFrame) : Prop :=
  (forall c, In c (columns d') -> In c cols0 \/ In c (map fst done))
  /\ (forall c, In c cols0 -> In c (columns d'))
  /\ (forall name column,
        In (name, column) done -> PyStr.is_empty column = false ->
        In column cols0 ->
        In name (columns d')
        /\ (~ In name cols0 ->
            Forall (fun x => Frame.cell (snd x) name
                             = Frame.cell (snd x) column) (rows d'))).

(** The frame [pd.DataFrame()] a query returns when there is no data. *)
Definition empty_result (w : World) : outcome loc * World :=
  (Return (alloc w), put_frame (alloc w) Frame.empty_frame w).

(** The shop after a write to an identifier that was not in the table:
    record 7 has a priority and no other cell. *)
Definition enlarged_world : World :=
  snd (update_lead_priority demo_platform 7 "High" shop_world).

(** ** Auxiliary predicates *)

(** [x] may stay in front of [y] for the comparison [le]. *)
Definition ordered_by (le : row -> row -> bool) (x y : Z * row) : Prop :=
  le (snd x) (snd y) = true.

(** Only the frame of the object [l] has changed since [w0]. *)
Definition only_store (l : loc) (w0 w : World) : Prop :=
  db w = db w0 /\ self w = self w0
  /\ forall l0, l0 <> l -> frames w !! l0 = frames w0 !! l0.

(** ** What a view gives after a completion *)

(** A call that gave a result. *)
Definition returns {A} (res : outcome A * World) : Prop :=
  exists a w, res = (Return a, w).

(** The outcome of a view in which the record [lead_idx] does not show:
    a frame without it, or no frame at all because the sort of the
    follow-up dates raised TypeError. *)
Definition lacks (lead_idx : Z) (res : outcome loc * World) : Prop :=
  match res with
  | (Return l, w) =>
      exists v, frame_at w l = Some v /\ ~ In lead_idx (Frame.index v)
  | (Raise e, _) => e = TypeError
  end.


(** What [get_analytics] says of the statuses: the qualified-lead count
    and the entries of the distribution for two statuses. *)
Definition status_counts (res : outcome Analytics * World)
    (s1 s2 : string) : option (nat * option nat * option nat) :=
  match fst res with
  | Return a =>
      Some (qualified_leads a,
            status_distribution a !! VStr s1,
            status_distribution a !! VStr s2)
  | Raise _ => None
  end.

(** The boundary table after the follow-up of record 0 was completed. *)
Definition completed_world : World :=
  snd (complete_followup demo_platform 0 0 boundary_world).

Module PyStrFacts.
Import PyStr.

Lemma lstrip_head s :
  lstrip s = EmptyString \/
  exists c t, lstrip s = String c t /\ is_space c = false.
Proof.
  induction s as [|c s IH]; simpl; [now left|].
  destruct (is_space c) eqn:E; [exact IH|].
  right. exists c, s. split; [reflexivity|exact E].
Qed.

Lemma rstrip_idem s : rstrip (rstrip s) = rstrip s.
Proof.
  induction s as [|c s IH]; simpl; [reflexivity|].
  destruct (is_space c && is_empty (rstrip s)) eqn:E; simpl; [reflexivity|].
  rewrite IH, E. reflexivity.
Qed.

Lemma rstrip_cons c t :
  is_space c = false -> rstrip (String c t) = String c (rstrip t).
Proof. intros H. simpl. rewrite H. reflexivity. Qed.

Lemma strip_idem s : strip (strip s) = strip s.
Proof.
  unfold strip. destruct (lstrip_head s) as [->|(c & t & -> & Hc)]; [reflexivity|].
  rewrite (rstrip_cons c t Hc). simpl lstrip. rewrite Hc.
  rewrite (rstrip_cons c _ Hc), rstrip_idem. reflexivity.
Qed.


Lemma strip_fixed s :
  strip s = s -> is_empty s = false ->
  exists c t, s = String c t /\ is_space c = false /\ rstrip s = s.
Proof.
  unfold strip. intros Hs Hne.
  destruct (lstrip_head s) as [E|(c & t & E & Hc)]; rewrite E in Hs.
  - simpl in Hs. subst s. discriminate.
  - rewrite (rstrip_cons c t Hc) in Hs. exists c, (rstrip t).
    split; [now symmetry|]. split; [exact Hc|].
    rewrite <- Hs at 1. rewrite (rstrip_cons c _ Hc), rstrip_idem. exact Hs.
Qed.

Lemma strip_space s : strip (String " " s) = strip s.
Proof. reflexivity. Qed.

Lemma occurs_app d a b : occurs d (a +:+ b) = occurs d a || occurs d b.
Proof.
  induction a as [|c a IH]; simpl; [reflexivity|].
  rewrite IH. now rewrite orb_assoc.
Qed.

Lemma occurs_lstrip d s : occurs d s = false -> occurs d (lstrip s) = false.
Proof.
  induction s as [|c s IH]; simpl; [easy|].
  intros H. apply orb_false_iff in H as [H1 H2].
  destruct (is_space c); [now apply IH|]. simpl. now rewrite H1, H2.
Qed.

Lemma occurs_rstrip d s : occurs d s = false -> occurs d (rstrip s) = false.
Proof.
  induction s as [|c s IH]; simpl; [easy|].
  intros H. apply orb_false_iff in H as [H1 H2].
  destruct (is_space c && is_empty (rstrip s)); [reflexivity|].
  simpl. now rewrite H1, IH.
Qed.

Lemma occurs_strip d s : occurs d s = false -> occurs d (strip s) = false.
Proof. intros H. now apply occurs_rstrip, occurs_lstrip. Qed.

Lemma split_from_occurs d sep k s :
  occurs d s = false ->
  Forall (fun f => occurs d f = false) (split_from sep k s).
Proof.
  revert k. induction s as [|c s IH]; intros k H; cbn [split_from].
  - constructor; [reflexivity|constructor].
  - simpl in H. apply orb_false_iff in H as [H1 H2].
    destruct k; [|now apply IH].
    destruct (String.prefix sep (String c s)).
    + constructor; [reflexivity|now apply IH].
    + specialize (IH 0%nat H2). destruct (split_from sep 0 s) as [|f fs].
      * constructor; [simpl; now rewrite H1|constructor].
      * inversion IH; subst. constructor; [simpl; now rewrite H1|assumption].
Qed.

Lemma prefix_char c a s :
  String.prefix (String c EmptyString) (String a s) = Ascii.eqb c a.
Proof.
  simpl. destruct (ascii_dec c a) as [->|N].
  - rewrite Ascii.eqb_refl. now destruct s.
  - symmetry. now apply Ascii.eqb_neq.
Qed.

Lemma split_char_free c s :
  Forall (fun f => occurs c f = false) (split (String c EmptyString) s).
Proof.
  unfold split. induction s as [|a s IH].
  - constructor; [reflexivity|constructor].
  - cbn [split_from]. rewrite prefix_char. cbn [String.length Nat.sub].
    destruct (Ascii.eqb c a) eqn:E.
    + constructor; [reflexivity|exact IH].
    + destruct (split_from (String c EmptyString) 0 s) as [|f fs].
      * constructor; [|constructor]. simpl. rewrite Ascii.eqb_sym, E. reflexivity.
      * inversion IH; subst. constructor; [|assumption].
        simpl. rewrite Ascii.eqb_sym, E. assumption.
Qed.

Lemma prefix_occurs d sep s :
  String.prefix sep s = true -> occurs d sep = true -> occurs d s = true.
Proof.
  revert sep. induction s as [|a s IH]; intros [|c sep]; simpl; try easy.
  destruct (ascii_dec c a) as [->|N]; [|easy].
  intros Hp Ho. apply orb_true_iff in Ho as [Ho|Ho].
  - rewrite Ho. reflexivity.
  - rewrite (IH _ Hp Ho). apply orb_true_r.
Qed.

Lemma split_absent d sep s :
  occurs d sep = true -> occurs d s = false -> split sep s = [s].
Proof.
  intros Hsep. unfold split. induction s as [|a s IH]; intros H; [reflexivity|].
  cbn [split_from].
  destruct (String.prefix sep (String a s)) eqn:P.
  - rewrite (prefix_occurs d _ _ P Hsep) in H. discriminate.
  - simpl in H. apply orb_false_iff in H as [_ H]. now rewrite (IH H).
Qed.

Lemma split_app_char c f rest :
  occurs c f = false ->
  split (String c EmptyString) (f +:+ String c rest)
  = f :: split (String c EmptyString) rest.
Proof.
  unfold split. induction f as [|a f IH]; intros H.
  - change (EmptyString +:+ String c rest) with (String c rest).
    cbn [split_from]. rewrite prefix_char, Ascii.eqb_refl. reflexivity.
  - simpl in H. apply orb_false_iff in H as [H1 H2].
    change (String a f +:+ String c rest) with (String a (f +:+ String c rest)).
    cbn [split_from]. rewrite prefix_char, Ascii.eqb_sym, H1, (IH H2). reflexivity.
Qed.

Lemma rstrip_app a b :
  is_empty (rstrip b) = false -> rstrip (a +:+ b) = a +:+ rstrip b.
Proof.
  intros H. induction a as [|c a IH]; [reflexivity|].
  change (String c a +:+ b) with (String c (a +:+ b)). cbn [rstrip].
  rewrite IH. destruct (a +:+ rstrip b) eqn:E.
  - destruct a; [|discriminate E]. change (rstrip b = EmptyString) in E.
    rewrite E in H. discriminate.
  - rewrite andb_false_r.
    change (String c a +:+ rstrip b) with (String c (a +:+ rstrip b)).
    rewrite E. reflexivity.
Qed.

(** dict.fromkeys *)

Lemma existsb_eqb_In k d : existsb (String.eqb k) d = true <-> In k d.
Proof.
  rewrite existsb_exists. split.
  - intros (x & Hx & E). apply String.eqb_eq in E. now subst.
  - intros H. exists k. split; [assumption|apply String.eqb_refl].
Qed.

Lemma dict_add_fresh d k : ~ In k d -> dict_add d k = (d ++ [k])%list.
Proof.
  intros H. unfold dict_add. destruct (existsb (String.eqb k) d) eqn:E; [|reflexivity].
  apply existsb_eqb_In in E. contradiction.
Qed.

Lemma fold_dict_add_nodup xs acc :
  List.NoDup (acc ++ xs) -> fold_left dict_add xs acc = (acc ++ xs)%list.
Proof.
  revert acc. induction xs as [|x xs IH]; intros acc H; simpl.
  - now rewrite app_nil_r.
  - rewrite dict_add_fresh.
    + rewrite IH; rewrite <- app_assoc; [reflexivity|exact H].
    + intros Hin. apply NoDup_remove_2 in H. apply H. apply in_or_app. now left.
Qed.

Lemma dict_add_spec acc x :
  List.NoDup acc ->
  List.NoDup (dict_add acc x)
  /\ (forall k, In k (dict_add acc x) <-> In k acc \/ x = k).
Proof.
  intros H. unfold dict_add. destruct (existsb (String.eqb x) acc) eqn:E.
  - apply existsb_eqb_In in E. split; [assumption|].
    intros k. split; [tauto|]. intros [?|<-]; assumption.
  - assert (N : ~ In x acc).
    { intros Hin. apply existsb_eqb_In in Hin. congruence. }
    split.
    + apply NoDup_rev in H. rewrite <- (rev_involutive (acc ++ [x])).
      apply NoDup_rev. rewrite rev_app_distr. simpl. constructor; [|assumption].
      now rewrite <- in_rev.
    + intros k. rewrite in_app_iff. simpl. tauto.
Qed.

Lemma fold_dict_add_spec xs acc :
  List.NoDup acc ->
  List.NoDup (fold_left dict_add xs acc)
  /\ (forall k, In k (fold_left dict_add xs acc) <-> In k acc \/ In k xs).
Proof.
  revert acc. induction xs as [|x xs IH]; intros acc H; simpl.
  - split; [assumption|]. intros k. tauto.
  - destruct (dict_add_spec acc x H) as [Hn Hi].
    destruct (IH _ Hn) as [Hn' Hi']. split; [assumption|].
    intros k. rewrite Hi', Hi. tauto.
Qed.

Lemma fromkeys_nodup xs : List.NoDup (fromkeys xs).
Proof. apply (fold_dict_add_spec xs []). constructor. Qed.

Lemma fromkeys_In xs k : In k (fromkeys xs) <-> In k xs.
Proof.
  destruct (fold_dict_add_spec xs [] (List.NoDup_nil string)) as [_ H].
  unfold fromkeys. rewrite H. simpl. tauto.
Qed.

Lemma fromkeys_id xs : List.NoDup xs -> fromkeys xs = xs.
Proof. intros H. unfold fromkeys. now rewrite fold_dict_add_nodup. Qed.

Lemma fromkeys_idem xs : fromkeys (fromkeys xs) = fromkeys xs.
Proof. apply fromkeys_id, fromkeys_nodup. Qed.

Lemma fromkeys_Forall (P : string -> Prop) xs :
  Forall P xs -> Forall P (fromkeys xs).
Proof.
  rewrite !List.Forall_forall. intros H k Hk. apply H. now apply fromkeys_In.
Qed.

End PyStrFacts.

Section SplitterFacts.
Import PyStr PyStrFacts.

Lemma in_split_pass sep vals f :
  In f (split_pass sep vals) <->
  exists val v, In val vals /\ In v (split sep val)
                /\ is_empty (strip v) = false /\ f = strip v.
Proof.
  unfold split_pass. rewrite in_flat_map. split.
  - intros (val & Hval & H). apply in_flat_map in H as (v & Hv & H).
    exists val, v. destruct (is_empty (strip v)) eqn:E; simpl in H; [easy|].
    destruct H as [<-|[]]. auto.
  - intros (val & v & Hval & Hv & E & ->). exists val. split; [assumption|].
    apply in_flat_map. exists v. split; [assumption|]. rewrite E. now left.
Qed.

Lemma split_pass_stripped sep vals :
  Forall (fun f => is_empty f = false /\ strip f = f) (split_pass sep vals).
Proof.
  apply List.Forall_forall. intros f Hf.
  apply in_split_pass in Hf as (val & v & _ & _ & E & ->).
  split; [exact E|apply strip_idem].
Qed.

Lemma split_pass_free d sep vals :
  Forall (fun f => occurs d f = false) vals ->
  Forall (fun f => occurs d f = false) (split_pass sep vals).
Proof.
  rewrite !List.Forall_forall. intros H f Hf.
  apply in_split_pass in Hf as (val & v & Hval & Hv & _ & ->).
  apply occurs_strip.
  pose proof (split_from_occurs d sep 0 val (H _ Hval)) as S.
  rewrite List.Forall_forall in S. now apply S.
Qed.

Lemma split_pass_char c vals :
  Forall (fun f => occurs c f = false) (split_pass (String c EmptyString) vals).
Proof.
  apply List.Forall_forall. intros f Hf.
  apply in_split_pass in Hf as (val & v & _ & Hv & _ & ->).
  apply occurs_strip.
  pose proof (split_char_free c val) as S.
  rewrite List.Forall_forall in S. now apply S.
Qed.

Lemma split_pass_id d sep fs :
  occurs d sep = true ->
  Forall (fun f => occurs d f = false /\ is_empty f = false /\ strip f = f) fs ->
  split_pass sep fs = fs.
Proof.
  intros Hsep. induction 1 as [|f fs (Hd & Hne & Hs) _ IH]; [reflexivity|].
  unfold split_pass in *. cbn [flat_map]. rewrite IH.
  rewrite (split_absent d sep f Hsep Hd). cbn [flat_map].
  rewrite Hs, Hne. reflexivity.
Qed.

Lemma fragment_pass sep fs :
  In sep separators_import -> Forall fragment fs -> split_pass sep fs = fs.
Proof.
  intros Hsep H.
  assert (exists d, occurs d sep = true /\
                    Forall (fun f => occurs d f = false) fs) as (d & Hd & Hf).
  { simpl in Hsep.
    destruct Hsep as [<-|[<-|[<-|[<-|[<-|[]]]]]];
      [exists ";"%char|exists ","%char|exists "|"%char|exists NL|exists NL];
      (split; [reflexivity|]);
      eapply List.Forall_impl; try exact H; unfold fragment; intros; tauto. }
  apply (split_pass_id d); [assumption|].
  rewrite List.Forall_forall in *. intros f Hin.
  specialize (H _ Hin). specialize (Hf _ Hin). unfold fragment in H. tauto.
Qed.

Lemma tail_fragments vals :
  Forall (fun f => occurs ";" f = false) vals ->
  Forall (fun f => occurs "," f = false) vals ->
  Forall fragment (split_pass CRLF (split_pass LF (split_pass "|" vals))).
Proof.
  intros Hsemi Hcomma.
  set (out := split_pass CRLF (split_pass LF (split_pass "|" vals))).
  assert (S : Forall (fun f => is_empty f = false /\ strip f = f) out)
    by apply split_pass_stripped.
  assert (A : Forall (fun f => occurs ";" f = false) out)
    by (repeat apply split_pass_free; assumption).
  assert (B : Forall (fun f => occurs "," f = false) out)
    by (repeat apply split_pass_free; assumption).
  assert (C : Forall (fun f => occurs "|" f = false) out)
    by (do 2 apply split_pass_free; apply (split_pass_char "|"%char)).
  assert (D : Forall (fun f => occurs NL f = false) out)
    by (apply split_pass_free; apply (split_pass_char NL)).
  rewrite List.Forall_forall in *. intros f Hf. unfold fragment.
  destruct (S _ Hf). auto 10.
Qed.

Lemma cascade_fragments seps cell :
  (seps = separators_import \/ seps = separators_read) ->
  Forall fragment (cascade seps cell).
Proof.
  intros [->| ->]; unfold cascade; cbn [fold_left separators_import separators_read];
    apply tail_fragments.
  - apply split_pass_free, (split_pass_char ";"%char).
  - apply (split_pass_char ","%char).
  - apply (split_pass_char ";"%char).
  - apply split_pass_free, (split_pass_char ","%char).
Qed.


Lemma join_cons_char c sep g rest :
  String c (join sep (g :: rest)) = join sep (String c g :: rest).
Proof. destruct rest; reflexivity. Qed.

Lemma join_occurs d fs :
  occurs d ", " = false ->
  Forall (fun f => occurs d f = false) fs ->
  occurs d (join ", " fs) = false.
Proof.
  intros Hd. induction 1 as [|f fs Hf _ IH]; [reflexivity|].
  destruct fs as [|g fs]; [exact Hf|].
  change (join ", " (f :: g :: fs)) with (f +:+ ", " +:+ join ", " (g :: fs)).
  rewrite !occurs_app, Hf, Hd, IH. reflexivity.
Qed.

Lemma join_rstrip fs :
  Forall fragment fs -> fs <> [] ->
  rstrip (join ", " fs) = join ", " fs /\ is_empty (join ", " fs) = false.
Proof.
  induction 1 as [|f fs Hf _ IH]; [easy|]. intros _.
  destruct Hf as (Hne & Hs & _).
  destruct (strip_fixed f Hs Hne) as (c & t & -> & Hc & Hr).
  destruct fs as [|g fs]; [split; [exact Hr|reflexivity]|].
  destruct IH as [IH1 IH2]; [easy|].
  change (join ", " (String c t :: g :: fs))
    with (String c t +:+ ", " +:+ join ", " (g :: fs)).
  split; [|reflexivity].
  assert (E : rstrip (", " +:+ join ", " (g :: fs))
              = ", " +:+ join ", " (g :: fs)).
  { rewrite rstrip_app; rewrite IH1; [reflexivity|exact IH2]. }
  rewrite rstrip_app; rewrite E; reflexivity.
Qed.

Lemma join_strip fs :
  Forall fragment fs -> fs <> [] ->
  strip (join ", " fs) = join ", " fs /\ is_empty (join ", " fs) = false.
Proof.
  intros H Hne. destruct (join_rstrip fs H Hne) as [Hr He]. split; [|exact He].
  unfold strip. destruct fs as [|f fs]; [easy|].
  inversion H as [|? ? (Hn & Hs & _) _]; subst.
  destruct (strip_fixed f Hs Hn) as (c & t & -> & Hc & _).
  assert (L : lstrip (join ", " (String c t :: fs)) = join ", " (String c t :: fs)).
  { rewrite <- join_cons_char. simpl. now rewrite Hc. }
  rewrite L. exact Hr.
Qed.

Lemma split_join_comma f rest :
  Forall (fun f => occurs "," f = false) (f :: rest) ->
  split "," (join ", " (f :: rest)) = f :: map (String " ") rest.
Proof.
  revert f. induction rest as [|g rest IH]; intros f H.
  - inversion H; subst. now apply (split_absent ","%char).
  - inversion H as [|? ? Hf Hrest]; subst.
    change (join ", " (f :: g :: rest))
      with (f +:+ String "," (String " " (join ", " (g :: rest)))).
    rewrite (split_app_char ","%char f _ Hf), join_cons_char, IH; [reflexivity|].
    inversion Hrest; subst. constructor; assumption.
Qed.

Lemma pass_join_comma fs :
  Forall fragment fs -> split_pass "," [join ", " fs] = fs.
Proof.
  intros H. destruct fs as [|f rest]; [reflexivity|].
  unfold split_pass. cbn [flat_map]. rewrite app_nil_r.
  rewrite split_join_comma.
  2:{ eapply List.Forall_impl; [|exact H]. unfold fragment. intros; tauto. }
  cbn [flat_map]. inversion H as [|? ? (Hn & Hs & _) Hrest]; subst.
  rewrite Hs, Hn. cbn [app]. f_equal.
  clear H Hn Hs. induction Hrest as [|g rest (Hn & Hs & _) _ IH]; [reflexivity|].
  cbn [map flat_map]. rewrite strip_space, Hs, Hn, IH. reflexivity.
Qed.

Lemma pass_join_other sep fs :
  In sep [";"; "|"; LF; CRLF] -> Forall fragment fs -> fs <> [] ->
  split_pass sep [join ", " fs] = [join ", " fs].
Proof.
  intros Hsep H Hne. destruct (join_strip fs H Hne) as [Hs He].
  assert (exists d, occurs d sep = true /\ occurs d (join ", " fs) = false)
    as (d & Hd & Hj).
  { simpl in Hsep.
    destruct Hsep as [<-|[<-|[<-|[<-|[]]]]];
      [exists ";"%char|exists "|"%char|exists NL|exists NL];
      (split; [reflexivity|]); (apply join_occurs; [reflexivity|]);
      (eapply List.Forall_impl; [|exact H]); unfold fragment; intros; tauto. }
  apply (split_pass_id d); [assumption|]. constructor; [auto|constructor].
Qed.

Lemma cascade_join seps fs :
  (seps = separators_import \/ seps = separators_read) ->
  Forall fragment fs -> fs <> [] ->
  cascade seps (join ", " fs) = fs.
Proof.
  intros Hs H Hne. unfold cascade.
  destruct Hs as [->| ->]; cbn [fold_left separators_import separators_read].
  - rewrite (pass_join_other ";"), pass_join_comma; simpl; auto.
    rewrite (fragment_pass "|" fs), (fragment_pass LF fs),
      (fragment_pass CRLF fs); simpl; auto 10.
  - rewrite pass_join_comma; auto.
    rewrite (fragment_pass ";" fs), (fragment_pass "|" fs),
      (fragment_pass LF fs), (fragment_pass CRLF fs); simpl; auto 10.
Qed.

Lemma split_values_join x :
  split_values (join ", " (split_values x)) = split_values x.
Proof.
  unfold split_values at 1.
  destruct (split_values x) as [|f fs] eqn:E; [reflexivity|].
  rewrite cascade_join; [| now left | | easy].
  - apply fromkeys_id. rewrite <- E. apply fromkeys_nodup.
  - rewrite <- E. apply fromkeys_Forall, cascade_fragments. now left.
Qed.

Lemma filter_all {A} (test : A -> bool) xs :
  Forall (fun x => test x = true) xs -> List.filter test xs = xs.
Proof.
  induction 1 as [|x xs Hx _ IH]; [reflexivity|]. cbn. now rewrite Hx, IH.
Qed.

Lemma emails_of_cell_join x :
  emails_of_cell (join ", " (emails_of_cell x)) = emails_of_cell x.
Proof.
  unfold emails_of_cell at 1.
  destruct (emails_of_cell x) as [|f fs] eqn:E; [reflexivity|].
  assert (Hv : Forall (fun e => valid_email e = true) (f :: fs)).
  { rewrite <- E. apply List.Forall_forall. intros e He.
    apply fromkeys_In, filter_In in He. tauto. }
  assert (Hf : Forall fragment (f :: fs)).
  { rewrite <- E. unfold emails_of_cell. apply fromkeys_Forall.
    apply List.Forall_forall. intros e He. apply filter_In in He as [He _].
    pose proof (cascade_fragments separators_read x (or_intror eq_refl)) as C.
    rewrite List.Forall_forall in C. now apply C. }
  rewrite cascade_join; [|now right|exact Hf|easy].
  rewrite (filter_all _ _ Hv). apply fromkeys_id.
  rewrite <- E. apply fromkeys_nodup.
Qed.

End SplitterFacts.

(** C4. The Value Splitter is idempotent: splitting the ", "-join of a
    split gives the same list again, for every input, with either order
    of the separator cascade (the one of the import and the one of the
    e-mail extraction); the list has no duplicates, and the empty input
    gives the empty list. *)
Theorem value_splitter_idempotent :
  (forall x, split_values (PyStr.join ", " (split_values x)) = split_values x)
  /\ (forall x, emails_of_cell (PyStr.join ", " (emails_of_cell x))
                = emails_of_cell x)
  /\ (forall x, List.NoDup (split_values x))
  /\ split_values "" = []
  /\ emails_of_cell "" = [].
Proof.
  split; [exact split_values_join|]. split; [exact emails_of_cell_join|].
  split; [intros x; apply PyStrFacts.fromkeys_nodup|]. split; reflexivity.
Qed.

(** ** Running the computations *)

Section Running.

Variable pf : Platform.

Lemma bind_return {A B} (m : M A) (k : A -> M B) w a w' :
  m w = (Return a, w') -> bind m k w = k a w'.
Proof. intros H. unfold bind. now rewrite H. Qed.

Lemma bind_raise {A B} (m : M A) (k : A -> M B) w e w' :
  m w = (Raise e, w') -> bind m k w = (Raise e, w').
Proof. intros H. unfold bind. now rewrite H. Qed.

Lemma store_inv w d :
  store w = Some d ->
  exists l, leads_df (self w) = Some l /\ frames w !! l = Some d.
Proof.
  unfold store. destruct (leads_df (self w)) as [l|]; [|easy].
  intros H. now exists l.
Qed.

Lemma has_data_eval w l d :
  leads_df (self w) = Some l -> frames w !! l = Some d ->
  has_data w = (Return (negb (Frame.empty d)), w).
Proof.
  intros Hl Hd. unfold has_data, bind, get_self, read_frame, ret.
  now rewrite Hl, Hd.
Qed.

Lemma the_leads_eval w l :
  leads_df (self w) = Some l -> the_leads w = (Return l, w).
Proof.
  intros Hl. unfold the_leads, bind, get_self, lift_opt. now rewrite Hl.
Qed.

Lemma read_frame_eval w l d :
  frames w !! l = Some d -> read_frame l w = (Return d, w).
Proof. intros Hd. unfold read_frame. now rewrite Hd. Qed.

Lemma modify_frame_eval w l d f :
  frames w !! l = Some d ->
  modify_frame l f w = (Return tt, put_frame l (f d) w).
Proof. intros Hd. unfold modify_frame. now rewrite Hd. Qed.

Lemma put_frame_lookup l d w : frames (put_frame l d w) !! l = Some d.
Proof. apply lookup_insert_eq. Qed.

Lemma put_frame_self l d w : self (put_frame l d w) = self w.
Proof. reflexivity. Qed.

Lemma put_frame_put l d d' w :
  put_frame l d' (put_frame l d w) = put_frame l d' w.
Proof. unfold put_frame. cbn. now rewrite insert_insert_eq. Qed.

Lemma put_frame_store l d w :
  leads_df (self w) = Some l -> store (put_frame l d w) = Some d.
Proof. intros H. unfold store. cbn. rewrite H. apply lookup_insert_eq. Qed.

(** Saving writes the gateway only, and never fails the caller. *)
Lemma save_to_database_eval w :
  exists b,
    save_to_database pf w
    = (Return tt, {| frames := frames w; self := self w; db := b |}).
Proof.
  unfold save_to_database, try_except, bind, has_data, get_self, the_leads,
    lift_opt, read_frame, save_leads_data, bind, get_db, set_db, ret, raise.
  destruct w as [fr [ldf cm oc] b]; cbn.
  destruct ldf as [l|]; cbn; [|eauto].
  destruct (fr !! l) as [d|] eqn:E; cbn; [|eauto].
  destruct (Frame.empty d); cbn; eauto.
  rewrite E. destruct (to_json pf d); cbn; eauto.
Qed.

(** The log after [update_lead_field]. *)
Lemma update_lead_field_eval i f o n w :
  update_lead_field pf i f o n w
  = (Return tt,
     {| frames := frames w; self := self w;
        db := {| leads_table := leads_table (db w);
                 lead_updates :=
                   logged i (change pf i f o n) (lead_updates (db w)) |} |}).
Proof.
  unfold update_lead_field, logged. destruct (in_int64 i); [reflexivity|].
  unfold ret. now destruct w as [fr s [t u]].
Qed.

Lemma bind_has_data {B} (k : bool -> M B) w l d :
  leads_df (self w) = Some l -> frames w !! l = Some d ->
  bind has_data k w = k (negb (Frame.empty d)) w.
Proof. intros. apply bind_return. eapply has_data_eval; eassumption. Qed.

Lemma bind_the_leads {B} (k : loc -> M B) w l :
  leads_df (self w) = Some l -> bind the_leads k w = k l w.
Proof. intros. apply bind_return. now apply the_leads_eval. Qed.

Lemma bind_get_self {B} (k : LeadManager -> M B) w :
  bind get_self k w = k (self w) w.
Proof. reflexivity. Qed.

Lemma bind_read_frame {B} (k : DataFrame -> M B) w l d :
  frames w !! l = Some d -> bind (read_frame l) k w = k d w.
Proof. intros. apply bind_return. now apply read_frame_eval. Qed.

Lemma bind_modify_frame {B} (k : unit -> M B) w l d f :
  frames w !! l = Some d ->
  bind (modify_frame l f) k w = k tt (put_frame l (f d) w).
Proof. intros. apply bind_return. now apply modify_frame_eval. Qed.

Lemma bind_update_lead_field {B} (k : unit -> M B) i f o n w :
  bind (update_lead_field pf i f o n) k w
  = k tt {| frames := frames w; self := self w;
            db := {| leads_table := leads_table (db w);
                     lead_updates :=
                       logged i (change pf i f o n)
                         (lead_updates (db w)) |} |}.
Proof. unfold bind at 1. now rewrite update_lead_field_eval. Qed.

Lemma bind_set_self {B} (k : unit -> M B) s w :
  bind (set_self s) k w
  = k tt {| frames := frames w; self := s; db := db w |}.
Proof. reflexivity. Qed.

Lemma bind_ret {A B} (a : A) (k : A -> M B) w : bind (ret a) k w = k a w.
Proof. reflexivity. Qed.

Lemma bind_assoc {A B C} (m : M A) (f : A -> M B) (k : B -> M C) w :
  bind (bind m f) k w = bind m (fun x => bind (f x) k) w.
Proof. unfold bind. destruct (m w) as [[a|e] w']; reflexivity. Qed.

(** An option known to be [Some] by evaluation is [Some] of its default
    projection. *)
Lemma some_default {A} (a : A) (o : option A) :
  match o with Some _ => true | None => false end = true ->
  o = Some (default a o).
Proof. now destruct o. Qed.

Lemma the_store_some w :
  match store w with Some _ => true | None => false end = true ->
  store w = Some (the_store w).
Proof. apply some_default. Qed.

Lemma hd_In {A} (a : A) (xs : list A) :
  match xs with [] => false | _ => true end = true -> In (hd a xs) xs.
Proof. destruct xs; [discriminate|now left]. Qed.

Lemma alloc_above (m : gmap positive DataFrame) :
  forall l d, m !! l = Some d ->
    (l < map_fold (fun l _ top => Pos.max (Pos.succ l) top) 1 m)%positive.
Proof.
  apply (map_fold_weak_ind
           (fun top (m : gmap positive DataFrame) =>
              forall l d, m !! l = Some d -> (l < top)%positive)).
  - intros l d E. rewrite lookup_empty in E. discriminate.
  - intros i x m0 top Hi IH l d E.
    destruct (decide (l = i)) as [->|Hne].
    + lia.
    + rewrite lookup_insert_ne in E by congruence.
      specialize (IH l d E). lia.
Qed.

Lemma alloc_fresh w : frames w !! alloc w = None.
Proof.
  destruct (frames w !! alloc w) as [d|] eqn:E; [|reflexivity].
  apply alloc_above in E. unfold alloc in E. lia.
Qed.

Lemma bind_new_frame {B} (k : loc -> M B) d w :
  bind (new_frame d) k w = k (alloc w) (put_frame (alloc w) d w).
Proof. reflexivity. Qed.

Lemma lookup_alloc_old w l d d' :
  frames w !! l = Some d -> <[alloc w := d']> (frames w) !! l = Some d.
Proof.
  intros H. rewrite lookup_insert_ne; [exact H|].
  intros E. subst l. rewrite alloc_fresh in H. discriminate.
Qed.

End Running.

(** Stepping through a computation, one [bind] at a time. *)
Ltac lookup_now :=
  cbn [frames self put_frame];
  first [ eassumption
        | apply lookup_insert_eq
        | apply lookup_alloc_old; lookup_now ].

Ltac mstep :=
  first
    [ rewrite bind_assoc
    | rewrite bind_get_self
    | rewrite bind_ret
    | rewrite bind_update_lead_field
    | rewrite bind_new_frame
    | rewrite bind_set_self
    | erewrite bind_has_data by lookup_now
    | erewrite bind_the_leads by lookup_now
    | erewrite bind_read_frame by lookup_now
    | erewrite bind_modify_frame by lookup_now ];
  cbn beta iota.

Ltac msave :=
  match goal with |- context [save_to_database ?p0 ?w0] =>
    let b := fresh "b" in
    destruct (save_to_database_eval p0 w0) as [b ->] end.

(** ** Facts about frames *)

Module FrameFacts.
Import Frame.

Lemma has_column_In col d : has_column col d = true <-> In col (columns d).
Proof.
  unfold has_column. rewrite bool_decide_eq_true. apply list_elem_of_In.
Qed.

Lemma has_label_In idx d : has_label idx d = true <-> In idx (index d).
Proof.
  unfold has_label. rewrite bool_decide_eq_true. apply list_elem_of_In.
Qed.

Lemma add_column_has col cols : In col (add_column col cols).
Proof.
  unfold add_column. case_bool_decide as H.
  - now apply list_elem_of_In.
  - apply in_or_app. right. now left.
Qed.

Lemma add_column_keeps col c cols : In c cols -> In c (add_column col cols).
Proof.
  unfold add_column. case_bool_decide as N; [easy|].
  intros Hin. apply in_or_app. now left.
Qed.

Lemma add_column_present col cols : In col cols -> add_column col cols = cols.
Proof.
  intros H. unfold add_column. case_bool_decide as N; [reflexivity|].
  destruct N. now apply list_elem_of_In.
Qed.

Lemma add_column_only col c cols :
  In c (add_column col cols) -> c = col \/ In c cols.
Proof.
  unfold add_column. case_bool_decide as N; [now right|].
  intros Hin. apply in_app_or in Hin as [Hin|[Hin|[]]]; auto.
Qed.

Lemma set_loc_columns idx col v d c :
  has_column c d = true -> has_column c (set_loc idx col v d) = true.
Proof. rewrite !has_column_In. apply add_column_keeps. Qed.

Lemma set_loc_has_column idx col v d :
  has_column col (set_loc idx col v d) = true.
Proof. apply has_column_In, add_column_has. Qed.

Lemma set_loc_index idx col v d :
  has_label idx d = true -> index (set_loc idx col v d) = index d.
Proof.
  intros H. unfold index, set_loc. cbn. rewrite H. rewrite map_map.
  apply map_ext. intros [i r]. now case_bool_decide.
Qed.

Lemma set_loc_index_new idx col v d :
  has_label idx d = false ->
  index (set_loc idx col v d) = (index d ++ [idx])%list.
Proof.
  intros H. unfold index, set_loc. cbn. rewrite H. now rewrite map_app.
Qed.

Lemma set_loc_has_label idx col v d : has_label idx (set_loc idx col v d) = true.
Proof.
  destruct (has_label idx d) eqn:H; apply has_label_In.
  - rewrite set_loc_index by assumption. now apply has_label_In.
  - rewrite set_loc_index_new by assumption. apply in_or_app. right. now left.
Qed.

Lemma set_loc_keeps_label idx col v d i :
  has_label i d = true -> has_label i (set_loc idx col v d) = true.
Proof.
  intros H. destruct (has_label idx d) eqn:E; apply has_label_In.
  - rewrite set_loc_index by assumption. now apply has_label_In.
  - rewrite set_loc_index_new by assumption. apply in_or_app. left.
    now apply has_label_In.
Qed.

Lemma set_loc_nonempty idx col v d : empty (set_loc idx col v d) = false.
Proof.
  unfold empty.
  pose proof (add_column_has col (columns d)) as C.
  pose proof (set_loc_has_label idx col v d) as L. apply has_label_In in L.
  unfold index in L. cbn [columns set_loc] in *.
  destruct (add_column col (columns d)); [easy|].
  destruct (rows (set_loc idx col v d)) eqn:E; [easy|reflexivity].
Qed.

(** The rows labelled [idx] after a write. *)
Lemma set_loc_lookup idx col v d r :
  In (idx, r) (rows (set_loc idx col v d)) -> r !! col = Some v.
Proof.
  unfold set_loc. cbn. destruct (has_label idx d) eqn:L.
  - rewrite in_map_iff. intros ([i r0] & E & _). revert E.
    case_bool_decide as N; intros E; inversion E; subst; [|congruence].
    now rewrite lookup_insert_eq.
  - rewrite in_app_iff. intros [H|[E|[]]].
    + assert (has_label idx d = true); [|congruence].
      apply has_label_In. unfold index. apply in_map_iff. now exists (idx, r).
    + inversion E; subst. now rewrite lookup_singleton_eq.
Qed.

Lemma set_loc_row idx col v d r :
  In (idx, r) (rows (set_loc idx col v d)) -> cell r col = v.
Proof. intros H. unfold cell. now rewrite (set_loc_lookup _ _ _ _ _ H). Qed.

(** A write leaves the other columns of every row as they were. *)
Lemma set_loc_other_lookup idx col v d i r c :
  has_label idx d = true -> c <> col ->
  In (i, r) (rows (set_loc idx col v d)) ->
  exists r0, In (i, r0) (rows d) /\ r !! c = r0 !! c.
Proof.
  intros L Hc. unfold set_loc. cbn. rewrite L.
  rewrite in_map_iff. intros ([i0 r0] & E & Hin). exists r0. revert E.
  case_bool_decide as N; intros E; inversion E; subst;
    (split; [assumption|]); [|reflexivity].
  now rewrite lookup_insert_ne.
Qed.

Lemma set_loc_other idx col v d i r c :
  has_label idx d = true -> c <> col ->
  In (i, r) (rows (set_loc idx col v d)) ->
  exists r0, In (i, r0) (rows d) /\ cell r c = cell r0 c.
Proof.
  intros L Hc H.
  destruct (set_loc_other_lookup idx col v d i r c L Hc H) as (r0 & H0 & E).
  exists r0. split; [exact H0|]. unfold cell. now rewrite E.
Qed.

(** Writing what is already there changes nothing. *)
Lemma set_loc_same idx col v d :
  has_label idx d = true -> In col (columns d) ->
  (forall r, In (idx, r) (rows d) -> r !! col = Some v) ->
  set_loc idx col v d = d.
Proof.
  intros L Hc Hr. unfold set_loc. rewrite L, add_column_present by exact Hc.
  destruct d as [cols dts rs]. cbn in *. f_equal.
  rewrite <- (map_id rs) at 2. apply map_ext_in. intros [i r] Hin.
  case_bool_decide as N; [|reflexivity]. subst i.
  now rewrite insert_id by auto.
Qed.

Lemma set_loc_other_values idx col v d c :
  has_label idx d = true -> c <> col ->
  map (fun x => cell (snd x) c) (rows (set_loc idx col v d))
  = map (fun x => cell (snd x) c) (rows d).
Proof.
  intros L Hc. unfold set_loc. cbn. rewrite L, map_map.
  apply map_ext. intros [i r]. case_bool_decide; cbn; [|reflexivity].
  unfold cell. now rewrite lookup_insert_ne.
Qed.

Lemma find_row_In idx rs r : find_row idx rs = Some r -> In (idx, r) rs.
Proof.
  induction rs as [|[i r0] rs IH]; cbn; [easy|].
  case_bool_decide as N; [intros [= <-]; subst; now left|].
  intros H. right. now apply IH.
Qed.

Lemma find_row_label idx rs :
  In idx (map fst rs) -> exists r, find_row idx rs = Some r.
Proof.
  induction rs as [|[i r0] rs IH]; cbn; [easy|].
  case_bool_decide as N; [eauto|]. intros [E|H]; [congruence|now apply IH].
Qed.

Lemma find_row_none idx rs : ~ In idx (map fst rs) -> find_row idx rs = None.
Proof.
  induction rs as [|[i r0] rs IH]; cbn; [easy|].
  intros H. case_bool_decide as N; [tauto|]. apply IH. tauto.
Qed.

End FrameFacts.

(** ** What the mutations write *)

Section Mutations.
Import FrameFacts.

Variable pf : Platform.

Lemma old_cell_eval d idx col w :
  (Frame.has_label idx d = true -> Frame.has_column col d = true) ->
  exists v, old_cell d idx col w = (Return v, w).
Proof.
  intros H. unfold old_cell. destruct (Frame.has_label idx d) eqn:L; [|now eexists].
  unfold get_loc. apply has_label_In, find_row_label in L as [r ->].
  rewrite H by reflexivity. now eexists.
Qed.

Lemma mutated_store w l d' w' :
  leads_df (self w) = Some l -> mutated w l d' w' -> store w' = Some d'.
Proof.
  intros Hl [Hf Hs]. unfold store. rewrite Hs, Hl, Hf. apply lookup_insert_eq.
Qed.

Lemma schedule_followup_eval w l d lead_idx date :
  leads_df (self w) = Some l -> frames w !! l = Some d ->
  Frame.empty d = false ->
  (Frame.has_label lead_idx d = true ->
   Frame.has_column "follow_up_date" d = true) ->
  exists w',
    schedule_followup pf lead_idx date w = (Return tt, w')
    /\ mutated w l
         (Frame.set_loc lead_idx "follow_up_completed" (VBool false)
            (Frame.set_loc lead_idx "follow_up_date" (VTime date) d)) w'.
Proof.
  intros Hl Hd He Hc. unfold schedule_followup.
  mstep. rewrite He. cbn [negb]. mstep. mstep.
  destruct (old_cell_eval d lead_idx "follow_up_date" w Hc) as [v Hv].
  rewrite (bind_return _ _ _ _ _ Hv). do 3 mstep.
  match goal with |- context [save_to_database ?p0 ?w0] =>
    destruct (save_to_database_eval p0 w0) as [b ->] end.
  eexists. split; [reflexivity|]. split; [|reflexivity].
  cbn. now rewrite insert_insert_eq.
Qed.


Lemma update_lead_priority_eval w l d lead_idx new_priority :
  leads_df (self w) = Some l -> frames w !! l = Some d ->
  Frame.empty d = false ->
  (Frame.has_label lead_idx d = true ->
   Frame.has_column "priority" d = true) ->
  exists w',
    update_lead_priority pf lead_idx new_priority w = (Return tt, w')
    /\ mutated w l
         (Frame.set_loc lead_idx "priority" (VStr new_priority) d) w'.
Proof.
  intros Hl Hd He Hc. unfold update_lead_priority.
  mstep. rewrite He. cbn [negb]. mstep. mstep.
  destruct (old_cell_eval d lead_idx "priority" w Hc) as [v Hv].
  rewrite (bind_return _ _ _ _ _ Hv). do 2 mstep. msave.
  eexists. split; [reflexivity|]. split; reflexivity.
Qed.

Lemma complete_followup_eval w l d now lead_idx :
  leads_df (self w) = Some l -> frames w !! l = Some d ->
  Frame.empty d = false ->
  exists w',
    complete_followup pf now lead_idx w = (Return tt, w')
    /\ mutated w l
         (Frame.set_loc lead_idx "last_contact" (VStr (strftime_date pf now))
            (Frame.set_loc lead_idx "follow_up_completed" (VBool true) d)) w'.
Proof.
  intros Hl Hd He. unfold complete_followup.
  mstep. rewrite He. cbn [negb]. do 4 mstep. msave.
  eexists. split; [reflexivity|]. split; [|reflexivity].
  cbn. now rewrite insert_insert_eq.
Qed.

Lemma ensure_column_has m name fill d :
  Frame.has_column (target_column m name d) (ensure_column m name fill d) = true.
Proof.
  unfold target_column, ensure_column.
  destruct (Frame.has_column (get_default m name name) d) eqn:E; [exact E|].
  apply has_column_In. cbn. apply add_column_has.
Qed.

Lemma ensure_column_index m name fill d :
  Frame.index (ensure_column m name fill d) = Frame.index d.
Proof.
  unfold ensure_column. destruct (Frame.has_column _ d); [reflexivity|].
  unfold Frame.index. cbn. rewrite map_map. apply map_ext. now intros [i r].
Qed.

Lemma update_lead_status_eval w l d now lead_idx new_status :
  leads_df (self w) = Some l -> frames w !! l = Some d ->
  Frame.empty d = false ->
  let m := column_mapping (self w) in
  exists w',
    update_lead_status pf now lead_idx new_status w = (Return tt, w')
    /\ mutated w l
         (Frame.set_loc lead_idx "last_contact" (VStr (strftime_date pf now))
            (Frame.set_loc lead_idx (target_column m "status" d)
               (VStr new_status) (ensure_column m "status" VNone d))) w'.
Proof.
  intros Hl Hd He m. unfold update_lead_status.
  mstep. rewrite He. cbn [negb]. do 3 mstep.
  pose proof (ensure_column_has m "status" VNone d) as Hc.
  pose proof (ensure_column_index m "status" VNone d) as Hi.
  unfold target_column, ensure_column in *. fold m.
  destruct (Frame.has_column (get_default m "status" "status") d) eqn:E;
    cbn [negb].
  - do 2 mstep.
    destruct (old_cell_eval d lead_idx _ w (fun _ => Hc)) as [v Hv].
    rewrite (bind_return _ _ _ _ _ Hv). do 3 mstep. msave.
    eexists. split; [reflexivity|]. split; [|reflexivity].
    cbn. now rewrite insert_insert_eq.
  - do 4 mstep.
    match goal with |- context [bind (old_cell ?d1 ?i ?c) _ ?w1] =>
      destruct (old_cell_eval d1 i c w1 (fun _ => Hc)) as [v Hv] end.
    rewrite (bind_return _ _ _ _ _ Hv). do 3 mstep. msave.
    eexists. split; [reflexivity|]. split; [|reflexivity].
    cbn. now rewrite !insert_insert_eq.
Qed.


Lemma add_note_eval w l d now lead_idx note r :
  leads_df (self w) = Some l -> frames w !! l = Some d ->
  Frame.empty d = false ->
  PyStr.is_empty (PyStr.strip note) = false ->
  let m := column_mapping (self w) in
  let d1 := ensure_column m "notes" (VStr "") d in
  let col := target_column m "notes" d in
  Frame.find_row lead_idx (rows d1) = Some r ->
  exists w',
    add_note pf now lead_idx note w = (Return tt, w')
    /\ mutated w l
         (Frame.set_loc lead_idx col
            (VStr (stamped_note pf now (Frame.cell r col) note)) d1) w'.
Proof.
  intros Hl Hd He Hn m d1 col Hr. unfold add_note.
  mstep. rewrite He, Hn. cbn [negb orb]. do 3 mstep.
  pose proof (ensure_column_has m "notes" (VStr "") d) as Hc.
  subst d1 col. unfold target_column, ensure_column in *. fold m.
  destruct (Frame.has_column (get_default m "notes" "notes") d) eqn:E;
    cbn [negb].
  - do 2 mstep. unfold get_loc at 1. rewrite Hr, Hc. do 3 mstep. msave.
    eexists. split; [reflexivity|]. split; reflexivity.
  - do 4 mstep. unfold get_loc at 1. rewrite Hr, Hc. do 3 mstep. msave.
    eexists. split; [reflexivity|]. split; [|reflexivity].
    cbn. now rewrite !insert_insert_eq.
Qed.

(** A label that is not in the index: the read of the current note
    fails, after the notes column has been ensured. *)
Lemma add_note_missing w l d now lead_idx note :
  leads_df (self w) = Some l -> frames w !! l = Some d ->
  Frame.empty d = false ->
  PyStr.is_empty (PyStr.strip note) = false ->
  Frame.has_label lead_idx d = false ->
  exists w',
    add_note pf now lead_idx note w = (Raise (LabelError lead_idx), w')
    /\ self w' = self w /\ db w' = db w
    /\ store w'
       = Some (ensure_column (column_mapping (self w)) "notes" (VStr "") d).
Proof.
  intros Hl Hd He Hn Hlab. unfold add_note.
  mstep. rewrite He, Hn. cbn [negb orb]. do 3 mstep.
  assert (Hi : ~ In lead_idx (Frame.index d)).
  { intros H. apply has_label_In in H. congruence. }
  pose proof (ensure_column_index (column_mapping (self w)) "notes" (VStr "") d)
    as Hx.
  unfold ensure_column in *.
  destruct (Frame.has_column _ d) eqn:E; cbn [negb].
  - do 2 mstep. unfold get_loc at 1. rewrite find_row_none by exact Hi.
    unfold bind, raise. eexists. split; [reflexivity|].
    repeat split. unfold store. now rewrite Hl.
  - do 4 mstep. unfold get_loc at 1.
    rewrite find_row_none by (fold (Frame.index (Frame.assign_scalar "notes" (VStr "") d)); now rewrite Hx).
    unfold bind, raise. eexists. split; [reflexivity|].
    repeat split. now apply put_frame_store.
Qed.

(** Without data every mutation returns at once. *)
Lemma has_data_false_eval w :
  (forall l d, leads_df (self w) = Some l -> frames w !! l = Some d ->
               Frame.empty d = true) ->
  (forall l, leads_df (self w) = Some l -> is_Some (frames w !! l)) ->
  has_data w = (Return false, w).
Proof.
  intros He Hs. unfold has_data, bind, get_self, read_frame, ret.
  destruct (leads_df (self w)) as [l|] eqn:Hl; [|reflexivity].
  destruct (Hs l eq_refl) as [d Hd]. rewrite Hd, (He l d eq_refl Hd). reflexivity.
Qed.

End Mutations.

Section MutationClaims.
Import FrameFacts.

Variable pf : Platform.

Lemma normalized_columns d c :
  normalized d = true -> In c management_columns ->
  Frame.has_column c d = true.
Proof.
  unfold normalized. rewrite forallb_forall. auto.
Qed.

Lemma normalized_nonempty d idx :
  normalized d = true -> Frame.has_label idx d = true ->
  Frame.empty d = false.
Proof.
  intros Hn Hl. unfold Frame.empty.
  pose proof (normalized_columns d "priority" Hn) as Hp.
  apply has_column_In in Hp; [|simpl; auto].
  apply has_label_In in Hl. unfold Frame.index in Hl.
  destruct (columns d); [easy|]. destruct (rows d); [easy|reflexivity].
Qed.

Lemma get_loc_eval d idx col r w :
  Frame.find_row idx (rows d) = Some r -> Frame.has_column col d = true ->
  get_loc d idx col w = (Return (Frame.cell r col), w).
Proof. intros Hr Hc. unfold get_loc. now rewrite Hr, Hc. Qed.

(** C7. For every record id present in the store and every date,
    [schedule_followup(id, date)] returns normally and leaves the record
    with [follow_up_date = date] and [follow_up_completed = False],
    whatever the flag was before; no record is added or removed. *)
Theorem schedule_followup_reopens w d lead_idx date :
  store w = Some d -> normalized d = true ->
  Frame.has_label lead_idx d = true ->
  exists w' d',
    schedule_followup pf lead_idx date w = (Return tt, w')
    /\ store w' = Some d'
    /\ Frame.index d' = Frame.index d
    /\ get_loc d' lead_idx "follow_up_date" w' = (Return (VTime date), w')
    /\ get_loc d' lead_idx "follow_up_completed" w'
       = (Return (VBool false), w')
    /\ (forall r, In (lead_idx, r) (rows d') ->
                  Frame.cell r "follow_up_date" = VTime date
                  /\ Frame.cell r "follow_up_completed" = VBool false).
Proof.
  intros Hs Hn Hl. destruct (store_inv w d Hs) as (l & Hself & Hd).
  destruct (schedule_followup_eval pf w l d lead_idx date Hself Hd) as (w' & Hrun & Hm).
  { now apply (normalized_nonempty d lead_idx). }
  { intros _. apply normalized_columns; [assumption|simpl; auto]. }
  set (d1 := Frame.set_loc lead_idx "follow_up_date" (VTime date) d) in *.
  set (d' := Frame.set_loc lead_idx "follow_up_completed" (VBool false) d1) in *.
  assert (L1 : Frame.has_label lead_idx d1 = true) by apply set_loc_has_label.
  assert (Hrows : forall r, In (lead_idx, r) (rows d') ->
                  Frame.cell r "follow_up_date" = VTime date
                  /\ Frame.cell r "follow_up_completed" = VBool false).
  { intros r Hr. split; [|now apply (set_loc_row lead_idx _ _ d1)].
    destruct (set_loc_other lead_idx "follow_up_completed" (VBool false) d1
                lead_idx r "follow_up_date" L1) as (r0 & Hr0 & ->);
      [easy|exact Hr|].
    now apply (set_loc_row lead_idx _ _ d). }
  assert (Hi : Frame.index d' = Frame.index d).
  { unfold d'. rewrite set_loc_index by exact L1. now apply set_loc_index. }
  destruct (find_row_label lead_idx (rows d')) as [r Hr].
  { fold (Frame.index d'). rewrite Hi. now apply has_label_In. }
  destruct (Hrows r (find_row_In _ _ _ Hr)) as [C1 C2].
  exists w', d'. split; [exact Hrun|]. split; [eapply mutated_store; eassumption|].
  split; [exact Hi|]. split; [|split; [|exact Hrows]].
  - rewrite <- C1. apply get_loc_eval; [exact Hr|].
    apply set_loc_columns, set_loc_has_column.
  - rewrite <- C2. apply get_loc_eval; [exact Hr|]. apply set_loc_has_column.
Qed.


Lemma set_loc_twice_index_new idx c1 v1 c2 v2 d :
  Frame.has_label idx d = false ->
  Frame.index (Frame.set_loc idx c2 v2 (Frame.set_loc idx c1 v1 d))
  = (Frame.index d ++ [idx])%list.
Proof.
  intros H. rewrite set_loc_index by apply set_loc_has_label.
  now apply set_loc_index_new.
Qed.

(** C2 (what the code does). For a lead identifier that is not in the
    index of a non-empty store, the four assignments through [.loc]
    enlarge the table by a new record carrying that identifier, and
    [add_note] raises on its read of the current note. *)
Theorem missing_id_mutations_enlarge w d now lead_idx text date :
  store w = Some d -> normalized d = true -> Frame.empty d = false ->
  Frame.has_label lead_idx d = false ->
  PyStr.is_empty (PyStr.strip text) = false ->
  (exists w' d', update_lead_status pf now lead_idx text w = (Return tt, w')
     /\ store w' = Some d'
     /\ Frame.index d' = (Frame.index d ++ [lead_idx])%list)
  /\ (exists w' d', update_lead_priority pf lead_idx text w = (Return tt, w')
     /\ store w' = Some d'
     /\ Frame.index d' = (Frame.index d ++ [lead_idx])%list)
  /\ (exists w' d', schedule_followup pf lead_idx date w = (Return tt, w')
     /\ store w' = Some d'
     /\ Frame.index d' = (Frame.index d ++ [lead_idx])%list)
  /\ (exists w' d', complete_followup pf now lead_idx w = (Return tt, w')
     /\ store w' = Some d'
     /\ Frame.index d' = (Frame.index d ++ [lead_idx])%list)
  /\ (exists w', add_note pf now lead_idx text w
                 = (Raise (LabelError lead_idx), w')).
Proof.
  intros Hs Hn He Hl Ht. destruct (store_inv w d Hs) as (l & Hself & Hd).
  assert (Hno : forall c, Frame.has_label lead_idx d = true ->
                          Frame.has_column c d = true) by congruence.
  repeat split.
  - destruct (update_lead_status_eval pf w l d now lead_idx text Hself Hd He)
      as (w' & Hrun & Hm).
    eexists w', _. split; [exact Hrun|].
    split; [eapply mutated_store; eassumption|].
    rewrite set_loc_twice_index_new.
    { now rewrite ensure_column_index. }
    apply not_true_is_false. intros H. apply has_label_In in H.
    rewrite ensure_column_index in H. apply has_label_In in H. congruence.
  - destruct (update_lead_priority_eval pf w l d lead_idx text Hself Hd He
                (Hno _)) as (w' & Hrun & Hm).
    eexists w', _. split; [exact Hrun|].
    split; [eapply mutated_store; eassumption|]. now apply set_loc_index_new.
  - destruct (schedule_followup_eval pf w l d lead_idx date Hself Hd He
                (Hno _)) as (w' & Hrun & Hm).
    eexists w', _. split; [exact Hrun|].
    split; [eapply mutated_store; eassumption|].
    now apply set_loc_twice_index_new.
  - destruct (complete_followup_eval pf w l d now lead_idx Hself Hd He)
      as (w' & Hrun & Hm).
    eexists w', _. split; [exact Hrun|].
    split; [eapply mutated_store; eassumption|].
    now apply set_loc_twice_index_new.
  - destruct (add_note_missing pf w l d now lead_idx text Hself Hd He Ht Hl)
      as (w' & Hrun & _). now exists w'.
Qed.

End MutationClaims.

(** ** Allocation, sorting and the views *)

Section Views.
Import FrameFacts.

Variable pf : Platform.

Lemma insert_row_In le x y rs :
  In y (Frame.insert_row le x rs) <-> y = x \/ In y rs.
Proof.
  induction rs as [|z rs IH]; cbn; [intuition|].
  destruct (le (snd x) (snd z)); cbn; [intuition|]. rewrite IH. intuition.
Qed.

Lemma sort_rows_In le y rs : In y (Frame.sort_rows le rs) <-> In y rs.
Proof.
  induction rs as [|x rs IH]; cbn; [reflexivity|].
  rewrite insert_row_In, IH. intuition.
Qed.

Lemma comparable_spec vs :
  comparable vs = true <->
  (forall u v, In u vs -> In v vs -> notna u = true -> notna v = true ->
               kind u = kind v).
Proof.
  unfold comparable. destruct (List.filter notna vs) as [|a rest] eqn:E.
  - split; [|reflexivity]. intros _ u v Hu _ Nu _.
    assert (In u (List.filter notna vs)) as H by (apply filter_In; auto).
    rewrite E in H. destruct H.
  - assert (Ha : In a vs /\ notna a = true).
    { apply filter_In. rewrite E. now left. }
    rewrite forallb_forall. split.
    + intros H u v Hu Hv Nu Nv.
      assert (K : forall x, In x vs -> notna x = true -> kind x = kind a).
      { intros x Hx Nx.
        assert (In x (List.filter notna vs)) as Hf by (apply filter_In; auto).
        rewrite E in Hf. destruct Hf as [<-|Hf]; [reflexivity|].
        now apply Nat.eqb_eq, H. }
      now rewrite (K u), (K v).
    + intros H x Hx. apply Nat.eqb_eq.
      assert (In x (List.filter notna vs)) as Hf by (rewrite E; now right).
      apply filter_In in Hf as [Hx1 Hx2]. apply H; tauto.
Qed.

Lemma comparable_incl us vs :
  incl us vs -> comparable vs = true -> comparable us = true.
Proof.
  intros Hi. rewrite !comparable_spec. intros H u v Hu Hv. apply H; auto.
Qed.

Lemma column_values_select mask d col :
  incl (column_values (Frame.select mask d) col) (column_values d col).
Proof.
  unfold column_values, Frame.select. cbn. intros v Hv.
  apply in_map_iff in Hv as ([i r] & <- & Hin). apply filter_In in Hin as [Hin _].
  apply in_map_iff. now exists (i, r).
Qed.

Lemma select_rows mask d x :
  In x (rows (Frame.select mask d)) <-> In x (rows d) /\ mask (snd x) = true.
Proof.
  unfold Frame.select. cbn. rewrite filter_In. now destruct x.
Qed.


Lemma bind_column_of {B} (k : unit -> M B) d col w :
  Frame.has_column col d = true -> bind (column_of d col) k w = k tt w.
Proof. intros H. unfold column_of. now rewrite H. Qed.

(** The platform's order holds the same rows. *)
Lemma quicksort_order_In col rs x :
  In x (quicksort_order pf col rs) <-> In x rs.
Proof.
  pose proof (quicksort_order_perm pf col rs) as P. split; intros H.
  - exact (Permutation_in x P H).
  - exact (Permutation_in x (Permutation_sym P) H).
Qed.

Lemma quicksort_order_length col rs :
  length (quicksort_order pf col rs) = length rs.
Proof. apply Permutation_length, quicksort_order_perm. Qed.

Lemma empty_select_values mask d col :
  Frame.has_column col d = true ->
  Frame.empty (Frame.select mask d) = true ->
  column_values (Frame.select mask d) col = [].
Proof.
  intros Hc He. apply has_column_In in Hc. unfold Frame.empty in He.
  unfold column_values. cbn [Frame.select columns rows] in *.
  destruct (columns d) as [|c cs]; [destruct Hc|].
  now destruct (List.filter _ (rows d)).
Qed.

(** The view is sorted when the follow-up dates of the selected records
    can be ordered. *)
Lemma sorted_view_sel mask w l d :
  leads_df (self w) = Some l -> frames w !! l = Some d ->
  Frame.has_column "follow_up_date" d = true ->
  Frame.has_column "follow_up_completed" d = true ->
  comparable (column_values (Frame.select mask d) "follow_up_date") = true ->
  exists l' w', sorted_view pf mask w = (Return l', w')
                /\ view_of mask w l d l' w'.
Proof.
  intros Hl Hd H1 H2 Hc. unfold sorted_view. do 2 mstep.
  rewrite !bind_column_of by assumption. do 2 mstep.
  destruct (Frame.empty (Frame.select mask d)) eqn:E; cbn [negb].
  - eexists _, _. split; [reflexivity|]. eexists. split; [apply put_frame_lookup|].
    split; [reflexivity|]. split; [apply select_rows|].
    repeat split. cbn. now apply lookup_alloc_old.
  - unfold sort_values. rewrite bind_assoc, bind_column_of by exact H1.
    rewrite Hc.
    mstep. eexists _, _. split; [reflexivity|].
    eexists. split; [apply lookup_insert_eq|]. split; [reflexivity|].
    split; [|repeat split; cbn; now do 2 apply lookup_alloc_old].
    intros x. cbn [rows]. rewrite sort_rows_In, quicksort_order_In.
    apply select_rows.
Qed.

(** When they cannot, the sort raises TypeError. *)
Lemma sorted_view_raises mask w l d :
  leads_df (self w) = Some l -> frames w !! l = Some d ->
  Frame.has_column "follow_up_date" d = true ->
  Frame.has_column "follow_up_completed" d = true ->
  comparable (column_values (Frame.select mask d) "follow_up_date") = false ->
  exists w', sorted_view pf mask w = (Raise TypeError, w').
Proof.
  intros Hl Hd H1 H2 Hc. unfold sorted_view. do 2 mstep.
  rewrite !bind_column_of by assumption. do 2 mstep.
  destruct (Frame.empty (Frame.select mask d)) eqn:E; cbn [negb].
  - rewrite (empty_select_values mask d _ H1 E) in Hc. discriminate Hc.
  - unfold sort_values. rewrite bind_assoc, bind_column_of by exact H1.
    rewrite Hc. eexists. reflexivity.
Qed.

Lemma sorted_view_eval mask w l d :
  leads_df (self w) = Some l -> frames w !! l = Some d ->
  Frame.has_column "follow_up_date" d = true ->
  Frame.has_column "follow_up_completed" d = true ->
  comparable (column_values d "follow_up_date") = true ->
  exists l' w', sorted_view pf mask w = (Return l', w')
                /\ view_of mask w l d l' w'.
Proof.
  intros Hl Hd H1 H2 Hc. apply sorted_view_sel; try assumption.
  exact (comparable_incl _ _ (column_values_select mask d _) Hc).
Qed.

Lemma get_overdue_followups_sel now w l d :
  leads_df (self w) = Some l -> frames w !! l = Some d ->
  Frame.empty d = false ->
  Frame.has_column "follow_up_date" d = true ->
  Frame.has_column "follow_up_completed" d = true ->
  comparable
    (column_values (Frame.select (overdue_mask pf (normalize now)) d)
       "follow_up_date") = true ->
  exists l' w',
    get_overdue_followups pf now w = (Return l', w')
    /\ view_of (overdue_mask pf (normalize now)) w l d l' w'.
Proof.
  intros Hl Hd He. unfold get_overdue_followups. mstep. rewrite He. cbn [negb].
  now apply sorted_view_sel.
Qed.

Lemma get_overdue_followups_raises now w l d :
  leads_df (self w) = Some l -> frames w !! l = Some d ->
  Frame.empty d = false ->
  Frame.has_column "follow_up_date" d = true ->
  Frame.has_column "follow_up_completed" d = true ->
  comparable
    (column_values (Frame.select (overdue_mask pf (normalize now)) d)
       "follow_up_date") = false ->
  exists w', get_overdue_followups pf now w = (Raise TypeError, w').
Proof.
  intros Hl Hd He. unfold get_overdue_followups. mstep. rewrite He. cbn [negb].
  now apply (sorted_view_raises _ w l d).
Qed.

Lemma get_overdue_followups_eval now w l d :
  leads_df (self w) = Some l -> frames w !! l = Some d ->
  Frame.empty d = false ->
  Frame.has_column "follow_up_date" d = true ->
  Frame.has_column "follow_up_completed" d = true ->
  comparable (column_values d "follow_up_date") = true ->
  exists l' w',
    get_overdue_followups pf now w = (Return l', w')
    /\ view_of (overdue_mask pf (normalize now)) w l d l' w'.
Proof.
  intros Hl Hd He. unfold get_overdue_followups. mstep. rewrite He. cbn [negb].
  now apply sorted_view_eval.
Qed.

Lemma get_upcoming_followups_eval now days_ahead w l d :
  leads_df (self w) = Some l -> frames w !! l = Some d ->
  Frame.empty d = false ->
  Frame.has_column "follow_up_date" d = true ->
  Frame.has_column "follow_up_completed" d = true ->
  comparable (column_values d "follow_up_date") = true ->
  exists l' w',
    get_upcoming_followups pf now days_ahead w = (Return l', w')
    /\ view_of (upcoming_mask pf (normalize now)
                  (normalize now + days_ahead * NS_PER_DAY)) w l d l' w'.
Proof.
  intros Hl Hd He. unfold get_upcoming_followups. mstep. rewrite He. cbn [negb].
  now apply sorted_view_eval.
Qed.


Lemma priority_order_kind v : kind (priority_order v) = 2%nat.
Proof.
  unfold priority_order.
  destruct (eq_str v "High"), (eq_str v "Medium"), (eq_str v "Low");
    reflexivity.
Qed.

Lemma assign_column_values col t f d :
  column_values (Frame.assign col t f d) col = map (fun x => f (snd x)) (rows d).
Proof.
  unfold column_values, Frame.assign. cbn. rewrite map_map.
  apply map_ext. intros [i r]. unfold Frame.cell. now rewrite lookup_insert_eq.
Qed.

Lemma assign_other_values col t f d c :
  c <> col ->
  column_values (Frame.assign col t f d) c = column_values d c.
Proof.
  intros N. unfold column_values, Frame.assign. cbn. rewrite map_map.
  apply map_ext. intros [i r]. unfold Frame.cell.
  now rewrite lookup_insert_ne by congruence.
Qed.

Lemma assign_index col t f d :
  Frame.index (Frame.assign col t f d) = Frame.index d.
Proof.
  unfold Frame.index, Frame.assign. cbn. rewrite map_map.
  apply map_ext. now intros [i r].
Qed.

Lemma drop_index col d : Frame.index (Frame.drop col d) = Frame.index d.
Proof.
  unfold Frame.index, Frame.drop. cbn. rewrite map_map.
  apply map_ext. now intros [i r].
Qed.

Lemma sort_rows_index le rs i :
  In i (map fst (Frame.sort_rows le rs)) <-> In i (map fst rs).
Proof.
  rewrite !in_map_iff. split; intros (x & E & H); exists x;
    (split; [exact E|]); now apply (sort_rows_In le).
Qed.

Lemma select_index mask d i :
  In i (Frame.index (Frame.select mask d)) <->
  exists r, In (i, r) (rows d) /\ mask r = true.
Proof.
  unfold Frame.index. rewrite in_map_iff. split.
  - intros ([i' r] & E & H). cbn in E. subst i'. exists r.
    now apply select_rows in H.
  - intros (r & H & Hm). exists (i, r). split; [reflexivity|].
    now apply select_rows.
Qed.

Lemma empty_assign col t f d : Frame.empty d = false ->
  Frame.empty (Frame.assign col t f d) = false.
Proof.
  unfold Frame.empty, Frame.assign. cbn.
  destruct (columns d) as [|c cs]; [easy|]. destruct (rows d); [easy|].
  intros _. unfold Frame.add_column. now case_bool_decide.
Qed.

Lemma get_daily_tasks_sel date w l d :
  leads_df (self w) = Some l -> frames w !! l = Some d ->
  Frame.empty d = false ->
  Frame.has_column "follow_up_date" d = true ->
  Frame.has_column "follow_up_completed" d = true ->
  Frame.has_column "priority" d = true ->
  comparable
    (column_values (Frame.select (daily_mask pf (normalize date)) d)
       "follow_up_date") = true ->
  exists l' w',
    get_daily_tasks pf date w = (Return l', w')
    /\ daily_view_of (daily_mask pf (normalize date)) w l d l' w'.
Proof.
  intros Hl Hd He H1 H2 H3 Hc. unfold get_daily_tasks.
  mstep. rewrite He. cbn [negb]. do 2 mstep.
  rewrite !bind_column_of by assumption. do 2 mstep.
  set (mask := daily_mask pf (normalize date)).
  set (sel := Frame.select mask d).
  destruct (Frame.empty sel) eqn:E; cbn [negb].
  - eexists _, _. split; [reflexivity|]. exists sel.
    split; [apply put_frame_lookup|]. split; [apply incl_refl|].
    split; [apply select_index|].
    repeat split. cbn. now apply lookup_alloc_old.
  - rewrite bind_column_of by exact H3. do 2 mstep.
    rewrite put_frame_put.
    set (t1 := Frame.assign "priority_order" int64
                 (fun r => priority_order (Frame.cell r "priority")) sel).
    unfold sort_values_desc_asc.
    rewrite bind_assoc, bind_column_of
      by (apply has_column_In; cbn; apply add_column_has).
    rewrite bind_assoc, bind_column_of
      by (apply has_column_In; cbn; apply add_column_keeps;
          now apply has_column_In).
    assert (C1 : comparable (column_values t1 "priority_order") = true).
    { unfold t1. rewrite assign_column_values. apply comparable_spec.
      intros u v Hu Hv _ _.
      apply in_map_iff in Hu as (x & <- & _).
      apply in_map_iff in Hv as (y & <- & _).
      now rewrite !priority_order_kind. }
    assert (C2 : comparable (column_values t1 "follow_up_date") = true).
    { unfold t1. rewrite assign_other_values by easy. exact Hc. }
    rewrite C1, C2. cbn [andb]. do 3 mstep.
    eexists _, _. split; [reflexivity|]. eexists.
    split; [apply lookup_insert_eq|].
    split; [|split; [|repeat split; cbn; now do 3 apply lookup_alloc_old]].
    + cbn [columns Frame.drop]. intros c Hin.
      apply filter_In in Hin as [Hin Hne].
      apply add_column_only in Hin as [->|Hin]; [|exact Hin].
      now rewrite String.eqb_refl in Hne.
    + intros i. rewrite drop_index. unfold Frame.index at 1. cbn [rows].
      rewrite sort_rows_index. fold (Frame.index t1).
      unfold t1. rewrite assign_index. apply select_index.
Qed.

Lemma get_daily_tasks_raises date w l d :
  leads_df (self w) = Some l -> frames w !! l = Some d ->
  Frame.empty d = false ->
  Frame.has_column "follow_up_date" d = true ->
  Frame.has_column "follow_up_completed" d = true ->
  Frame.has_column "priority" d = true ->
  comparable
    (column_values (Frame.select (daily_mask pf (normalize date)) d)
       "follow_up_date") = false ->
  exists w', get_daily_tasks pf date w = (Raise TypeError, w').
Proof.
  intros Hl Hd He H1 H2 H3 Hc. unfold get_daily_tasks.
  mstep. rewrite He. cbn [negb]. do 2 mstep.
  rewrite !bind_column_of by assumption. do 2 mstep.
  set (mask := daily_mask pf (normalize date)) in *.
  set (sel := Frame.select mask d) in *.
  destruct (Frame.empty sel) eqn:E; cbn [negb].
  - unfold sel in Hc. rewrite (empty_select_values mask d _ H1 E) in Hc.
    discriminate Hc.
  - rewrite bind_column_of by exact H3. do 2 mstep.
    rewrite put_frame_put.
    set (t1 := Frame.assign "priority_order" int64
                 (fun r => priority_order (Frame.cell r "priority")) sel).
    unfold sort_values_desc_asc.
    rewrite bind_assoc, bind_column_of
      by (apply has_column_In; cbn; apply add_column_has).
    rewrite bind_assoc, bind_column_of
      by (apply has_column_In; cbn; apply add_column_keeps;
          now apply has_column_In).
    assert (C2 : comparable (column_values t1 "follow_up_date") = false).
    { unfold t1. rewrite assign_other_values by easy. exact Hc. }
    rewrite C2, andb_false_r. eexists. reflexivity.
Qed.

Lemma get_daily_tasks_eval date w l d :
  leads_df (self w) = Some l -> frames w !! l = Some d ->
  Frame.empty d = false ->
  Frame.has_column "follow_up_date" d = true ->
  Frame.has_column "follow_up_completed" d = true ->
  Frame.has_column "priority" d = true ->
  comparable (column_values d "follow_up_date") = true ->
  exists l' w',
    get_daily_tasks pf date w = (Return l', w')
    /\ daily_view_of (daily_mask pf (normalize date)) w l d l' w'.
Proof.
  intros Hl Hd He H1 H2 H3 Hc. apply get_daily_tasks_sel; try assumption.
  exact (comparable_incl _ _ (column_values_select _ d _) Hc).
Qed.

End Views.

Section FollowupClaims.
Import FrameFacts.

Variable pf : Platform.

Lemma set_loc_column_values idx col v d c :
  Frame.has_label idx d = true -> c <> col ->
  column_values (Frame.set_loc idx col v d) c = column_values d c.
Proof.
  intros L Hc. unfold column_values.
  rewrite (map_ext _ (fun x => Frame.cell (snd x) c)) by now intros [i r].
  rewrite set_loc_other_values by assumption.
  apply map_ext. now intros [i r].
Qed.

Lemma completed_rows today lead_idx d r :
  Frame.has_label lead_idx d = true ->
  In (lead_idx, r) (rows (completed today lead_idx d)) ->
  r !! "follow_up_completed" = Some (VBool true)
  /\ r !! "last_contact" = Some (VStr today).
Proof.
  intros L H. unfold completed in H. split; [|now apply set_loc_lookup in H].
  assert (N : "follow_up_completed" <> "last_contact") by discriminate.
  destruct (set_loc_other_lookup _ _ _ _ _ _ "follow_up_completed"
              (set_loc_has_label _ _ _ _) N H) as (r0 & H0 & ->).
  now apply set_loc_lookup in H0.
Qed.

Lemma completed_idem today lead_idx d :
  Frame.has_label lead_idx d = true ->
  completed today lead_idx (completed today lead_idx d)
  = completed today lead_idx d.
Proof.
  intros L. set (d1 := completed today lead_idx d).
  assert (L1 : Frame.has_label lead_idx d1 = true) by apply set_loc_has_label.
  unfold completed at 1.
  rewrite (set_loc_same lead_idx "follow_up_completed" (VBool true) d1).
  - apply set_loc_same; [exact L1| |].
    + apply has_column_In, set_loc_has_column.
    + intros r Hr. now apply (completed_rows today lead_idx d r L).
  - exact L1.
  - apply has_column_In, set_loc_columns, set_loc_has_column.
  - intros r Hr. now apply (completed_rows today lead_idx d r L).
Qed.

Lemma completed_not_open today lead_idx d r :
  Frame.has_label lead_idx d = true ->
  In (lead_idx, r) (rows (completed today lead_idx d)) ->
  open_followup r = false.
Proof.
  intros L H. destruct (completed_rows today lead_idx d r L H) as [E _].
  unfold open_followup, Frame.cell. rewrite E. apply andb_false_r.
Qed.

Lemma set_loc_other_row idx col v d i r :
  Frame.has_label idx d = true -> i <> idx ->
  In (i, r) (rows (Frame.set_loc idx col v d)) -> In (i, r) (rows d).
Proof.
  intros L N H. unfold Frame.set_loc in H. cbn [rows] in H. rewrite L in H.
  apply in_map_iff in H as ([j q] & E & Hin).
  case_bool_decide; inversion E; subst; [contradiction|exact Hin].
Qed.

(** What a view selects after the completion it selected before. *)
Lemma completed_select_incl today lead_idx d mask c :
  Frame.has_label lead_idx d = true ->
  (forall r, mask r = true -> open_followup r = true) ->
  incl (column_values (Frame.select mask (completed today lead_idx d)) c)
       (column_values (Frame.select mask d) c).
Proof.
  intros L Hopen v Hv. unfold column_values in *.
  apply in_map_iff in Hv as ([i r] & <- & Hin).
  apply select_rows in Hin as [Hin Hm]. cbn [snd] in *.
  apply in_map_iff. exists (i, r). split; [reflexivity|].
  apply select_rows. split; [|exact Hm].
  destruct (Z.eq_dec i lead_idx) as [->|N].
  - specialize (Hopen r Hm).
    rewrite (completed_not_open _ _ _ _ L Hin) in Hopen. discriminate Hopen.
  - unfold completed in Hin.
    apply set_loc_other_row in Hin; [|apply set_loc_has_label|exact N].
    now apply set_loc_other_row in Hin.
Qed.

Lemma returns_not_raises {A} (m : M A) w e w' :
  m w = (Raise e, w') -> ~ returns (m w).
Proof. intros E (a & w2 & E2). rewrite E in E2. discriminate E2. Qed.

(** C6. For every record id present in the store, [complete_followup(id)]
    returns normally; afterwards the record's flag is true and its
    [last_contact] is the day of the call.  The record is then in the
    result of [get_overdue_followups()] at no time and in the result of
    [get_daily_tasks(date)] for no date: each view gives a frame without
    the record, unless its sort of the follow-up dates raises TypeError
    (dates that cannot be ordered), and it gives a frame whenever it gave
    one before the call.  A second call on the same day leaves the Lead
    Store exactly as the first one did. *)
Theorem complete_followup_removes_and_is_idempotent w d now lead_idx :
  store w = Some d -> normalized d = true ->
  Frame.has_label lead_idx d = true ->
  exists w1 d1,
    complete_followup pf now lead_idx w = (Return tt, w1)
    /\ store w1 = Some d1
    /\ (forall r, In (lead_idx, r) (rows d1) ->
          Frame.cell r "follow_up_completed" = VBool true
          /\ Frame.cell r "last_contact" = VStr (strftime_date pf now))
    /\ (forall today,
          lacks lead_idx (get_overdue_followups pf today w1)
          /\ (returns (get_overdue_followups pf today w) ->
              returns (get_overdue_followups pf today w1)))
    /\ (forall date,
          lacks lead_idx (get_daily_tasks pf date w1)
          /\ (returns (get_daily_tasks pf date w) ->
              returns (get_daily_tasks pf date w1)))
    /\ (forall now', strftime_date pf now' = strftime_date pf now ->
          exists w2,
            complete_followup pf now' lead_idx w1 = (Return tt, w2)
            /\ store w2 = Some d1 /\ self w2 = self w1).
Proof.
  intros Hs Hn L. destruct (store_inv w d Hs) as (l & Hself & Hd).
  pose proof (normalized_nonempty d lead_idx Hn L) as He.
  destruct (complete_followup_eval pf w l d now lead_idx Hself Hd He)
    as (w1 & Hrun & Hm).
  fold (completed (strftime_date pf now) lead_idx d) in Hm.
  set (d1 := completed (strftime_date pf now) lead_idx d) in *.
  assert (Hself1 : leads_df (self w1) = Some l)
    by (destruct Hm as [_ ->]; exact Hself).
  assert (Hd1 : frames w1 !! l = Some d1)
    by (destruct Hm as [-> _]; apply lookup_insert_eq).
  assert (He1 : Frame.empty d1 = false) by apply set_loc_nonempty.
  assert (Hcol0 : forall c, In c management_columns ->
                            Frame.has_column c d = true)
    by (intros c Hin; now apply normalized_columns).
  assert (Hcol : forall c, In c management_columns ->
                           Frame.has_column c d1 = true).
  { intros c Hin. unfold d1, completed.
    now apply set_loc_columns, set_loc_columns, normalized_columns. }
  exists w1, d1. split; [exact Hrun|].
  split; [exact (mutated_store w l d1 w1 Hself Hm)|].
  split; [|split; [|split]].
  - intros r Hr. destruct (completed_rows _ _ _ _ L Hr) as [E1 E2].
    unfold Frame.cell. now rewrite E1, E2.
  - intros today.
    set (mask := overdue_mask pf (normalize today)).
    assert (Hopen : forall r, mask r = true -> open_followup r = true).
    { intros r Hr. unfold mask, overdue_mask in Hr.
      now apply andb_true_iff in Hr as [Hr _]. }
    destruct (comparable (column_values (Frame.select mask d1)
                            "follow_up_date")) eqn:Hc1.
    + destruct (get_overdue_followups_sel pf today w1 l d1 Hself1 Hd1 He1)
        as (l' & w2 & Hrun2 & v & Hv & _ & Hrows & _);
        [apply Hcol; simpl; auto|apply Hcol; simpl; auto|exact Hc1|].
      split; [|intros _; now exists l', w2].
      rewrite Hrun2. cbn. exists v. split; [exact Hv|].
      unfold Frame.index. rewrite in_map_iff. intros ([i r] & E & Hin).
      cbn in E. subst i. apply Hrows in Hin as [Hin Hmask]. cbn in Hmask.
      apply Hopen in Hmask.
      now rewrite (completed_not_open _ _ _ _ L Hin) in Hmask.
    + destruct (get_overdue_followups_raises pf today w1 l d1 Hself1 Hd1 He1)
        as (w2 & Hrun2);
        [apply Hcol; simpl; auto|apply Hcol; simpl; auto|exact Hc1|].
      split; [rewrite Hrun2; reflexivity|].
      intros Hret. exfalso.
      destruct (comparable (column_values (Frame.select mask d)
                              "follow_up_date")) eqn:Hc0.
      * pose proof (comparable_incl _ _
                      (completed_select_incl (strftime_date pf now) lead_idx
                         d mask "follow_up_date" L Hopen) Hc0) as Hc.
        fold d1 in Hc. rewrite Hc1 in Hc. discriminate Hc.
      * destruct (get_overdue_followups_raises pf today w l d Hself Hd He)
          as (w0 & Hrun0);
          [apply Hcol0; simpl; auto|apply Hcol0; simpl; auto|exact Hc0|].
        exact (returns_not_raises _ _ _ _ Hrun0 Hret).
  - intros date.
    set (mask := daily_mask pf (normalize date)).
    assert (Hopen : forall r, mask r = true -> open_followup r = true).
    { intros r Hr. unfold mask, daily_mask in Hr.
      now apply andb_true_iff in Hr as [Hr _]. }
    destruct (comparable (column_values (Frame.select mask d1)
                            "follow_up_date")) eqn:Hc1.
    + destruct (get_daily_tasks_sel pf date w1 l d1 Hself1 Hd1 He1)
        as (l' & w2 & Hrun2 & v & Hv & _ & Hidx & _);
        [apply Hcol; simpl; auto|apply Hcol; simpl; auto
        |apply Hcol; simpl; auto|exact Hc1|].
      split; [|intros _; now exists l', w2].
      rewrite Hrun2. cbn. exists v. split; [exact Hv|].
      intros Hin. apply Hidx in Hin as (r & Hin & Hmask).
      apply Hopen in Hmask.
      now rewrite (completed_not_open _ _ _ _ L Hin) in Hmask.
    + destruct (get_daily_tasks_raises pf date w1 l d1 Hself1 Hd1 He1)
        as (w2 & Hrun2);
        [apply Hcol; simpl; auto|apply Hcol; simpl; auto
        |apply Hcol; simpl; auto|exact Hc1|].
      split; [rewrite Hrun2; reflexivity|].
      intros Hret. exfalso.
      destruct (comparable (column_values (Frame.select mask d)
                              "follow_up_date")) eqn:Hc0.
      * pose proof (comparable_incl _ _
                      (completed_select_incl (strftime_date pf now) lead_idx
                         d mask "follow_up_date" L Hopen) Hc0) as Hc.
        fold d1 in Hc. rewrite Hc1 in Hc. discriminate Hc.
      * destruct (get_daily_tasks_raises pf date w l d Hself Hd He)
          as (w0 & Hrun0);
          [apply Hcol0; simpl; auto|apply Hcol0; simpl; auto
          |apply Hcol0; simpl; auto|exact Hc0|].
        exact (returns_not_raises _ _ _ _ Hrun0 Hret).
  - intros now' Hday.
    destruct (complete_followup_eval pf w1 l d1 now' lead_idx Hself1 Hd1 He1)
      as (w2 & Hrun2 & Hm2).
    exists w2. split; [exact Hrun2|]. split; [|now destruct Hm2].
    rewrite (mutated_store w1 l _ w2 Hself1 Hm2). f_equal.
    rewrite Hday. apply (completed_idem _ _ d L).
Qed.

End FollowupClaims.

Section StatusClaims.
Import FrameFacts.

Variable pf : Platform.

Lemma try_except_return {A} (m h : M A) w a w' :
  m w = (Return a, w') -> try_except m h w = (Return a, w').
Proof. intros H. unfold try_except. now rewrite H. Qed.

Lemma mapped_first_get m name :
  get_default m name name = mapped_first m name.
Proof. reflexivity. Qed.

Lemma select_filter mask d :
  rows (Frame.select mask d)
  = List.filter (fun x => mask (snd x)) (rows d).
Proof.
  unfold Frame.select. cbn. induction (rows d) as [|[i r] rs IH]; cbn;
    [reflexivity|]. now rewrite IH.
Qed.

Lemma count_rows_values (test : value -> bool) d c :
  count_rows (fun r => test (Frame.cell r c)) d
  = length (List.filter test (column_values d c)).
Proof.
  unfold count_rows, column_values.
  induction (rows d) as [|[i r] rs IH]; cbn; [reflexivity|].
  destruct (test (Frame.cell r c)); cbn; now rewrite IH.
Qed.


(** [get_analytics] on a store with data. *)
Lemma get_analytics_eval w l d now :
  leads_df (self w) = Some l -> frames w !! l = Some d ->
  Frame.empty d = false -> normalized d = true ->
  let c := mapped_first (column_mapping (self w)) "status" in
  get_analytics pf now w
  = (Return
       {| total_leads := length (rows d);
          active_followups := count_rows open_followup d;
          overdue_tasks := count_rows (overdue_mask pf (normalize now)) d;
          qualified_leads :=
            (if Frame.has_column c d
             then qualified_by_keyword pf (column_values d c) else 0%nat);
          status_distribution :=
            (if Frame.has_column c d
             then value_counts (column_values d c) else ∅);
          priority_distribution :=
            value_counts (column_values d "priority") |}, w).
Proof.
  intros Hl Hd He Hn c. unfold get_analytics.
  mstep. rewrite He. cbn [negb]. do 3 mstep.
  rewrite !bind_column_of
    by (apply normalized_columns; [exact Hn|simpl; auto]).
  rewrite mapped_first_get. fold c. unfold ret. f_equal. f_equal.
  destruct (Frame.has_column c d); [|reflexivity].
  unfold qualified_by_keyword, qualified_statuses.
  cbn [fold_left map list_sum fold_right].
  rewrite !(count_rows_values
              (fun v => PyStr.contains _ (PyStr.lower (str_of pf v)))).
  unfold has_keyword. f_equal. lia.
Qed.




End StatusClaims.


(** C1.  The status consumers do not resolve the status in the three-tier
    order.  After an import whose column [Stage] is mapped to the status
    and [update_lead_status(0, 'qualified')], the table holds a column
    literally named [status], saying "new", and the mapped column
    [Stage], saying "qualified"; the three-tier order resolves the status
    of the record to "new".  The status filter of [get_filtered_leads]
    finds no record for "new" and record 0 for "qualified", and
    [get_analytics] counts one qualified lead and a distribution with
    one "qualified" and no "new": both read the mapped column before the
    literal one.  The search of the same [get_filtered_leads] does take
    the literal column first: on a table with a column [name] ("Ann")
    and a column [Alias] ("Bob") mapped to the name, it finds the record
    for "ann" and not for "bob". *)
Theorem status_consumers_skip_the_literal_column :
  column_values (the_store stage_world) "status" = [VStr "new"]
  /\ column_values (the_store stage_world) "Stage" = [VStr "qualified"]
  /\ map (fun x => resolve_three_tier (column_mapping (self stage_world))
                     (the_store stage_world) "status" (VStr "N/A") (snd x))
         (rows (the_store stage_world)) = [VStr "new"]
  /\ result_index
       (get_filtered_leads demo_platform "" "new" "All" stage_world)
     = Some []
  /\ result_index
       (get_filtered_leads demo_platform "" "qualified" "All" stage_world)
     = Some [0]
  /\ status_counts (get_analytics demo_platform 0 stage_world)
       "qualified" "new"
     = Some (1%nat, Some 1%nat, None)
  /\ column_values (the_store alias_world) "name" = [VStr "Ann"]
  /\ column_values (the_store alias_world) "Alias" = [VStr "Bob"]
  /\ result_index
       (get_filtered_leads demo_platform "ann" "All" "All" alias_world)
     = Some [0]
  /\ result_index
       (get_filtered_leads demo_platform "bob" "All" "All" alias_world)
     = Some [].
Proof. repeat split; vm_compute; reflexivity. Qed.

(** ** Import: [load_data] *)

Section Loading.
Import FrameFacts.

Variable pf : Platform.

Lemma keeps_seq I J K (m k : M unit) :
  (forall w, I w -> exists w', m w = (Return tt, w') /\ J w') ->
  (forall w, J w -> exists w', k w = (Return tt, w') /\ K w') ->
  forall w, I w -> exists w', bind m (fun _ => k) w = (Return tt, w') /\ K w'.
Proof.
  intros Hm Hk w Hw. destruct (Hm w Hw) as (w1 & E1 & H1).
  destruct (Hk w1 H1) as (w2 & E2 & H2). exists w2.
  split; [|exact H2]. now rewrite (bind_return _ _ _ _ _ E1).
Qed.

Lemma keeps_for_each {A} I (xs : list A) (body : A -> M unit) :
  (forall x, In x xs -> keeps I (body x)) -> keeps I (for_each xs body).
Proof.
  induction xs as [|x xs IH]; intros H w Hw; cbn [for_each].
  - now exists w.
  - apply (keeps_seq I I I); [apply H; now left| |exact Hw].
    apply IH. intros y Hy. apply H. now right.
Qed.

(** A conditional in-place change of the store keeps [P] when the change
    does. *)
Lemma keeps_modify l s (P : DataFrame -> Prop) (test : DataFrame -> bool)
    (f : DataFrame -> DataFrame) :
  (forall d, P d -> test d = true -> P (f d)) ->
  keeps (store_is l s P)
    (do l0 <- the_leads;
     do d <- read_frame l0;
     if test d then modify_frame l0 f else ret tt).
Proof.
  intros Hf w (Hs & Hl & d & Hd & HP).
  assert (Hl' : leads_df (self w) = Some l) by now rewrite Hs.
  do 2 mstep. destruct (test d) eqn:T.
  - rewrite (modify_frame_eval w l d f Hd). eexists. split; [reflexivity|].
    split; [exact Hs|]. split; [exact Hl|]. exists (f d).
    split; [apply lookup_insert_eq|now apply Hf].
  - exists w. split; [reflexivity|]. split; [exact Hs|]. split; [exact Hl|].
    now exists d.
Qed.


(** A conditional in-place change of the store, from [P] to [Q]. *)
Lemma modify_step l s (P Q : DataFrame -> Prop) (test : DataFrame -> bool)
    (f : DataFrame -> DataFrame -> DataFrame) :
  (forall d, P d -> test d = true -> Q (f d d)) ->
  (forall d, P d -> test d = false -> Q d) ->
  forall w, store_is l s P w ->
  exists w',
    (do l0 <- the_leads;
     do d <- read_frame l0;
     if test d then modify_frame l0 (f d) else ret tt) w = (Return tt, w')
    /\ store_is l s Q w'.
Proof.
  intros Ht Hf w (Hs & Hl & d & Hd & HP).
  assert (Hl' : leads_df (self w) = Some l) by now rewrite Hs.
  do 2 mstep. destruct (test d) eqn:T.
  - rewrite (modify_frame_eval w l d (f d) Hd). eexists.
    split; [reflexivity|]. split; [exact Hs|]. split; [exact Hl|].
    exists (f d d). split; [apply lookup_insert_eq|now apply Ht].
  - exists w. split; [reflexivity|]. split; [exact Hs|]. split; [exact Hl|].
    exists d. split; [exact Hd|now apply Hf].
Qed.

(** *** Cleaning keeps the columns and the records *)

Lemma assign_same_shape d d' col t f :
  In col (columns d) -> same_shape d d' ->
  same_shape d (Frame.assign col t f d').
Proof.
  intros Hc [H1 H2]. split.
  - cbn. rewrite H1. now apply add_column_present.
  - now rewrite assign_index.
Qed.

Lemma clean_column_keeps l s d col :
  In col (columns d) ->
  keeps (store_is l s (same_shape d)) (clean_column pf col).
Proof.
  intros Hc w (Hs & Hl & d' & Hd & HP).
  assert (Hl' : leads_df (self w) = Some l) by now rewrite Hs.
  unfold clean_column. do 2 mstep.
  destruct (Frame.dtype_of d' col);
    try (exists w; split; [reflexivity|]; split; [exact Hs|];
         split; [exact Hl|]; now exists d').
  do 2 mstep. unfold _process_multiple_values.
  destruct (is_email_column col || is_product_column col).
  - mstep. erewrite modify_frame_eval by lookup_now.
    eexists. split; [reflexivity|].
    split; [exact Hs|]. split; [exact Hl|]. eexists.
    split; [apply lookup_insert_eq|].
    pose proof (assign_same_shape d _ col object_
                  (fun r0 => fold_left (fun v n => replace_null n v)
                               null_values (Frame.cell r0 col)) Hc
                  (assign_same_shape d d' col object_
                     (fun r0 => VStr (str_of pf (Frame.cell r0 col))) Hc HP))
      as [H1 H2].
    split; [exact H1|]. rewrite <- H2. unfold Frame.index. cbn [rows].
    rewrite !map_map. apply map_ext. now intros [i r].
  - eexists. split; [reflexivity|].
    split; [exact Hs|]. split; [exact Hl|]. eexists.
    split; [apply lookup_insert_eq|].
    apply (assign_same_shape d _ col object_ _ Hc).
    now apply assign_same_shape.
Qed.

Lemma clean_data_types_keeps l s d :
  keeps (store_is l s (same_shape d)) (_clean_data_types pf).
Proof.
  intros w Hw. pose proof Hw as (Hs & Hl & d' & Hd & HP).
  assert (Hl' : leads_df (self w) = Some l) by now rewrite Hs.
  unfold _clean_data_types. do 2 mstep.
  apply keeps_for_each; [|exact Hw].
  intros col Hc. apply clean_column_keeps. destruct HP as [<- _]. exact Hc.
Qed.

(** *** Injection of the management columns *)

Lemma normalized_mono d d' :
  (forall c, Frame.has_column c d = true -> Frame.has_column c d' = true) ->
  normalized d = true -> normalized d' = true.
Proof.
  unfold normalized. rewrite !forallb_forall. auto.
Qed.

Lemma assign_cells_same col t f d v :
  (forall r, f r = v) ->
  Forall (fun x => Frame.cell (snd x) col = v) (rows (Frame.assign col t f d)).
Proof.
  intros Hf. apply List.Forall_forall. intros x Hx. cbn in Hx.
  apply in_map_iff in Hx as ([i r] & <- & _). cbn.
  unfold Frame.cell. now rewrite lookup_insert_eq.
Qed.

Lemma assign_cells_other col t f d c v :
  c <> col ->
  Forall (fun x => Frame.cell (snd x) c = v) (rows d) ->
  Forall (fun x => Frame.cell (snd x) c = v) (rows (Frame.assign col t f d)).
Proof.
  intros N H. rewrite List.Forall_forall in *. intros x Hx. cbn in Hx.
  apply in_map_iff in Hx as ([i r] & <- & Hin). cbn.
  unfold Frame.cell. rewrite lookup_insert_ne by congruence.
  exact (H (i, r) Hin).
Qed.

Lemma add_if_missing_step l s d done c v :
  ~ In c (map fst done) ->
  forall w, store_is l s (injected d done) w ->
  exists w', add_if_missing c v w = (Return tt, w')
             /\ store_is l s (injected d (done ++ [(c, v)])) w'.
Proof.
  intros Hfresh.
  apply (modify_step l s _ _ (fun d' => negb (Frame.has_column c d'))
           (fun _ => Frame.assign_scalar c v)).
  - intros d' (Hi & Hcols & Hcells) Ht.
    apply negb_true_iff in Ht.
    assert (Hc : ~ In c (columns d')).
    { intros H. apply has_column_In in H. congruence. }
    unfold Frame.assign_scalar.
    split; [now rewrite assign_index|]. split.
    + intros x. cbn. rewrite map_app, in_app_iff. cbn. split.
      * intros H. apply add_column_only in H as [->|H]; [tauto|].
        apply Hcols in H. tauto.
      * intros [H|[H|[<-|[]]]]; [| |apply add_column_has];
          apply add_column_keeps, Hcols; tauto.
    + intros c0 v0 Hin Hno. apply in_app_iff in Hin as [Hin|[E|[]]].
      * apply assign_cells_other; [|now apply Hcells].
        intros ->. apply Hc, Hcols. right.
        apply in_map_iff. now exists (c, v0).
      * inversion E; subst. now apply assign_cells_same.
  - intros d' (Hi & Hcols & Hcells) Ht.
    apply negb_false_iff, has_column_In in Ht.
    split; [exact Hi|]. split.
    + intros x. rewrite map_app, in_app_iff. cbn. rewrite Hcols. split;
        [tauto|]. intros [H|[H|[<-|[]]]]; [tauto|tauto|now apply Hcols].
    + intros c0 v0 Hin Hno. apply in_app_iff in Hin as [Hin|[E|[]]];
        [now apply Hcells|]. inversion E; subst.
      apply Hcols in Ht as [Ht|Ht]; contradiction.
Qed.

Lemma injected_imported d d' :
  injected d management_defaults d' -> imported d d'.
Proof.
  intros (Hi & Hcols & Hcells). split; [exact Hi|]. split; [|exact Hcells].
  unfold normalized. apply forallb_forall. intros c Hc.
  apply has_column_In, Hcols. right. exact Hc.
Qed.

Lemma standardize_keeps l s d :
  keeps (store_is l s (imported d)) _standardize_columns.
Proof.
  intros w Hw. unfold _standardize_columns. mstep.
  apply keeps_for_each; [|exact Hw].
  clear Hw. intros [standard_name mapped_column] _. clear w.
  intros w (Hs & Hl & d' & Hd & HP).
  assert (Hl' : leads_df (self w) = Some l) by now rewrite Hs.
  do 2 mstep.
  destruct (negb (PyStr.is_empty mapped_column)
            && Frame.has_column mapped_column d');
    [destruct (Frame.has_column standard_name d') eqn:Hstd|]; cbn [negb];
    try (exists w; split; [reflexivity|]; split; [exact Hs|];
         split; [exact Hl|]; now exists d').
  rewrite (modify_frame_eval w l d' _ Hd). eexists. split; [reflexivity|].
  split; [exact Hs|]. split; [exact Hl|]. eexists.
  split; [apply lookup_insert_eq|].
  destruct HP as (Hi & Hn & Hcells).
  split; [now rewrite assign_index|]. split.
  - revert Hn. apply normalized_mono. intros c. rewrite !has_column_In. cbn.
    apply add_column_keeps.
  - intros c v Hin Hno. apply assign_cells_other; [|now apply Hcells].
    intros ->. apply (in_map fst) in Hin. cbn [fst] in Hin.
    change (map fst management_defaults) with management_columns in Hin.
    rewrite (normalized_columns d' _ Hn Hin) in Hstd. discriminate.
Qed.

(** *** Mutations keep the management columns *)

Lemma normalized_set_loc idx col v d :
  normalized d = true -> normalized (Frame.set_loc idx col v d) = true.
Proof. apply normalized_mono. intros c. apply set_loc_columns. Qed.

Lemma normalized_ensure m name fill d :
  normalized d = true -> normalized (ensure_column m name fill d) = true.
Proof.
  unfold ensure_column. destruct (Frame.has_column _ d); [easy|].
  apply normalized_mono. intros c. rewrite !has_column_In. cbn.
  apply add_column_keeps.
Qed.

Lemma stays_normalized_status now idx txt w d :
  store w = Some d -> normalized d = true ->
  stays_normalized (update_lead_status pf now idx txt) w.
Proof.
  intros Hs Hn. destruct (store_inv w d Hs) as (l & Hl & Hd).
  unfold stays_normalized. destruct (Frame.empty d) eqn:He.
  - unfold update_lead_status. erewrite bind_has_data by eassumption.
    rewrite He. cbn. eauto.
  - destruct (update_lead_status_eval pf w l d now idx txt Hl Hd He)
      as (w' & -> & Hm).
    eexists. split; [exact (mutated_store w l _ w' Hl Hm)|].
    now apply normalized_set_loc, normalized_set_loc, normalized_ensure.
Qed.

Lemma stays_normalized_priority idx txt w d :
  store w = Some d -> normalized d = true ->
  stays_normalized (update_lead_priority pf idx txt) w.
Proof.
  intros Hs Hn. destruct (store_inv w d Hs) as (l & Hl & Hd).
  unfold stays_normalized. destruct (Frame.empty d) eqn:He.
  - unfold update_lead_priority. erewrite bind_has_data by eassumption.
    rewrite He. cbn. eauto.
  - destruct (update_lead_priority_eval pf w l d idx txt Hl Hd He)
      as (w' & -> & Hm).
    { intros _. apply normalized_columns; [exact Hn|simpl; auto]. }
    eexists. split; [exact (mutated_store w l _ w' Hl Hm)|].
    now apply normalized_set_loc.
Qed.

Lemma stays_normalized_schedule idx date w d :
  store w = Some d -> normalized d = true ->
  stays_normalized (schedule_followup pf idx date) w.
Proof.
  intros Hs Hn. destruct (store_inv w d Hs) as (l & Hl & Hd).
  unfold stays_normalized. destruct (Frame.empty d) eqn:He.
  - unfold schedule_followup. erewrite bind_has_data by eassumption.
    rewrite He. cbn. eauto.
  - destruct (schedule_followup_eval pf w l d idx date Hl Hd He)
      as (w' & -> & Hm).
    { intros _. apply normalized_columns; [exact Hn|simpl; auto]. }
    eexists. split; [exact (mutated_store w l _ w' Hl Hm)|].
    now apply normalized_set_loc, normalized_set_loc.
Qed.

Lemma stays_normalized_complete now idx w d :
  store w = Some d -> normalized d = true ->
  stays_normalized (complete_followup pf now idx) w.
Proof.
  intros Hs Hn. destruct (store_inv w d Hs) as (l & Hl & Hd).
  unfold stays_normalized. destruct (Frame.empty d) eqn:He.
  - unfold complete_followup. erewrite bind_has_data by eassumption.
    rewrite He. cbn. eauto.
  - destruct (complete_followup_eval pf w l d now idx Hl Hd He)
      as (w' & -> & Hm).
    eexists. split; [exact (mutated_store w l _ w' Hl Hm)|].
    now apply normalized_set_loc, normalized_set_loc.
Qed.

Lemma stays_normalized_note now idx txt w d :
  store w = Some d -> normalized d = true ->
  stays_normalized (add_note pf now idx txt) w.
Proof.
  intros Hs Hn. destruct (store_inv w d Hs) as (l & Hl & Hd).
  unfold stays_normalized.
  destruct (Frame.empty d) eqn:He;
    [|destruct (PyStr.is_empty (PyStr.strip txt)) eqn:Ht].
  - unfold add_note. erewrite bind_has_data by eassumption.
    rewrite He. cbn. eauto.
  - unfold add_note. erewrite bind_has_data by eassumption.
    rewrite He, Ht. cbn. eauto.
  - destruct (Frame.has_label idx d) eqn:L.
    + destruct (find_row_label idx
                  (rows (ensure_column (column_mapping (self w)) "notes"
                           (VStr "") d))) as [r Hr].
      { fold (Frame.index (ensure_column (column_mapping (self w)) "notes"
                              (VStr "") d)).
        rewrite ensure_column_index. now apply has_label_In. }
      destruct (add_note_eval pf w l d now idx txt r Hl Hd He Ht Hr)
        as (w' & -> & Hm).
      eexists. split; [exact (mutated_store w l _ w' Hl Hm)|].
      now apply normalized_set_loc, normalized_ensure.
    + destruct (add_note_missing pf w l d now idx txt Hl Hd He Ht L)
        as (w' & -> & _ & _ & Hst).
      eexists. split; [exact Hst|]. now apply normalized_ensure.
Qed.


Lemma store_is_weaken l s (P Q : DataFrame -> Prop) w :
  (forall d, P d -> Q d) -> store_is l s P w -> store_is l s Q w.
Proof.
  intros H (Hs & Hl & d & Hd & HP). split; [exact Hs|]. split; [exact Hl|].
  exists d. split; [exact Hd|now apply H].
Qed.

Lemma load_data_eval w df d m :
  frames w !! df = Some d ->
  exists w' d',
    load_data pf df m w = (Return tt, w')
    /\ store w' = Some d' /\ imported d d'.
Proof.
  intros Hdf. unfold load_data.
  erewrite bind_read_frame by eassumption. do 2 mstep.
  set (l := alloc w).
  set (s := {| leads_df := Some l;
               column_mapping :=
                 List.filter (fun '(_, v) => negb (PyStr.is_empty v)) m;
               original_columns := columns d |}).
  set (w1 := {| frames := frames (put_frame l d w); self := s;
                db := db (put_frame l d w) |}).
  assert (H1 : store_is l s (same_shape d) w1).
  { split; [reflexivity|]. split; [reflexivity|]. exists d.
    split; [apply lookup_insert_eq|now split]. }
  destruct (clean_data_types_keeps l s d w1 H1) as (w2 & E2 & H2).
  rewrite (bind_return _ _ _ _ _ E2).
  assert (H2' : store_is l s (injected d []) w2).
  { revert H2. apply store_is_weaken. intros d' [Hc Hi].
    split; [exact Hi|]. split; [|intros c v []].
    intros c. rewrite Hc. cbn. tauto. }
  assert (F1 : ~ In "priority" (map fst (@nil (string * value))))
    by (cbn; tauto).
  destruct (add_if_missing_step l s d [] "priority" (VStr "Medium")
              F1 w2 H2') as (w3 & E3 & H3).
  rewrite (bind_return _ _ _ _ _ E3). cbn [app] in H3.
  assert (F2 : ~ In "follow_up_date"
                 (map fst [("priority", VStr "Medium")]))
    by (cbn; intuition discriminate).
  destruct (add_if_missing_step l s d _ "follow_up_date" VNone
              F2 w3 H3) as (w4 & E4 & H4).
  rewrite (bind_return _ _ _ _ _ E4). cbn [app] in H4.
  assert (F3 : ~ In "last_contact"
                 (map fst [("priority", VStr "Medium");
                           ("follow_up_date", VNone)]))
    by (cbn; intuition discriminate).
  destruct (add_if_missing_step l s d _ "last_contact" VNone
              F3 w4 H4) as (w5 & E5 & H5).
  rewrite (bind_return _ _ _ _ _ E5). cbn [app] in H5.
  assert (F4 : ~ In "follow_up_completed"
                 (map fst [("priority", VStr "Medium");
                           ("follow_up_date", VNone);
                           ("last_contact", VNone)]))
    by (cbn; intuition discriminate).
  destruct (add_if_missing_step l s d _ "follow_up_completed" (VBool false)
              F4 w5 H5) as (w6 & E6 & H6).
  rewrite (bind_return _ _ _ _ _ E6). cbn [app] in H6.
  assert (H6' : store_is l s (imported d) w6).
  { revert H6. apply store_is_weaken. intros d'. apply injected_imported. }
  destruct (standardize_keeps l s d w6 H6') as (w7 & E7 & H7).
  rewrite (bind_return _ _ _ _ _ E7).
  destruct (save_to_database_eval pf w7) as [b ->].
  destruct H7 as (Hs & Hl & d' & Hd & HP).
  eexists _, d'. split; [reflexivity|]. split; [|exact HP].
  unfold store. cbn. now rewrite Hs, Hl.
Qed.

(** C9. On any imported table [load_data] returns normally; the Lead
    Store then holds the records of the import, the four management
    columns exist, and a management column the import did not have
    carries its default in every record: priority "Medium",
    follow_up_date None, last_contact None, follow_up_completed False.
    Every mutation, however it ends, leaves a store with the four
    management columns. *)
Theorem load_data_injects_management_columns w df d m :
  frames w !! df = Some d ->
  (exists w' d',
     load_data pf df m w = (Return tt, w')
     /\ store w' = Some d'
     /\ Frame.index d' = Frame.index d
     /\ Forall (fun c => Frame.has_column c d' = true) management_columns
     /\ (forall c v, In (c, v) management_defaults -> ~ In c (columns d) ->
                     Forall (fun x => Frame.cell (snd x) c = v) (rows d')))
  /\ (forall w2 d2 now lead_idx text date,
        store w2 = Some d2 -> normalized d2 = true ->
        stays_normalized (update_lead_status pf now lead_idx text) w2
        /\ stays_normalized (update_lead_priority pf lead_idx text) w2
        /\ stays_normalized (schedule_followup pf lead_idx date) w2
        /\ stays_normalized (add_note pf now lead_idx text) w2
        /\ stays_normalized (complete_followup pf now lead_idx) w2).
Proof.
  intros Hdf. split.
  - destruct (load_data_eval w df d m Hdf) as (w' & d' & Hrun & Hs & Hi & Hn & Hc).
    exists w', d'. repeat (split; [assumption|]). split; [|exact Hc].
    apply List.Forall_forall. intros c Hin. now apply normalized_columns.
  - intros w2 d2 now lead_idx text date Hs Hn.
    split; [now apply (stays_normalized_status _ _ _ _ d2)|].
    split; [now apply (stays_normalized_priority _ _ _ d2)|].
    split; [now apply (stays_normalized_schedule _ _ _ d2)|].
    split; [now apply (stays_normalized_note _ _ _ _ d2)|].
    now apply (stays_normalized_complete _ _ _ d2).
Qed.

End Loading.

(** ** The queries change nothing *)

Section ReadOnly.
Import FrameFacts.

Variable pf : Platform.

Lemma untouched_refl w : untouched w w.
Proof. split; [reflexivity|]. split; reflexivity. Qed.

Lemma untouched_alloc w0 w d :
  untouched w0 w -> untouched w0 (put_frame (alloc w) d w).
Proof.
  intros (Hs & Hb & Hf). split; [exact Hs|]. split; [exact Hb|].
  cbn. etransitivity; [exact Hf|]. apply insert_subseteq, alloc_fresh.
Qed.

Lemma untouched_fresh w0 w : untouched w0 w -> frames w0 !! alloc w = None.
Proof.
  intros (_ & _ & Hf). destruct (frames w0 !! alloc w) as [d|] eqn:E; [|easy].
  pose proof (lookup_weaken _ _ _ _ E Hf) as H.
  rewrite alloc_fresh in H. discriminate.
Qed.

Lemma untouched_store w w' d :
  untouched w w' -> store w = Some d -> store w' = Some d.
Proof.
  intros (Hs & _ & Hf). unfold store. rewrite Hs.
  destruct (leads_df (self w)) as [l|]; [|easy].
  intros H. exact (lookup_weaken _ _ _ _ H Hf).
Qed.

Section Rules.
Variable w0 : World.

Lemma preserves_ret {A} (I : World -> Prop) (a : A) : preserves I (ret a).
Proof. now intros w H. Qed.

Lemma preserves_raise {A} (I : World -> Prop) e : preserves I (@raise A e).
Proof. now intros w H. Qed.

Lemma preserves_bind {A B} (I : World -> Prop) (m : M A) (k : A -> M B) :
  preserves I m -> (forall a, preserves I (k a)) -> preserves I (bind m k).
Proof.
  intros Hm Hk w H. unfold bind. specialize (Hm w H).
  destruct (m w) as [[a|e] w']; cbn in *; [now apply Hk|exact Hm].
Qed.

Lemma preserves_try {A} (I : World -> Prop) (m h : M A) :
  preserves I m -> preserves I h -> preserves I (try_except m h).
Proof.
  intros Hm Hh w H. unfold try_except. specialize (Hm w H).
  destruct (m w) as [[a|e] w']; cbn in *; [exact Hm|now apply Hh].
Qed.

(** Computations that only read. *)
Lemma preserves_pure {A} (I : World -> Prop) (m : M A) :
  (forall w, snd (m w) = w) -> preserves I m.
Proof. intros Hm w H. now rewrite Hm. Qed.

Lemma get_self_pure w : snd (get_self w) = w.
Proof. reflexivity. Qed.

Lemma read_frame_pure l w : snd (read_frame l w) = w.
Proof. unfold read_frame. now destruct (frames w !! l). Qed.

Lemma the_leads_pure w : snd (the_leads w) = w.
Proof.
  unfold the_leads, bind, get_self, lift_opt.
  now destruct (leads_df (self w)).
Qed.

Lemma has_data_pure w : snd (has_data w) = w.
Proof.
  unfold has_data, bind, get_self, read_frame, ret.
  destruct (leads_df (self w)); [|reflexivity].
  now destruct (frames w !! _).
Qed.

Lemma column_of_pure d c w : snd (column_of d c w) = w.
Proof. unfold column_of. now destruct (Frame.has_column c d). Qed.

Lemma sort_values_pure c d w : snd (sort_values pf c d w) = w.
Proof.
  unfold sort_values, bind, column_of.
  destruct (Frame.has_column c d); [|reflexivity].
  now destruct (comparable _).
Qed.

Lemma sort_values_desc_asc_pure c1 c2 d w :
  snd (sort_values_desc_asc c1 c2 d w) = w.
Proof.
  unfold sort_values_desc_asc, bind, column_of.
  destruct (Frame.has_column c1 d); [|reflexivity].
  destruct (Frame.has_column c2 d); [|reflexivity].
  now destruct (_ && _).
Qed.

(** Allocation: the new reference is not one of the old objects, so the
    continuation may change it in place. *)
Lemma preserves_new_frame {B} d (k : loc -> M B) :
  (forall l, frames w0 !! l = None -> preserves (untouched w0) (k l)) ->
  preserves (untouched w0) (bind (new_frame d) k).
Proof.
  intros Hk w H. rewrite bind_new_frame.
  apply Hk; [now apply untouched_fresh|now apply untouched_alloc].
Qed.

Lemma preserves_new_frame_last d :
  preserves (untouched w0) (new_frame d).
Proof. intros w H. cbn. now apply untouched_alloc. Qed.

Lemma preserves_modify l f :
  frames w0 !! l = None -> preserves (untouched w0) (modify_frame l f).
Proof.
  intros Hl w (Hs & Hb & Hf). unfold modify_frame.
  destruct (frames w !! l); cbn; [|now split].
  split; [exact Hs|]. split; [exact Hb|]. cbn.
  apply map_subseteq_spec. intros i x Hi.
  rewrite lookup_insert_ne; [exact (lookup_weaken _ _ _ _ Hi Hf)|].
  intros ->. congruence.
Qed.

End Rules.
End ReadOnly.

Ltac frame_step :=
  first
    [ apply preserves_ret
    | apply preserves_raise
    | apply preserves_new_frame_last
    | apply preserves_new_frame; intros ? ?
    | apply preserves_try
    | apply preserves_modify; assumption
    | apply preserves_pure;
      first [ apply has_data_pure | apply the_leads_pure
            | apply get_self_pure | apply read_frame_pure
            | apply column_of_pure | apply sort_values_pure
            | apply sort_values_desc_asc_pure ]
    | apply preserves_bind; [|intros ?]
    | match goal with
      | |- preserves _ (if ?c then _ else _) => destruct c
      | |- preserves _ (match ?c with _ => _ end) => destruct c
      end
    | progress cbv zeta ].

Section QueriesReadOnly.

Variable pf : Platform.
Variable w0 : World.

Lemma get_filtered_leads_preserves search_term status_filter priority_filter :
  preserves (untouched w0)
    (get_filtered_leads pf search_term status_filter priority_filter).
Proof. unfold get_filtered_leads. repeat frame_step. Qed.

Lemma sorted_view_preserves mask :
  preserves (untouched w0) (sorted_view pf mask).
Proof. unfold sorted_view. repeat frame_step. Qed.

Lemma get_upcoming_followups_preserves now days_ahead :
  preserves (untouched w0) (get_upcoming_followups pf now days_ahead).
Proof.
  unfold get_upcoming_followups. repeat frame_step.
Qed.

Lemma get_overdue_followups_preserves now :
  preserves (untouched w0) (get_overdue_followups pf now).
Proof.
  unfold get_overdue_followups. repeat frame_step.
Qed.

Lemma get_daily_tasks_preserves date :
  preserves (untouched w0) (get_daily_tasks pf date).
Proof. unfold get_daily_tasks. repeat frame_step. Qed.

Lemma get_unique_statuses_preserves :
  preserves (untouched w0) (get_unique_statuses pf).
Proof. unfold get_unique_statuses. repeat frame_step. Qed.

Lemma get_analytics_preserves now :
  preserves (untouched w0) (get_analytics pf now).
Proof. unfold get_analytics. repeat frame_step. Qed.

(** The frame [get_daily_tasks] returns has no column the store does
    not have. *)
Lemma get_daily_tasks_columns date w l' w' v :
  get_daily_tasks pf date w = (Return l', w') ->
  frames w' !! l' = Some v ->
  incl (columns v) (store_columns w).
Proof.
  unfold get_daily_tasks, store_columns, store.
  destruct (leads_df (self w)) as [l|] eqn:Hl.
  2:{ unfold has_data at 1. rewrite bind_assoc, bind_get_self, Hl. cbn.
      intros [= <- <-]. cbn. rewrite lookup_insert_eq.
      intros [= <-]. apply incl_nil_l. }
  destruct (frames w !! l) as [d|] eqn:Hd.
  2:{ unfold has_data at 1. rewrite bind_assoc, bind_get_self, Hl.
      unfold bind, read_frame. rewrite Hd. discriminate. }
  mstep. destruct (Frame.empty d) eqn:He; cbn [negb].
  { cbn. intros [= <- <-]. cbn. rewrite lookup_insert_eq.
    intros [= <-]. apply incl_nil_l. }
  do 2 mstep.
  destruct (Frame.has_column "follow_up_date" d) eqn:H1;
    [rewrite bind_column_of by exact H1
    |unfold column_of at 1; rewrite H1; discriminate].
  destruct (Frame.has_column "follow_up_completed" d) eqn:H2;
    [rewrite bind_column_of by exact H2
    |unfold column_of at 1; rewrite H2; discriminate].
  do 2 mstep.
  set (sel := Frame.select (daily_mask pf (normalize date)) d).
  destruct (Frame.empty sel) eqn:E; cbn [negb].
  { cbn. intros [= <- <-]. cbn. rewrite lookup_insert_eq.
    intros [= <-]. apply incl_refl. }
  destruct (Frame.has_column "priority" sel) eqn:H3;
    [rewrite bind_column_of by exact H3
    |unfold column_of at 1; rewrite H3; discriminate].
  do 2 mstep. rewrite put_frame_put.
  unfold sort_values_desc_asc.
  rewrite bind_assoc, bind_column_of
    by (apply FrameFacts.has_column_In; cbn;
        apply FrameFacts.add_column_has).
  rewrite bind_assoc, bind_column_of
    by (apply FrameFacts.has_column_In; cbn;
        apply FrameFacts.add_column_keeps;
        now apply FrameFacts.has_column_In).
  destruct (_ && _); [|discriminate].
  do 3 mstep. cbn. intros [= <- <-]. cbn. rewrite lookup_insert_eq.
  intros [= <-]. cbn. intros c Hin.
  apply filter_In in Hin as [Hin Hne].
  apply FrameFacts.add_column_only in Hin as [->|Hin]; [|exact Hin].
  now rewrite String.eqb_refl in Hne.
Qed.

Lemma query_unchanged {A} (k : bool -> M A) w :
  preserves (untouched w) (bind has_data k) ->
  unchanged_by (bind has_data k) w.
Proof.
  intros H. destruct (H w (untouched_refl w)) as (Hs & Hb & Hf).
  unfold unchanged_by. cbv zeta.
  split; [exact Hs|]. split; [|split; [exact Hb|exact Hf]].
  destruct (store w) as [d|] eqn:Hst.
  - apply (untouched_store w); [|exact Hst]. now split.
  - unfold store in *. rewrite Hs.
    destruct (leads_df (self w)) as [l|] eqn:Hl; [|reflexivity].
    assert (E : bind has_data k w = (Raise Dangling, w)).
    { unfold has_data. rewrite bind_assoc, bind_get_self, Hl.
      unfold bind, read_frame. now rewrite Hst. }
    now rewrite E.
Qed.

End QueriesReadOnly.

(** C10. Whatever the state and the arguments, and however the call
    ends, each of [get_filtered_leads], [get_upcoming_followups],
    [get_overdue_followups], [get_daily_tasks], [get_unique_statuses] and
    [get_analytics] leaves the Lead Store table, the column mapping, the
    original-columns list and the gateway as they were, and every frame
    that existed keeps its content; and the frame [get_daily_tasks]
    returns has no column that the store does not have, so the sort key
    [priority_order] is in neither. *)
Theorem queries_change_nothing (pf : Platform) (w : World) :
  (forall search_term status_filter priority_filter,
     unchanged_by
       (get_filtered_leads pf search_term status_filter priority_filter) w)
  /\ (forall now days_ahead,
        unchanged_by (get_upcoming_followups pf now days_ahead) w)
  /\ (forall now, unchanged_by (get_overdue_followups pf now) w)
  /\ (forall date, unchanged_by (get_daily_tasks pf date) w)
  /\ unchanged_by (get_unique_statuses pf) w
  /\ (forall now, unchanged_by (get_analytics pf now) w)
  /\ (forall date l' w' v,
        get_daily_tasks pf date w = (Return l', w') ->
        frame_at w' l' = Some v ->
        incl (columns v) (store_columns w)).
Proof.
  split; [intros; apply query_unchanged, get_filtered_leads_preserves|].
  split; [intros; apply query_unchanged, get_upcoming_followups_preserves|].
  split; [intros; apply query_unchanged, get_overdue_followups_preserves|].
  split; [intros; apply query_unchanged, get_daily_tasks_preserves|].
  split; [apply query_unchanged, get_unique_statuses_preserves|].
  split; [intros; apply query_unchanged, get_analytics_preserves|].
  intros date l' w' v. apply get_daily_tasks_columns.
Qed.

(** ** E-mail extraction *)

Section Emails.

(** What [get_multiple_emails] does with the cell it finds. *)
Lemma get_multiple_emails_eval w l d lead_idx r :
  leads_df (self w) = Some l -> frames w !! l = Some d ->
  let email_col := mapped_first (column_mapping (self w)) "email" in
  Frame.has_column email_col d = true ->
  Frame.find_row lead_idx (rows d) = Some r ->
  get_multiple_emails lead_idx w
  = (let email_value := Frame.cell r email_col in
     if negb (truthy email_value) || eq_str email_value "None"
     then ret []
     else match email_value with
          | VStr cell => ret (emails_of_cell cell)
          | _ => raise (AttributeError "split")
          end) w.
Proof.
  intros Hl Hd email_col Hc Hr. unfold get_multiple_emails. do 3 mstep.
  change (get_default (column_mapping (self w)) "email" "email")
    with email_col.
  rewrite Hc. cbn [negb]. unfold get_loc. rewrite Hr, Hc.
  now rewrite bind_ret.
Qed.

(** The cell of the specification's example. *)
Lemma get_multiple_emails_example w d lead_idx r :
  store w = Some d ->
  let email_col := mapped_first (column_mapping (self w)) "email" in
  Frame.has_column email_col d = true ->
  Frame.find_row lead_idx (rows d) = Some r ->
  Frame.cell r email_col = VStr "a@x.com; b@y.com,a@x.com" ->
  get_multiple_emails lead_idx w = (Return ["a@x.com"; "b@y.com"], w).
Proof.
  intros Hs email_col Hc Hr Hv. destruct (store_inv w d Hs) as (l & Hl & Hd).
  rewrite (get_multiple_emails_eval w l d lead_idx r Hl Hd Hc Hr).
  fold email_col. rewrite Hv. reflexivity.
Qed.

(** [None] in the cell, or no e-mail column at all: the empty list. *)
Lemma get_multiple_emails_none w d lead_idx r :
  store w = Some d ->
  let email_col := mapped_first (column_mapping (self w)) "email" in
  Frame.has_column email_col d = true ->
  Frame.find_row lead_idx (rows d) = Some r ->
  Frame.cell r email_col = VNone ->
  get_multiple_emails lead_idx w = (Return [], w).
Proof.
  intros Hs email_col Hc Hr Hv. destruct (store_inv w d Hs) as (l & Hl & Hd).
  rewrite (get_multiple_emails_eval w l d lead_idx r Hl Hd Hc Hr).
  fold email_col. rewrite Hv. reflexivity.
Qed.

Lemma get_multiple_emails_absent w d lead_idx :
  store w = Some d ->
  Frame.has_column (mapped_first (column_mapping (self w)) "email") d = false ->
  get_multiple_emails lead_idx w = (Return [], w).
Proof.
  intros Hs Hc. destruct (store_inv w d Hs) as (l & Hl & Hd).
  unfold get_multiple_emails. do 3 mstep.
  change (get_default (column_mapping (self w)) "email" "email")
    with (mapped_first (column_mapping (self w)) "email").
  now rewrite Hc.
Qed.

(** C5 (what the code does). The example of the claim holds
    ([get_multiple_emails_example]), and so do a [None] cell and a
    missing column; but a cell that is NaN, the null of a blank numeric
    column or of a record added by enlargement, is true for Python, is
    not the text "None", and has no [split]: the call raises. *)
Theorem get_multiple_emails_nan_raises w d lead_idx r :
  store w = Some d ->
  let email_col := mapped_first (column_mapping (self w)) "email" in
  Frame.has_column email_col d = true ->
  Frame.find_row lead_idx (rows d) = Some r ->
  Frame.cell r email_col = VNaN ->
  get_multiple_emails lead_idx w = (Raise (AttributeError "split"), w).
Proof.
  intros Hs email_col Hc Hr Hv. destruct (store_inv w d Hs) as (l & Hl & Hd).
  rewrite (get_multiple_emails_eval w l d lead_idx r Hl Hd Hc Hr).
  fold email_col. rewrite Hv. reflexivity.
Qed.

End Emails.

(** ** The time windows *)

Section Windows.

Variable pf : Platform.

(** Compared as instants, the three windows do partition the open
    follow-ups whose date can be read. *)
Lemma windows_partition_instants today n r t :
  0 <= n ->
  open_followup r = true ->
  to_datetime pf (Frame.cell r "follow_up_date") = Some t ->
  let end_date := today + n * NS_PER_DAY in
  (overdue_mask pf today r = true
   /\ upcoming_mask pf today end_date r = false /\ ~ end_date < t)
  \/ (overdue_mask pf today r = false
      /\ upcoming_mask pf today end_date r = true /\ ~ end_date < t)
  \/ (overdue_mask pf today r = false
      /\ upcoming_mask pf today end_date r = false /\ end_date < t).
Proof.
  intros Hn Ho Ht end_date.
  assert (Hd : 0 <= n * NS_PER_DAY) by (unfold NS_PER_DAY; lia).
  unfold overdue_mask, upcoming_mask, date_test. rewrite Ho, Ht. cbn [andb].
  subst end_date.
  destruct (Z.ltb_spec t today), (Z.leb_spec today t),
    (Z.leb_spec t (today + n * NS_PER_DAY)); cbn; try lia.
  all: first [ left; repeat split; (reflexivity || lia)
             | right; left; repeat split; (reflexivity || lia)
             | right; right; repeat split; (reflexivity || lia) ].
Qed.

(** An unreadable date is in no window. *)
Lemma unreadable_date_in_no_window today end_date r :
  to_datetime pf (Frame.cell r "follow_up_date") = None ->
  overdue_mask pf today r = false
  /\ upcoming_mask pf today end_date r = false.
Proof.
  intros Ht. unfold overdue_mask, upcoming_mask, date_test. rewrite Ht.
  now rewrite !andb_false_r.
Qed.

End Windows.

(** C3 (what the code does). Today being day 0 and N = 7, two open
    follow-ups fall on the same calendar day, day 7: one at midnight,
    one at 15:00.  [get_upcoming_followups(7)] returns the first only,
    [get_overdue_followups()] returns neither, and neither is more than
    seven days after today; [get_daily_tasks] of that day returns both.
    The upper bound of the upcoming window is the instant of midnight,
    not the day. *)
Theorem upcoming_window_depends_on_time_of_day :
  column_values (the_store boundary_world) "follow_up_date"
  = [VTime midnight_day7; VTime afternoon_day7]
  /\ column_values (the_store boundary_world) "follow_up_completed"
     = [VBool false; VBool false]
  /\ normalize midnight_day7 = normalize 1000 + 7 * NS_PER_DAY
  /\ normalize afternoon_day7 = normalize 1000 + 7 * NS_PER_DAY
  /\ result_index
       (get_upcoming_followups demo_platform 1000 7 boundary_world)
     = Some [0]
  /\ result_index (get_overdue_followups demo_platform 1000 boundary_world)
     = Some []
  /\ result_index
       (get_daily_tasks demo_platform midnight_day7 boundary_world)
     = Some [0; 1].
Proof. repeat split; vm_compute; reflexivity. Qed.

(** ** The statements at work on concrete tables *)

Lemma returns_index (res : outcome loc * World) ix :
  result_index res = Some ix -> returns res.
Proof.
  destruct res as [[l|e] w]; cbn; [|discriminate].
  intros _. now exists l, w.
Qed.

Lemma lacks_return lead_idx l w :
  lacks lead_idx (Return l, w) ->
  exists v, frame_at w l = Some v /\ ~ In lead_idx (Frame.index v).
Proof. intros H. exact H. Qed.


Lemma missing_id_mutations_enlarge_witness :
  (store demo_world = Some (the_store demo_world)
   /\ normalized (the_store demo_world) = true
   /\ Frame.empty (the_store demo_world) = false
   /\ Frame.has_label 7 (the_store demo_world) = false
   /\ PyStr.is_empty (PyStr.strip "High") = false)
  /\ exists w' d',
       update_lead_priority demo_platform 7 "High" demo_world
       = (Return tt, w')
       /\ store w' = Some d' /\ Frame.index d' = [0; 1; 2; 7].
Proof.
  assert (H1 : store demo_world = Some (the_store demo_world))
    by (apply the_store_some; vm_compute; reflexivity).
  assert (H2 : normalized (the_store demo_world) = true)
    by (vm_compute; reflexivity).
  assert (H3 : Frame.empty (the_store demo_world) = false)
    by (vm_compute; reflexivity).
  assert (H4 : Frame.has_label 7 (the_store demo_world) = false)
    by (vm_compute; reflexivity).
  assert (H5 : PyStr.is_empty (PyStr.strip "High") = false)
    by (vm_compute; reflexivity).
  split; [split; [exact H1|split; [exact H2|split; [exact H3|
          split; [exact H4|exact H5]]]]|].
  destruct (missing_id_mutations_enlarge demo_platform demo_world
              (the_store demo_world) 0 7 "High" 0 H1 H2 H3 H4 H5)
    as (_ & (w' & d' & Hrun & Hs & Hi) & _).
  exists w', d'. split; [exact Hrun|]. split; [exact Hs|].
  rewrite Hi. vm_compute. reflexivity.
Defined.

Lemma get_multiple_emails_nan_raises_witness :
  (store blank_email_world = Some (the_store blank_email_world)
   /\ Frame.has_column "email" (the_store blank_email_world) = true
   /\ Frame.find_row 0 (rows (the_store blank_email_world))
      = Some (default ∅
                (Frame.find_row 0 (rows (the_store blank_email_world))))
   /\ Frame.cell
        (default ∅ (Frame.find_row 0 (rows (the_store blank_email_world))))
        "email" = VNaN)
  /\ get_multiple_emails 0 blank_email_world
     = (Raise (AttributeError "split"), blank_email_world).
Proof.
  assert (H1 : store blank_email_world = Some (the_store blank_email_world))
    by (apply the_store_some; vm_compute; reflexivity).
  assert (H2 : Frame.has_column "email" (the_store blank_email_world) = true)
    by (vm_compute; reflexivity).
  assert (H3 : Frame.find_row 0 (rows (the_store blank_email_world))
               = Some (default ∅
                         (Frame.find_row 0
                            (rows (the_store blank_email_world)))))
    by (apply some_default; vm_compute; reflexivity).
  assert (H4 : Frame.cell
                 (default ∅
                    (Frame.find_row 0 (rows (the_store blank_email_world))))
                 "email" = VNaN) by (vm_compute; reflexivity).
  split; [split; [exact H1|split; [exact H2|split; [exact H3|exact H4]]]|].
  exact (get_multiple_emails_nan_raises blank_email_world
           (the_store blank_email_world) 0 _ H1 H2 H3 H4).
Defined.

(** Record 0 of the boundary table has an open follow-up at midnight of
    day 7: it is overdue on day 8 and a task of day 7.  Completing it
    takes it out of both views. *)
Lemma complete_followup_removes_and_is_idempotent_witness :
  (store boundary_world = Some (the_store boundary_world)
   /\ normalized (the_store boundary_world) = true
   /\ Frame.has_label 0 (the_store boundary_world) = true)
  /\ result_index
       (get_overdue_followups demo_platform (8 * NS_PER_DAY) boundary_world)
     = Some [0; 1]
  /\ result_index
       (get_daily_tasks demo_platform midnight_day7 boundary_world)
     = Some [0; 1]
  /\ exists w1,
       complete_followup demo_platform 0 0 boundary_world = (Return tt, w1)
       /\ (exists l w2 v,
             get_overdue_followups demo_platform (8 * NS_PER_DAY) w1
             = (Return l, w2)
             /\ frame_at w2 l = Some v /\ ~ In 0 (Frame.index v))
       /\ (exists l w2 v,
             get_daily_tasks demo_platform midnight_day7 w1 = (Return l, w2)
             /\ frame_at w2 l = Some v /\ ~ In 0 (Frame.index v)).
Proof.
  assert (H1 : store boundary_world = Some (the_store boundary_world))
    by (apply the_store_some; vm_compute; reflexivity).
  assert (H2 : normalized (the_store boundary_world) = true)
    by (vm_compute; reflexivity).
  assert (H3 : Frame.has_label 0 (the_store boundary_world) = true)
    by (vm_compute; reflexivity).
  assert (H4 : result_index
                 (get_overdue_followups demo_platform (8 * NS_PER_DAY)
                    boundary_world) = Some [0; 1])
    by (vm_compute; reflexivity).
  assert (H5 : result_index
                 (get_daily_tasks demo_platform midnight_day7 boundary_world)
               = Some [0; 1])
    by (vm_compute; reflexivity).
  split; [split; [exact H1|split; [exact H2|exact H3]]|].
  split; [exact H4|]. split; [exact H5|].
  destruct (complete_followup_removes_and_is_idempotent demo_platform
              boundary_world (the_store boundary_world) 0 0 H1 H2 H3)
    as (w1 & d1 & Hrun & _ & _ & Hover & Hdaily & _).
  exists w1. split; [exact Hrun|].
  destruct (Hover (8 * NS_PER_DAY)) as [Ho1 Ho2].
  destruct (Hdaily midnight_day7) as [Hd1 Hd2].
  destruct (Ho2 (returns_index _ _ H4)) as (lo & wo & Eo).
  destruct (Hd2 (returns_index _ _ H5)) as (ld & wd & Ed).
  rewrite Eo in Ho1. rewrite Ed in Hd1.
  destruct (lacks_return _ _ _ Ho1) as (vo & Hvo & Hno).
  destruct (lacks_return _ _ _ Hd1) as (vd & Hvd & Hnd).
  split.
  - exists lo, wo, vo. split; [exact Eo|]. split; [exact Hvo|exact Hno].
  - exists ld, wd, vd. split; [exact Ed|]. split; [exact Hvd|exact Hnd].
Defined.

(** Record 0 of the boundary table once its follow-up was completed:
    its flag is true; a new follow-up date makes it false again. *)
Lemma schedule_followup_reopens_witness :
  (store completed_world = Some (the_store completed_world)
   /\ normalized (the_store completed_world) = true
   /\ Frame.has_label 0 (the_store completed_world) = true)
  /\ previous (the_store completed_world) 0 "follow_up_completed"
     = VBool true
  /\ exists w' d',
       schedule_followup demo_platform 0 afternoon_day7 completed_world
       = (Return tt, w')
       /\ store w' = Some d'
       /\ get_loc d' 0 "follow_up_date" w'
          = (Return (VTime afternoon_day7), w')
       /\ get_loc d' 0 "follow_up_completed" w'
          = (Return (VBool false), w').
Proof.
  assert (H1 : store completed_world = Some (the_store completed_world))
    by (apply the_store_some; vm_compute; reflexivity).
  assert (H2 : normalized (the_store completed_world) = true)
    by (vm_compute; reflexivity).
  assert (H3 : Frame.has_label 0 (the_store completed_world) = true)
    by (vm_compute; reflexivity).
  split; [split; [exact H1|split; [exact H2|exact H3]]|].
  split; [vm_compute; reflexivity|].
  destruct (schedule_followup_reopens demo_platform completed_world
              (the_store completed_world) 0 afternoon_day7 H1 H2 H3)
    as (w' & d' & Hrun & Hs & _ & Hd & Hc & _).
  exists w', d'. split; [exact Hrun|]. split; [exact Hs|].
  split; [exact Hd|exact Hc].
Defined.


Lemma load_data_injects_management_columns_witness :
  frames (fresh_world demo_import) !! 1%positive = Some demo_import
  /\ exists w' d',
       load_data demo_platform 1%positive demo_mapping
         (fresh_world demo_import) = (Return tt, w')
       /\ store w' = Some d'
       /\ Forall (fun c => Frame.has_column c d' = true) management_columns.
Proof.
  assert (H1 : frames (fresh_world demo_import) !! 1%positive
               = Some demo_import) by reflexivity.
  split; [exact H1|].
  destruct (load_data_injects_management_columns demo_platform
              (fresh_world demo_import) 1%positive demo_import demo_mapping
              H1) as ((w' & d' & Hrun & Hs & _ & Hc & _) & _).
  exists w', d'. split; [exact Hrun|]. split; [exact Hs|exact Hc].
Defined.

(** The example of the specification, on the imported table. *)
Example get_multiple_emails_demo :
  get_multiple_emails 0 demo_world
  = (Return ["a@x.com"; "b@y.com"], demo_world).
Proof.
  assert (H1 : store demo_world = Some (the_store demo_world))
    by (apply the_store_some; vm_compute; reflexivity).
  apply (get_multiple_emails_example demo_world (the_store demo_world) 0
           (default ∅ (Frame.find_row 0 (rows (the_store demo_world))))
           H1).
  - vm_compute; reflexivity.
  - apply some_default; vm_compute; reflexivity.
  - vm_compute; reflexivity.
Qed.

Example split_values_demo :
  split_values "a@x.com; b@y.com,a@x.com" = ["a@x.com"; "b@y.com"]
  /\ PyStr.join ", " (split_values "x|y;;x , z") = "x, y, z".
Proof. split; vm_compute; reflexivity. Qed.

(** ** What the splitter produces *)

Section SplitterResults.
Import PyStr PyStrFacts.

(** X1. Every value [_process_multiple_values] keeps of a cell is a
    fragment: not empty, without white space at either end, and free of
    the separators [;], [,], [|] and the line feed. *)
Theorem split_values_fragments x : Forall fragment (split_values x).
Proof.
  unfold split_values. apply fromkeys_Forall, cascade_fragments. now left.
Qed.

(** X2. The addresses [get_multiple_emails] makes of a cell are exactly
    the fragments of the cell that hold an [@] and a dot after the last
    [@]; none of them comes twice. *)
Theorem emails_of_cell_spec x :
  List.NoDup (emails_of_cell x)
  /\ (forall e, In e (emails_of_cell x) <->
                In e (cascade separators_read x) /\ valid_email e = true)
  /\ Forall fragment (emails_of_cell x).
Proof.
  unfold emails_of_cell. split; [apply fromkeys_nodup|]. split.
  - intros e. rewrite fromkeys_In. apply filter_In.
  - apply fromkeys_Forall. apply List.Forall_forall. intros e He.
    apply filter_In in He as [He _].
    pose proof (cascade_fragments separators_read x (or_intror eq_refl)) as F.
    rewrite List.Forall_forall in F. now apply F.
Qed.



End SplitterResults.

(** ** Product extraction *)

Section Products.
Import PyStr PyStrFacts FrameFacts.

Lemma cascade_read_empty : cascade separators_read "" = [].
Proof. reflexivity. Qed.

(** One turn of the loop, on a cell that is text or [None]. *)
Lemma products_of_column_eval d lead_idx r acc c w :
  Frame.find_row lead_idx (rows d) = Some r ->
  negb (Frame.has_column c d) || text_or_none (Frame.cell r c) = true ->
  exists out,
    products_of_column d lead_idx acc c w = (Return out, w)
    /\ forall p, In p out <->
         In p acc
         \/ exists s, Frame.has_column c d = true
                      /\ Frame.cell r c = VStr s /\ s <> "None"
                      /\ In p (cascade separators_read s).
Proof.
  intros Hr Hc. unfold products_of_column.
  destruct (Frame.has_column c d) eqn:Hcol.
  2:{ exists acc. split; [reflexivity|]. intros p. split; [now left|].
      intros [H|(s & H & _)]; [exact H|discriminate]. }
  cbn [negb orb] in Hc.
  rewrite (bind_return _ _ _ _ _ (get_loc_eval d lead_idx c r w Hr Hcol)).
  destruct (Frame.cell r c) as [| |s| | |] eqn:Hv; try discriminate.
  - exists acc. split; [reflexivity|]. intros p. split; [now left|].
    intros [H|(s & _ & H & _)]; [exact H|discriminate].
  - cbn [truthy eq_str].
    destruct s as [|a s'].
    + exists acc. split; [reflexivity|]. intros p. split; [now left|].
      intros [H|(s & _ & [= <-] & _ & H)]; [exact H|].
      rewrite cascade_read_empty in H. destruct H.
    + cbn [is_empty negb andb].
      destruct (String.eqb (String a s') "None") eqn:Hnone; cbn [negb].
      * apply String.eqb_eq in Hnone.
        exists acc. split; [reflexivity|]. intros p. split; [now left|].
        intros [H|(s & _ & [= <-] & Hs & _)]; [exact H|].
        now destruct Hs.
      * apply String.eqb_neq in Hnone.
        eexists. split; [reflexivity|]. intros p. rewrite in_app_iff.
        split.
        -- intros [H|H]; [now left|]. right. now exists (String a s').
        -- intros [H|(s & _ & [= <-] & _ & H)]; [now left|now right].
Qed.

Lemma fold_products_eval d lead_idx r w cols : forall acc,
  Frame.find_row lead_idx (rows d) = Some r ->
  forallb (fun c => negb (Frame.has_column c d)
                    || text_or_none (Frame.cell r c)) cols = true ->
  exists out,
    fold_m (products_of_column d lead_idx) cols acc w = (Return out, w)
    /\ forall p, In p out <->
         In p acc
         \/ exists c s, In c cols /\ Frame.has_column c d = true
                        /\ Frame.cell r c = VStr s /\ s <> "None"
                        /\ In p (cascade separators_read s).
Proof.
  induction cols as [|c cols IH]; intros acc Hr Hall.
  - exists acc. split; [reflexivity|]. intros p. split; [now left|].
    intros [H|(c & s & [] & _)]. exact H.
  - cbn [forallb] in Hall. apply andb_true_iff in Hall as [Hc Hall].
    destruct (products_of_column_eval d lead_idx r acc c w Hr Hc)
      as (mid & Hmid & Smid).
    destruct (IH mid Hr Hall) as (out & Hout & Sout).
    exists out. split.
    + cbn [fold_m]. now rewrite (bind_return _ _ _ _ _ Hmid).
    + intros p. rewrite Sout, Smid. split.
      * intros [[H|(s & H)]|(c' & s & Hin & H)].
        -- now left.
        -- right. exists c, s. split; [now left|exact H].
        -- right. exists c', s. split; [now right|exact H].
      * intros [H|(c' & s & [<-|Hin] & H)].
        -- now left; left.
        -- left; right. now exists s.
        -- right. now exists c', s.
Qed.

(** X4. For a record in the table whose product cells hold text or
    [None], [get_multiple_products] returns, without duplicates, exactly
    the fragments of the cells of the product columns (the columns whose
    name holds "product", "item", "service" or "offering", and the
    column mapped to [products]); a cell that is empty or the text
    "None" gives nothing, and the manager is left as it was. *)
Theorem get_multiple_products_spec w d lead_idx r :
  store w = Some d ->
  Frame.find_row lead_idx (rows d) = Some r ->
  forallb (fun c => negb (Frame.has_column c d)
                    || text_or_none (Frame.cell r c))
          (product_columns (column_mapping (self w)) d) = true ->
  exists products,
    get_multiple_products lead_idx w = (Return products, w)
    /\ List.NoDup products
    /\ Forall fragment products
    /\ forall p, In p products <->
         exists c s, In c (product_columns (column_mapping (self w)) d)
                     /\ Frame.has_column c d = true
                     /\ Frame.cell r c = VStr s /\ s <> "None"
                     /\ In p (cascade separators_read s).
Proof.
  intros Hs Hr Hall. destruct (store_inv w d Hs) as (l & Hl & Hd).
  destruct (fold_products_eval d lead_idx r w _ [] Hr Hall)
    as (out & Hout & Sout).
  exists (fromkeys out). split; [|split; [apply fromkeys_nodup|split]].
  - unfold get_multiple_products. do 3 mstep.
    now rewrite (bind_return _ _ _ _ _ Hout).
  - apply fromkeys_Forall. apply List.Forall_forall. intros p Hp.
    apply Sout in Hp as [[]|(c & s & _ & _ & _ & _ & Hp)].
    pose proof (cascade_fragments separators_read s (or_intror eq_refl)) as F.
    rewrite List.Forall_forall in F. now apply F.
  - intros p. rewrite fromkeys_In, Sout. split.
    + intros [[]|H]. exact H.
    + intros H. now right.
Qed.

(** X5. A product cell that is NaN (a record added by enlargement, or
    a blank numeric column) makes [get_multiple_products] raise: NaN is
    true for Python and has no [split]. *)
Theorem get_multiple_products_nan_raises w d lead_idx r c rest :
  store w = Some d ->
  Frame.find_row lead_idx (rows d) = Some r ->
  product_columns (column_mapping (self w)) d = c :: rest ->
  Frame.has_column c d = true ->
  Frame.cell r c = VNaN ->
  get_multiple_products lead_idx w = (Raise (AttributeError "split"), w).
Proof.
  intros Hs Hr Hcols Hc Hv. destruct (store_inv w d Hs) as (l & Hl & Hd).
  unfold get_multiple_products. do 3 mstep. rewrite Hcols.
  cbn [fold_m]. unfold products_of_column at 1. rewrite Hc.
  rewrite !bind_assoc.
  rewrite (bind_return _ _ _ _ _ (get_loc_eval d lead_idx c r w Hr Hc)).
  rewrite Hv. reflexivity.
Qed.

End Products.

(** ** The list of statuses *)

Section Statuses.
Import PyStr PyStrFacts FrameFacts.

Variable pf : Platform.

Lemma insert_sorted_In x y xs :
  In y (insert_sorted x xs) <-> y = x \/ In y xs.
Proof.
  induction xs as [|z xs IH]; cbn; [intuition|].
  destruct (String.leb x z); cbn; rewrite ?IH; intuition.
Qed.

Lemma sorted_In y xs : In y (sorted xs) <-> In y xs.
Proof.
  induction xs as [|x xs IH]; cbn; [tauto|].
  rewrite insert_sorted_In, IH. intuition.
Qed.

Lemma insert_sorted_NoDup x xs :
  ~ In x xs -> List.NoDup xs -> List.NoDup (insert_sorted x xs).
Proof.
  induction xs as [|z xs IH]; intros Hx Hn; cbn.
  - constructor; [easy|constructor].
  - destruct (String.leb x z); [now constructor|].
    inversion Hn as [|? ? Hz Hn']; subst. constructor.
    + rewrite insert_sorted_In. intros [->|H]; [|easy]. apply Hx. now left.
    + apply IH; [|exact Hn']. intros H. apply Hx. now right.
Qed.

Lemma sorted_NoDup xs : List.NoDup xs -> List.NoDup (sorted xs).
Proof.
  induction 1 as [|x xs Hx Hn IH]; cbn; [constructor|].
  apply insert_sorted_NoDup; [|exact IH]. now rewrite sorted_In.
Qed.

Lemma insert_sorted_HdRel a x xs :
  leb_true a x -> HdRel leb_true a xs -> HdRel leb_true a (insert_sorted x xs).
Proof.
  intros Hax Hh. destruct xs as [|z xs]; cbn; [now constructor|].
  destruct (String.leb x z); constructor; [exact Hax|].
  now inversion Hh.
Qed.

Lemma insert_sorted_Sorted x xs :
  Sorted leb_true xs -> Sorted leb_true (insert_sorted x xs).
Proof.
  induction 1 as [|z xs Hs IH Hh]; cbn; [repeat constructor|].
  destruct (String.leb x z) eqn:E.
  - constructor; [now constructor|]. now constructor.
  - constructor; [exact IH|]. apply insert_sorted_HdRel; [|exact Hh].
    destruct (String.leb_total z x) as [H|H]; [exact H|congruence].
Qed.

Lemma sorted_Sorted xs : Sorted leb_true (sorted xs).
Proof.
  induction xs as [|x xs IH]; cbn; [constructor|].
  now apply insert_sorted_Sorted.
Qed.

(** X6. [get_unique_statuses] returns, in ascending order and without
    duplicates, exactly the texts of the non-null cells of the column
    [mapping.get('status', 'status')], but for the empty text and the
    text "nan"; it returns the empty list when that column is missing,
    and it leaves the manager as it was. *)
Theorem get_unique_statuses_spec w d :
  store w = Some d ->
  let c := mapped_first (column_mapping (self w)) "status" in
  exists statuses,
    get_unique_statuses pf w = (Return statuses, w)
    /\ Sorted leb_true statuses
    /\ List.NoDup statuses
    /\ (forall s, In s statuses <->
          Frame.has_column c d = true
          /\ s <> "" /\ s <> "nan"
          /\ exists v, In v (column_values d c)
                       /\ notna v = true /\ str_of pf v = s).
Proof.
  intros Hs c. destruct (store_inv w d Hs) as (l & Hl & Hd).
  unfold get_unique_statuses. mstep.
  destruct (Frame.empty d) eqn:He; cbn [negb].
  - exists []. split; [reflexivity|]. split; [constructor|].
    split; [constructor|]. intros s. split; [intros []|].
    intros (Hc & _ & _ & v & Hv & _).
    unfold Frame.empty in He. apply has_column_In in Hc.
    unfold column_values in Hv.
    destruct (columns d); [destruct Hc|].
    destruct (rows d); [destruct Hv|discriminate].
  - unfold try_except. do 3 mstep. rewrite mapped_first_get. fold c.
    destruct (Frame.has_column c d) eqn:Hc.
    + eexists. split; [reflexivity|]. split; [apply sorted_Sorted|].
      split.
      * apply sorted_NoDup, List.NoDup_filter, fromkeys_nodup.
      * intros s. rewrite sorted_In, filter_In, fromkeys_In, in_map_iff.
        rewrite andb_true_iff, !negb_true_iff, String.eqb_neq.
        split.
        -- intros ((v & Hv & Hin) & Hne & Hnan).
           apply filter_In in Hin as [Hin Hna].
           split; [reflexivity|]. split.
           { intros ->. discriminate. }
           split; [exact Hnan|]. now exists v.
        -- intros (_ & Hne & Hnan & v & Hin & Hna & Hv).
           split; [|split; [|exact Hnan]].
           { exists v. split; [exact Hv|]. now apply filter_In. }
           destruct s; [now destruct Hne|reflexivity].
    + exists []. split; [reflexivity|]. split; [constructor|].
      split; [constructor|]. intros s. split; [intros []|].
      intros (H & _). discriminate.
Qed.

End Statuses.

(** ** The log and the saved table *)

Section Committed.
Import FrameFacts.

Variable pf : Platform.

Lemma save_to_database_data w l d :
  leads_df (self w) = Some l -> frames w !! l = Some d ->
  Frame.empty d = false ->
  save_to_database pf w
  = (Return tt,
     {| frames := frames w; self := self w;
        db := {| leads_table :=
                   saved_table pf d (self w) (leads_table (db w));
                 lead_updates := lead_updates (db w) |} |}).
Proof.
  intros Hl Hd He. unfold save_to_database, try_except.
  mstep. rewrite He. cbn [negb]. do 3 mstep.
  unfold save_leads_data, saved_table.
  destruct (to_json pf d); [reflexivity|].
  unfold bind, ret. now destruct w as [fr s [t u]].
Qed.

Lemma save_to_database_nodata w :
  has_data w = (Return false, w) -> save_to_database pf w = (Return tt, w).
Proof.
  intros H. unfold save_to_database, try_except.
  now rewrite (bind_return _ _ _ _ _ H).
Qed.

Lemma old_cell_previous d idx col w :
  (Frame.has_label idx d = true -> Frame.has_column col d = true) ->
  old_cell d idx col w = (Return (previous d idx col), w).
Proof.
  intros H. unfold old_cell, previous.
  destruct (Frame.has_label idx d) eqn:L.
  - unfold get_loc. apply has_label_In, find_row_label in L as [r ->].
    now rewrite H.
  - rewrite find_row_none; [reflexivity|].
    intros Hin. apply has_label_In in Hin. congruence.
Qed.

Ltac msave_data :=
  match goal with |- context [save_to_database ?p0 ?w0] =>
    erewrite (save_to_database_data w0)
      by (first [ lookup_now | apply set_loc_nonempty ])
  end.

Lemma update_lead_priority_exact w l d lead_idx new_priority :
  leads_df (self w) = Some l -> frames w !! l = Some d ->
  Frame.empty d = false ->
  (Frame.has_label lead_idx d = true ->
   Frame.has_column "priority" d = true) ->
  update_lead_priority pf lead_idx new_priority w
  = (Return tt,
     committed pf l (Frame.set_loc lead_idx "priority" (VStr new_priority) d)
       lead_idx
       (change pf lead_idx "priority" (previous d lead_idx "priority")
          (VStr new_priority)) w).
Proof.
  intros Hl Hd He Hc. unfold update_lead_priority.
  mstep. rewrite He. cbn [negb]. mstep. mstep.
  rewrite (bind_return _ _ _ _ _ (old_cell_previous d lead_idx _ w Hc)).
  do 2 mstep. msave_data. reflexivity.
Qed.

Lemma schedule_followup_exact w l d lead_idx date :
  leads_df (self w) = Some l -> frames w !! l = Some d ->
  Frame.empty d = false ->
  (Frame.has_label lead_idx d = true ->
   Frame.has_column "follow_up_date" d = true) ->
  schedule_followup pf lead_idx date w
  = (Return tt,
     committed pf l
       (Frame.set_loc lead_idx "follow_up_completed" (VBool false)
          (Frame.set_loc lead_idx "follow_up_date" (VTime date) d))
       lead_idx
       (change pf lead_idx "follow_up_date"
          (previous d lead_idx "follow_up_date") (VTime date)) w).
Proof.
  intros Hl Hd He Hc. unfold schedule_followup.
  mstep. rewrite He. cbn [negb]. mstep. mstep.
  rewrite (bind_return _ _ _ _ _ (old_cell_previous d lead_idx _ w Hc)).
  do 3 mstep. msave_data. unfold committed. cbn.
  now rewrite insert_insert_eq.
Qed.

Lemma complete_followup_exact w l d now lead_idx :
  leads_df (self w) = Some l -> frames w !! l = Some d ->
  Frame.empty d = false ->
  complete_followup pf now lead_idx w
  = (Return tt,
     committed pf l (completed (strftime_date pf now) lead_idx d) lead_idx
       (change pf lead_idx "follow_up_completed" (VBool false) (VBool true))
       w).
Proof.
  intros Hl Hd He. unfold complete_followup.
  mstep. rewrite He. cbn [negb]. do 4 mstep. msave_data.
  unfold committed, completed. cbn. now rewrite insert_insert_eq.
Qed.

Lemma update_lead_status_exact w l d now lead_idx new_status :
  leads_df (self w) = Some l -> frames w !! l = Some d ->
  Frame.empty d = false ->
  let m := column_mapping (self w) in
  let d1 := ensure_column m "status" VNone d in
  let col := target_column m "status" d in
  update_lead_status pf now lead_idx new_status w
  = (Return tt,
     committed pf l
       (Frame.set_loc lead_idx "last_contact" (VStr (strftime_date pf now))
          (Frame.set_loc lead_idx col (VStr new_status) d1))
       lead_idx
       (change pf lead_idx "status" (previous d1 lead_idx col)
          (VStr new_status)) w).
Proof.
  intros Hl Hd He m d1 col. unfold update_lead_status.
  mstep. rewrite He. cbn [negb]. do 3 mstep.
  pose proof (ensure_column_has m "status" VNone d) as Hc.
  subst d1 col. unfold target_column, ensure_column in *. fold m.
  destruct (Frame.has_column (get_default m "status" "status") d) eqn:E;
    cbn [negb].
  - do 2 mstep.
    rewrite (bind_return _ _ _ _ _
               (old_cell_previous d lead_idx _ w (fun _ => Hc))).
    do 3 mstep. msave_data. unfold committed. cbn.
    now rewrite insert_insert_eq.
  - do 4 mstep.
    match goal with |- context [bind (old_cell ?d1 ?i ?c) _ ?w1] =>
      rewrite (bind_return _ _ _ _ _
                 (old_cell_previous d1 i c w1 (fun _ => Hc))) end.
    do 3 mstep. msave_data. unfold committed. cbn.
    now rewrite !insert_insert_eq.
Qed.

Lemma add_note_exact w l d now lead_idx note r :
  leads_df (self w) = Some l -> frames w !! l = Some d ->
  Frame.empty d = false ->
  PyStr.is_empty (PyStr.strip note) = false ->
  let m := column_mapping (self w) in
  let d1 := ensure_column m "notes" (VStr "") d in
  let col := target_column m "notes" d in
  Frame.find_row lead_idx (rows d1) = Some r ->
  add_note pf now lead_idx note w
  = (Return tt,
     committed pf l
       (Frame.set_loc lead_idx col
          (VStr (stamped_note pf now (Frame.cell r col) note)) d1)
       lead_idx
       (change pf lead_idx "notes" (Frame.cell r col)
          (VStr (stamped_note pf now (Frame.cell r col) note))) w).
Proof.
  intros Hl Hd He Hn m d1 col Hr. unfold add_note.
  mstep. rewrite He, Hn. cbn [negb orb]. do 3 mstep.
  pose proof (ensure_column_has m "notes" (VStr "") d) as Hc.
  subst d1 col. unfold target_column, ensure_column in *. fold m.
  destruct (Frame.has_column (get_default m "notes" "notes") d) eqn:E;
    cbn [negb].
  - do 2 mstep. unfold get_loc at 1. rewrite Hr, Hc. do 3 mstep. msave_data.
    reflexivity.
  - do 4 mstep. unfold get_loc at 1. rewrite Hr, Hc. do 3 mstep. msave_data.
    unfold committed. cbn. now rewrite !insert_insert_eq.
Qed.

Lemma committed_store l d' i u w :
  leads_df (self w) = Some l -> store (committed pf l d' i u w) = Some d'.
Proof. intros Hl. unfold store. cbn. rewrite Hl. apply lookup_insert_eq. Qed.

Lemma committed_saved_after l d' i u w :
  leads_df (self w) = Some l -> saved_after pf w (committed pf l d' i u w).
Proof.
  intros Hl. exists d'. split; [now apply committed_store|].
  split; [reflexivity|]. intros j Hj. cbn. unfold saved_table.
  now rewrite Hj.
Qed.

Lemma logged_in_range i u log :
  in_int64 i = true -> logged i u log = (log ++ [u])%list.
Proof. intros H. unfold logged. now rewrite H. Qed.

Lemma logged_out_of_range i u log :
  in_int64 i = false -> logged i u log = log.
Proof. intros H. unfold logged. now rewrite H. Qed.

End Committed.

Section MutationEffects.
Import FrameFacts.

Variable pf : Platform.

Lemma previous_missing d lead_idx col :
  Frame.has_label lead_idx d = false -> previous d lead_idx col = VNone.
Proof.
  intros L. unfold previous. rewrite find_row_none; [reflexivity|].
  intros Hin. apply has_label_In in Hin. congruence.
Qed.

Lemma set_loc_others_kept idx col v d :
  Frame.has_label idx d = true ->
  others_kept idx d (Frame.set_loc idx col v d).
Proof.
  intros L. unfold others_kept, Frame.set_loc. cbn [rows]. rewrite L.
  induction (rows d) as [|[i r0] rs IH]; [reflexivity|].
  cbn [map List.filter fst]. case_bool_decide as E.
  - subst i. cbn [fst]. rewrite Z.eqb_refl. cbn [negb]. exact IH.
  - cbn [fst]. destruct (Z.eqb_spec i idx); [contradiction|].
    cbn [negb]. now rewrite IH.
Qed.

(** X7. On a store with data each of [update_lead_priority],
    [schedule_followup], [update_lead_status] and [complete_followup]
    calls [update_lead_field] once, with the lead id, the field, the text
    of the value the record had (the text "None" for an id that is not in
    the table) and the text of the new value; what [complete_followup]
    gives as the old value is always "False", whatever the flag was.
    For an id SQLite can store as an INTEGER that is exactly one more
    row of [lead_updates]; for any other id the insertion fails, the
    gateway swallows the error and the log stays as it was. *)
Theorem mutations_log_the_change w d lead_idx now text date :
  store w = Some d -> normalized d = true -> Frame.empty d = false ->
  let m := column_mapping (self w) in
  (exists w',
     update_lead_priority pf lead_idx text w = (Return tt, w')
     /\ lead_updates (db w')
        = logged lead_idx (change pf lead_idx "priority"
                   (previous d lead_idx "priority") (VStr text))
            (lead_updates (db w)))
  /\ (exists w',
        schedule_followup pf lead_idx date w = (Return tt, w')
        /\ lead_updates (db w')
           = logged lead_idx (change pf lead_idx "follow_up_date"
                      (previous d lead_idx "follow_up_date") (VTime date))
               (lead_updates (db w)))
  /\ (exists w',
        update_lead_status pf now lead_idx text w = (Return tt, w')
        /\ lead_updates (db w')
           = logged lead_idx (change pf lead_idx "status"
                      (previous (ensure_column m "status" VNone d) lead_idx
                         (target_column m "status" d))
                      (VStr text))
               (lead_updates (db w)))
  /\ (exists w',
        complete_followup pf now lead_idx w = (Return tt, w')
        /\ lead_updates (db w')
           = logged lead_idx {| lead_row_id := lead_idx;
                      field_name := "follow_up_completed";
                      old_value := "False"; new_value := "True" |}
               (lead_updates (db w)))
  /\ (forall col, Frame.has_label lead_idx d = false ->
                  str_of pf (previous d lead_idx col) = "None").
Proof.
  intros Hs Hn He m. destruct (store_inv w d Hs) as (l & Hl & Hd).
  assert (Hp : Frame.has_column "priority" d = true)
    by (apply normalized_columns; [exact Hn|simpl; auto]).
  assert (Hf : Frame.has_column "follow_up_date" d = true)
    by (apply normalized_columns; [exact Hn|simpl; auto]).
  split; [|split; [|split; [|split]]].
  - eexists. split; [apply (update_lead_priority_exact pf w l d); auto|].
    reflexivity.
  - eexists. split; [apply (schedule_followup_exact pf w l d); auto|].
    reflexivity.
  - eexists. split; [apply (update_lead_status_exact pf w l d); auto|].
    reflexivity.
  - eexists. split; [apply (complete_followup_exact pf w l d); auto|].
    reflexivity.
  - intros col L. now rewrite previous_missing.
Qed.

(** X8. Each mutation of a store with data ends with a save of the Lead
    Store as the mutation left it.  When the table can be written
    ([df.to_json] and the SQLite statements go through) the gateway then
    holds its JSON records (the cells column by column, without the row
    labels, [None] and NaN both null) with the column mapping and the
    original columns; when it cannot, [save_leads_data] returns False
    and the gateway keeps the table it held, while the mutation still
    returns normally. *)
Theorem mutations_save_the_store w d lead_idx now text date :
  store w = Some d -> normalized d = true -> Frame.empty d = false ->
  saved_after pf w (snd (update_lead_priority pf lead_idx text w))
  /\ saved_after pf w (snd (schedule_followup pf lead_idx date w))
  /\ saved_after pf w (snd (update_lead_status pf now lead_idx text w))
  /\ saved_after pf w (snd (complete_followup pf now lead_idx w))
  /\ (Frame.has_label lead_idx d = true ->
      PyStr.is_empty (PyStr.strip text) = false ->
      saved_after pf w (snd (add_note pf now lead_idx text w))).
Proof.
  intros Hs Hn He. destruct (store_inv w d Hs) as (l & Hl & Hd).
  assert (Hp : Frame.has_column "priority" d = true)
    by (apply normalized_columns; [exact Hn|simpl; auto]).
  assert (Hf : Frame.has_column "follow_up_date" d = true)
    by (apply normalized_columns; [exact Hn|simpl; auto]).
  split; [|split; [|split; [|split]]].
  - rewrite (update_lead_priority_exact pf w l d) by auto.
    now apply committed_saved_after.
  - rewrite (schedule_followup_exact pf w l d) by auto.
    now apply committed_saved_after.
  - rewrite (update_lead_status_exact pf w l d) by auto.
    now apply committed_saved_after.
  - rewrite (complete_followup_exact pf w l d) by auto.
    now apply committed_saved_after.
  - intros L Ht.
    assert (Hr : exists r,
               Frame.find_row lead_idx
                 (rows (ensure_column (column_mapping (self w)) "notes"
                          (VStr "") d)) = Some r).
    { apply find_row_label.
      fold (Frame.index (ensure_column (column_mapping (self w)) "notes"
                           (VStr "") d)).
      rewrite ensure_column_index. now apply has_label_In. }
    destruct Hr as [r Hr].
    rewrite (add_note_exact pf w l d now lead_idx text r) by auto.
    now apply committed_saved_after.
Qed.

(** X9. On a manager without data (no table, or an empty one) the
    five mutations return at once: no record is added, nothing is
    logged and nothing is saved. *)
Theorem mutations_without_data_do_nothing w lead_idx now text date :
  has_data w = (Return false, w) ->
  update_lead_status pf now lead_idx text w = (Return tt, w)
  /\ update_lead_priority pf lead_idx text w = (Return tt, w)
  /\ schedule_followup pf lead_idx date w = (Return tt, w)
  /\ add_note pf now lead_idx text w = (Return tt, w)
  /\ complete_followup pf now lead_idx w = (Return tt, w).
Proof.
  intros H.
  unfold update_lead_status, update_lead_priority, schedule_followup,
    add_note, complete_followup.
  rewrite !(bind_return _ _ _ _ _ H). repeat split.
Qed.

(** X10. A note that is empty or white space only is dropped:
    [add_note] returns without touching the table, the log or the saved
    table, and without creating the notes column. *)
Theorem add_note_blank_does_nothing w d now lead_idx note :
  store w = Some d ->
  PyStr.is_empty (PyStr.strip note) = true ->
  add_note pf now lead_idx note w = (Return tt, w).
Proof.
  intros Hs Hb. destruct (store_inv w d Hs) as (l & Hl & Hd).
  unfold add_note. mstep. rewrite Hb. now rewrite orb_true_r.
Qed.

(** X11. [add_note] on a record of the table writes the time-stamped
    note into the notes column (the mapped one when it exists, else the
    column [notes], created empty when missing): the first note of a
    record is "[time] note", a later one is appended after a line feed
    to what the cell held; the other records and the index stay as
    they were. *)
Theorem add_note_stamps_and_appends w d now lead_idx note :
  store w = Some d -> Frame.empty d = false ->
  Frame.has_label lead_idx d = true ->
  PyStr.is_empty (PyStr.strip note) = false ->
  let m := column_mapping (self w) in
  let d1 := ensure_column m "notes" (VStr "") d in
  let col := target_column m "notes" d in
  let current := previous d1 lead_idx col in
  let stamped := "[" +:+ strftime_minute pf now +:+ "] " +:+ note in
  exists w' d',
    add_note pf now lead_idx note w = (Return tt, w')
    /\ store w' = Some d'
    /\ Frame.index d' = Frame.index d
    /\ others_kept lead_idx d1 d'
    /\ (forall r, In (lead_idx, r) (rows d') ->
          Frame.cell r col
          = VStr (if isna current || eq_str current ""
                  then stamped
                  else str_of pf current +:+ LF +:+ stamped))
    /\ (Frame.has_column (get_default m "notes" "notes") d = false ->
        col = "notes" /\ current = VStr "").
Proof.
  intros Hs He L Hn m d1 col current stamped.
  destruct (store_inv w d Hs) as (l & Hl & Hd).
  assert (L1 : Frame.has_label lead_idx d1 = true).
  { apply has_label_In. subst d1. rewrite ensure_column_index.
    now apply has_label_In. }
  destruct (find_row_label lead_idx (rows d1)) as [r Hr];
    [now apply has_label_In|].
  assert (Hcur : current = Frame.cell r col).
  { unfold current, previous. now rewrite Hr. }
  eexists _, _. split; [apply (add_note_exact pf w l d now lead_idx note r);
                        auto|].
  split; [now apply committed_store|]. split; [|split; [|split]].
  - rewrite set_loc_index by exact L1. apply ensure_column_index.
  - apply set_loc_others_kept. exact L1.
  - intros r' Hin. apply set_loc_row in Hin. rewrite Hcur. exact Hin.
  - intros Hc. subst current col d1.
    unfold target_column, ensure_column, previous in *. fold m in Hr |- *.
    rewrite Hc in *. split; [reflexivity|]. rewrite Hr.
    apply find_row_In in Hr. unfold Frame.assign_scalar, Frame.assign in Hr.
    cbn [rows] in Hr. apply in_map_iff in Hr as ([i r0] & [= _ <-] & _).
    unfold Frame.cell. now rewrite lookup_insert_eq.
Qed.

(** X12. [update_lead_status] on a record of the table writes the new
    status into the column [mapping.get('status', 'status')] (the
    column [status], created with [None], when that one is missing) and
    today's date into [last_contact], provided the status column is not
    [last_contact] itself; the index and every other column stay as
    they were. *)
Theorem update_lead_status_writes w d now lead_idx new_status :
  store w = Some d -> Frame.empty d = false ->
  Frame.has_label lead_idx d = true ->
  let m := column_mapping (self w) in
  let d1 := ensure_column m "status" VNone d in
  let col := target_column m "status" d in
  col <> "last_contact" ->
  exists w' d',
    update_lead_status pf now lead_idx new_status w = (Return tt, w')
    /\ store w' = Some d'
    /\ Frame.index d' = Frame.index d
    /\ (forall r, In (lead_idx, r) (rows d') ->
          Frame.cell r col = VStr new_status
          /\ Frame.cell r "last_contact" = VStr (strftime_date pf now))
    /\ (forall c, c <> col -> c <> "last_contact" ->
          column_values d' c = column_values d1 c)
    /\ (Frame.has_column (mapped_first m "status") d = true ->
        col = mapped_first m "status" /\ d1 = d).
Proof.
  intros Hs He L m d1 col Hcol.
  destruct (store_inv w d Hs) as (l & Hl & Hd).
  assert (L1 : Frame.has_label lead_idx d1 = true).
  { apply has_label_In. subst d1. rewrite ensure_column_index.
    now apply has_label_In. }
  eexists _, _. split; [apply (update_lead_status_exact pf w l d); auto|].
  split; [now apply committed_store|]. split; [|split; [|split]].
  - rewrite !set_loc_index;
      [apply ensure_column_index|exact L1|now apply set_loc_keeps_label].
  - intros r Hin. split; [|now apply set_loc_row in Hin].
    apply (set_loc_other _ _ _ _ _ _ col) in Hin;
      [|now apply set_loc_keeps_label|exact Hcol].
    destruct Hin as (r0 & Hin & ->). now apply set_loc_row in Hin.
  - intros c Hc Hlc. rewrite !set_loc_column_values; auto.
    now apply set_loc_keeps_label.
  - intros Hc. subst col d1. unfold target_column, ensure_column.
    rewrite mapped_first_get, Hc. now split.
Qed.

End MutationEffects.

(** ** The filters *)

Section Filters.
Import FrameFacts.

Variable pf : Platform.

Lemma filter_twice {A} (p q : A -> bool) xs :
  List.filter q (List.filter p xs) = List.filter (fun x => p x && q x) xs.
Proof.
  induction xs as [|x xs IH]; [reflexivity|]. cbn.
  destruct (p x); cbn; [destruct (q x)|]; now rewrite IH.
Qed.

Lemma filter_everything {A} (xs : list A) :
  List.filter (fun _ => true) xs = xs.
Proof. induction xs as [|x xs IH]; [reflexivity|]. cbn. now rewrite IH. Qed.

Lemma alloc_ne w l d : frames w !! l = Some d -> alloc w <> l.
Proof. intros H E. subst l. rewrite alloc_fresh in H. discriminate. Qed.

Lemma select_has_column mask c d :
  Frame.has_column c (Frame.select mask d) = Frame.has_column c d.
Proof. reflexivity. Qed.

(** [get_filtered_leads("", status_filter, priority_filter)] on a store
    with data. *)
Lemma get_filtered_leads_eval w l d status_filter priority_filter :
  leads_df (self w) = Some l -> frames w !! l = Some d ->
  Frame.empty d = false ->
  status_filter_fails pf (column_mapping (self w)) d status_filter = false ->
  exists l' w' v,
    get_filtered_leads pf "" status_filter priority_filter w = (Return l', w')
    /\ frame_at w' l' = Some v
    /\ columns v = columns d
    /\ rows v
       = List.filter
           (fun x =>
              status_test pf (column_mapping (self w)) d status_filter (snd x)
              && priority_test d priority_filter (snd x)) (rows d)
    /\ l' <> l
    /\ frames w' !! l = Some d.
Proof.
  intros Hl Hd He Hok. unfold status_filter_fails in Hok.
  unfold get_filtered_leads, status_test, priority_test.
  mstep. rewrite He. cbn [negb PyStr.is_empty]. unfold try_except.
  do 5 mstep.
  destruct (String.eqb status_filter "All") eqn:Hsf; cbn [negb orb andb] in *.
  - do 2 mstep.
    destruct (String.eqb priority_filter "All") eqn:Hpf; cbn [negb andb orb].
    + eexists _, _, _. split; [reflexivity|].
      split; [lookup_now|]. split; [reflexivity|].
      split; [now rewrite filter_everything|].
      split; [now apply (alloc_ne w l d)|lookup_now].
    + destruct (Frame.has_column "priority" d) eqn:Hp; cbn [negb orb].
      * eexists _, _, _. split; [reflexivity|].
        split; [lookup_now|]. split; [reflexivity|].
        split; [apply select_filter|].
        split; [eapply alloc_ne; lookup_now|lookup_now].
      * eexists _, _, _. split; [reflexivity|].
        split; [lookup_now|]. split; [reflexivity|].
        split; [now rewrite filter_everything|].
        split; [now apply (alloc_ne w l d)|lookup_now].
  - do 2 mstep.
    destruct (Frame.has_column
                (get_default (column_mapping (self w)) "status" "status") d)
      eqn:Hc; cbn [negb orb andb] in *.
    + apply negb_false_iff in Hok. rewrite Hok. cbn [negb].
      do 2 mstep. rewrite select_has_column.
      destruct (String.eqb priority_filter "All") eqn:Hpf;
        cbn [negb andb orb].
      * eexists _, _, _. split; [reflexivity|].
        split; [lookup_now|]. split; [reflexivity|].
        split.
        { rewrite select_filter. apply filter_ext. intros x.
          now rewrite andb_true_r. }
        split; [eapply alloc_ne; lookup_now|lookup_now].
      * destruct (Frame.has_column "priority" d) eqn:Hp; cbn [negb orb].
        -- eexists _, _, _. split; [reflexivity|].
           split; [lookup_now|]. split; [reflexivity|].
           split; [rewrite !select_filter; apply filter_twice|].
           split; [eapply alloc_ne; lookup_now|lookup_now].
        -- eexists _, _, _. split; [reflexivity|].
           split; [lookup_now|]. split; [reflexivity|].
           split.
           { rewrite select_filter. apply filter_ext. intros x.
             now rewrite andb_true_r. }
           split; [eapply alloc_ne; lookup_now|lookup_now].
    + do 2 mstep.
      destruct (String.eqb priority_filter "All") eqn:Hpf;
        cbn [negb andb orb].
      * eexists _, _, _. split; [reflexivity|].
        split; [lookup_now|]. split; [reflexivity|].
        split; [now rewrite filter_everything|].
        split; [now apply (alloc_ne w l d)|lookup_now].
      * destruct (Frame.has_column "priority" d) eqn:Hp; cbn [negb orb].
        -- eexists _, _, _. split; [reflexivity|].
           split; [lookup_now|]. split; [reflexivity|].
           split; [apply select_filter|].
           split; [eapply alloc_ne; lookup_now|lookup_now].
        -- eexists _, _, _. split; [reflexivity|].
           split; [lookup_now|]. split; [reflexivity|].
           split; [now rewrite filter_everything|].
           split; [now apply (alloc_ne w l d)|lookup_now].
Qed.


End Filters.

(** ** The order of the views *)

Section ViewOrder.
Import FrameFacts.

Variable pf : Platform.

Lemma compare_lt_asym a b :
  String.ltb a b = true -> String.ltb b a = false.
Proof.
  unfold String.ltb. rewrite (String.compare_antisym a b).
  destruct (String.compare b a); cbn; congruence.
Qed.

Lemma value_lt_asym a b : value_lt a b = true -> value_lt b a = false.
Proof.
  destruct a, b; cbn; try discriminate; try (intros; reflexivity);
    try (intros H; apply Z.ltb_lt in H; apply Z.ltb_ge; lia).
  apply compare_lt_asym.
Qed.

Lemma value_le_total a b : value_le a b = false -> value_le b a = true.
Proof.
  unfold value_le. destruct (isna b) eqn:Nb; [discriminate|].
  destruct (isna a) eqn:Na; [reflexivity|].
  intros H. apply negb_false_iff in H. apply value_lt_asym in H.
  now rewrite H.
Qed.

Section InsertionSort.

Variable le : row -> row -> bool.
Hypothesis le_total : forall a b, le a b = false -> le b a = true.

Lemma insert_row_HdRel a x rs :
  (ordered_by le) a x -> HdRel (ordered_by le) a rs ->
  HdRel (ordered_by le) a (Frame.insert_row le x rs).
Proof.
  intros Hax Hh. destruct rs as [|y rs]; cbn; [now constructor|].
  destruct (le (snd x) (snd y)); constructor; [exact Hax|].
  now inversion Hh.
Qed.

Lemma insert_row_Sorted x rs :
  Sorted (ordered_by le) rs -> Sorted (ordered_by le) (Frame.insert_row le x rs).
Proof.
  induction 1 as [|y rs Hs IH Hh]; cbn; [repeat constructor|].
  destruct (le (snd x) (snd y)) eqn:E.
  - constructor; [now constructor|]. now constructor.
  - constructor; [exact IH|]. apply insert_row_HdRel; [|exact Hh].
    now apply le_total.
Qed.

Lemma sort_rows_Sorted rs : Sorted (ordered_by le) (Frame.sort_rows le rs).
Proof.
  induction rs as [|x rs IH]; cbn; [constructor|].
  now apply insert_row_Sorted.
Qed.

End InsertionSort.

Lemma insert_row_length le x rs :
  length (Frame.insert_row le x rs) = S (length rs).
Proof.
  induction rs as [|y rs IH]; cbn; [reflexivity|].
  destruct (le (snd x) (snd y)); cbn; [reflexivity|]. now rewrite IH.
Qed.

Lemma sort_rows_length le rs : length (Frame.sort_rows le rs) = length rs.
Proof.
  induction rs as [|x rs IH]; [reflexivity|].
  change (Frame.sort_rows le (x :: rs))
    with (Frame.insert_row le x (Frame.sort_rows le rs)).
  now rewrite insert_row_length, IH.
Qed.

(** A sorted list stays sorted under a map that respects the order on
    the members of the list. *)
Lemma Sorted_map_In {A B} (R : A -> A -> Prop) (R' : B -> B -> Prop)
    (g : A -> B) xs :
  (forall x y, In x xs -> In y xs -> R x y -> R' (g x) (g y)) ->
  Sorted R xs -> Sorted R' (map g xs).
Proof.
  intros H S. induction S as [|x xs S IH Hh]; cbn; [constructor|].
  constructor.
  - apply IH. intros a b Ha Hb. apply H; now right.
  - destruct Hh as [|y ys Hxy]; cbn; constructor.
    apply H; [now left|right; now left|exact Hxy].
Qed.


(** The frame a time-windowed view returns. *)
Lemma sorted_view_exact mask w l d :
  leads_df (self w) = Some l -> frames w !! l = Some d ->
  Frame.empty d = false ->
  Frame.has_column "follow_up_date" d = true ->
  Frame.has_column "follow_up_completed" d = true ->
  comparable (column_values d "follow_up_date") = true ->
  exists l' w' v,
    sorted_view pf mask w = (Return l', w')
    /\ frame_at w' l' = Some v
    /\ columns v = columns d
    /\ rows v
       = Frame.sort_rows
           (fun a b => value_le (Frame.cell a "follow_up_date")
                                (Frame.cell b "follow_up_date"))
           (quicksort_order pf "follow_up_date"
              (List.filter (fun x => mask (snd x)) (rows d))).
Proof.
  intros Hl Hd He H1 H2 Hc. unfold sorted_view. do 2 mstep.
  rewrite !bind_column_of by assumption. do 2 mstep.
  destruct (Frame.empty (Frame.select mask d)) eqn:E; cbn [negb].
  - eexists _, _, _. split; [reflexivity|].
    split; [apply put_frame_lookup|]. split; [reflexivity|].
    rewrite select_filter. unfold Frame.empty in E, He.
    cbn [columns Frame.select] in E. rewrite select_filter in E.
    destruct (columns d); [discriminate|].
    destruct (List.filter _ (rows d)); [|discriminate].
    pose proof (quicksort_order_length pf "follow_up_date" []) as Hq.
    destruct (quicksort_order pf "follow_up_date" []); [reflexivity|].
    discriminate Hq.
  - unfold sort_values. rewrite bind_assoc, bind_column_of by exact H1.
    rewrite (comparable_incl _ _ (column_values_select mask d _) Hc).
    mstep. eexists _, _, _. split; [reflexivity|].
    split; [apply lookup_insert_eq|]. split; [reflexivity|].
    cbn [rows]. now rewrite select_filter.
Qed.


End ViewOrder.

Section FilterResults.
Import FrameFacts.

Variable pf : Platform.


(** X14. The mutations and the filters agree: after
    [update_lead_priority(id, p)] on a record of a normalised store,
    the priority filter [p] keeps that record. *)
Theorem updated_priority_passes_filter w d lead_idx new_priority :
  store w = Some d -> normalized d = true ->
  Frame.has_label lead_idx d = true ->
  exists w1 l' w2 v,
    update_lead_priority pf lead_idx new_priority w = (Return tt, w1)
    /\ get_filtered_leads pf "" "All" new_priority w1 = (Return l', w2)
    /\ frame_at w2 l' = Some v
    /\ In lead_idx (Frame.index v).
Proof.
  intros Hs Hn L. destruct (store_inv w d Hs) as (l & Hl & Hd).
  assert (He : Frame.empty d = false) by now apply (normalized_nonempty d lead_idx).
  assert (Hp : Frame.has_column "priority" d = true)
    by (apply normalized_columns; [exact Hn|simpl; auto]).
  pose proof (update_lead_priority_exact pf w l d lead_idx new_priority
                Hl Hd He (fun _ => Hp)) as Hrun.
  set (d1 := Frame.set_loc lead_idx "priority" (VStr new_priority) d) in *.
  set (w1 := committed pf l d1 _ _ w) in *.
  assert (Hl1 : leads_df (self w1) = Some l) by exact Hl.
  assert (Hd1 : frames w1 !! l = Some d1) by apply lookup_insert_eq.
  assert (He1 : Frame.empty d1 = false) by apply set_loc_nonempty.
  destruct (get_filtered_leads_eval pf w1 l d1 "All" new_priority
              Hl1 Hd1 He1 eq_refl) as (l' & w2 & v & Hf & Hv & _ & Hr & _).
  exists w1, l', w2, v. split; [exact Hrun|]. split; [exact Hf|].
  split; [exact Hv|].
  assert (L1 : Frame.has_label lead_idx d1 = true)
    by apply set_loc_has_label.
  apply has_label_In in L1. unfold Frame.index in L1.
  apply in_map_iff in L1 as ([i r] & E & Hin). cbn in E. subst i.
  unfold Frame.index. rewrite Hr. apply in_map_iff.
  exists (lead_idx, r). split; [reflexivity|]. apply filter_In.
  split; [exact Hin|]. unfold status_test, priority_test. cbn [snd].
  apply set_loc_row in Hin. rewrite Hin. cbn [String.eqb eq_str orb].
  rewrite String.eqb_refl. now rewrite !orb_true_r.
Qed.

End FilterResults.

(** ** The daily tasks and the counts *)

Section DailyTasks.
Import FrameFacts.

Variable pf : Platform.

Lemma priority_order_rank v : priority_order v = VInt (priority_rank v).
Proof.
  unfold priority_order, priority_rank.
  now destruct (eq_str v "High"), (eq_str v "Medium"), (eq_str v "Low").
Qed.

Lemma cell_insert_same (r : row) c v : Frame.cell (<[c := v]> r) c = v.
Proof. unfold Frame.cell. now rewrite lookup_insert_eq. Qed.

Lemma cell_insert_other (r : row) c c' v :
  c' <> c -> Frame.cell (<[c := v]> r) c' = Frame.cell r c'.
Proof. intros H. unfold Frame.cell. now rewrite lookup_insert_ne. Qed.

Lemma cell_delete_other (r : row) c c' :
  c' <> c -> Frame.cell (delete c r) c' = Frame.cell r c'.
Proof. intros H. unfold Frame.cell. now rewrite lookup_delete_ne. Qed.

(** The comparison [get_daily_tasks] sorts with. *)
Lemma daily_order_total (a b : row) :
  (let x := Frame.cell a "priority_order" in
   let y := Frame.cell b "priority_order" in
   if value_lt y x then true
   else if value_lt x y then false
   else value_le (Frame.cell a "follow_up_date")
                 (Frame.cell b "follow_up_date")) = false ->
  (let x := Frame.cell b "priority_order" in
   let y := Frame.cell a "priority_order" in
   if value_lt y x then true
   else if value_lt x y then false
   else value_le (Frame.cell b "follow_up_date")
                 (Frame.cell a "follow_up_date")) = true.
Proof.
  cbn zeta.
  destruct (value_lt (Frame.cell b "priority_order")
                     (Frame.cell a "priority_order")) eqn:E1; [discriminate|].
  destruct (value_lt (Frame.cell a "priority_order")
                     (Frame.cell b "priority_order")) eqn:E2; [reflexivity|].
  apply value_le_total.
Qed.

(** The frame [get_daily_tasks] returns. *)
Lemma get_daily_tasks_exact date w l d :
  leads_df (self w) = Some l -> frames w !! l = Some d ->
  Frame.empty d = false ->
  Frame.has_column "follow_up_date" d = true ->
  Frame.has_column "follow_up_completed" d = true ->
  Frame.has_column "priority" d = true ->
  comparable (column_values d "follow_up_date") = true ->
  exists l' w' v,
    get_daily_tasks pf date w = (Return l', w')
    /\ frame_at w' l' = Some v
    /\ rows v
       = map (fun '(i, r) => (i, delete "priority_order" r))
           (Frame.sort_rows
              (fun a b =>
                 let x := Frame.cell a "priority_order" in
                 let y := Frame.cell b "priority_order" in
                 if value_lt y x then true
                 else if value_lt x y then false
                 else value_le (Frame.cell a "follow_up_date")
                               (Frame.cell b "follow_up_date"))
              (map (fun '(i, r) =>
                      (i, <["priority_order" :=
                              priority_order (Frame.cell r "priority")]> r))
                   (List.filter
                      (fun x => daily_mask pf (normalize date) (snd x))
                      (rows d)))).
Proof.
  intros Hl Hd He H1 H2 H3 Hc. unfold get_daily_tasks.
  mstep. rewrite He. cbn [negb]. do 2 mstep.
  rewrite !bind_column_of by assumption. do 2 mstep.
  set (mask := daily_mask pf (normalize date)).
  set (sel := Frame.select mask d).
  destruct (Frame.empty sel) eqn:E; cbn [negb].
  - eexists _, _, _. split; [reflexivity|].
    split; [apply put_frame_lookup|].
    unfold sel, Frame.empty in E, He. cbn [columns Frame.select] in E.
    unfold sel. rewrite select_filter in *.
    destruct (columns d); [discriminate|].
    destruct (List.filter _ (rows d)); [reflexivity|discriminate].
  - rewrite bind_column_of by exact H3. do 2 mstep.
    rewrite put_frame_put.
    set (t1 := Frame.assign "priority_order" int64
                 (fun r => priority_order (Frame.cell r "priority")) sel).
    unfold sort_values_desc_asc.
    rewrite bind_assoc, bind_column_of
      by (apply has_column_In; cbn; apply add_column_has).
    rewrite bind_assoc, bind_column_of
      by (apply has_column_In; cbn; apply add_column_keeps;
          now apply has_column_In).
    assert (C1 : comparable (column_values t1 "priority_order") = true).
    { unfold t1. rewrite assign_column_values. apply comparable_spec.
      intros u v Hu Hv _ _.
      apply in_map_iff in Hu as (x & <- & _).
      apply in_map_iff in Hv as (y & <- & _).
      now rewrite !priority_order_kind. }
    assert (C2 : comparable (column_values t1 "follow_up_date") = true).
    { unfold t1. rewrite assign_other_values by easy.
      exact (comparable_incl _ _ (column_values_select mask d _) Hc). }
    rewrite C1, C2. cbn [andb]. do 3 mstep.
    eexists _, _, _. split; [reflexivity|].
    split; [apply lookup_insert_eq|].
    cbn [rows Frame.drop]. unfold t1, sel. cbn [rows Frame.assign].
    now rewrite select_filter.
Qed.

(** X16. On a normalised store with data whose follow-up dates can be
    ordered, [get_daily_tasks] returns its records by descending
    priority (High, then Medium and every other value, then Low) and,
    within one priority, by ascending follow-up date. *)
Theorem daily_tasks_sorted_by_priority w d date :
  store w = Some d -> normalized d = true -> Frame.empty d = false ->
  comparable (column_values d "follow_up_date") = true ->
  exists l' w' v,
    get_daily_tasks pf date w = (Return l', w')
    /\ frame_at w' l' = Some v
    /\ Sorted by_priority_then_date (rows v).
Proof.
  intros Hs Hn He Hc. destruct (store_inv w d Hs) as (l & Hl & Hd).
  assert (H1 : Frame.has_column "follow_up_date" d = true)
    by (apply normalized_columns; [exact Hn|simpl; auto]).
  assert (H2 : Frame.has_column "follow_up_completed" d = true)
    by (apply normalized_columns; [exact Hn|simpl; auto 6]).
  assert (H3 : Frame.has_column "priority" d = true)
    by (apply normalized_columns; [exact Hn|simpl; auto]).
  destruct (get_daily_tasks_exact date w l d Hl Hd He H1 H2 H3 Hc)
    as (l' & w' & v & Hrun & Hv & Hr).
  exists l', w', v. split; [exact Hrun|]. split; [exact Hv|].
  rewrite Hr.
  eapply Sorted_map_In; [|apply (sort_rows_Sorted _ daily_order_total)].
  intros x y Hx Hy Hxy. unfold ordered_by in Hxy.
  apply sort_rows_In, in_map_iff in Hx as ([i r] & <- & _).
  apply sort_rows_In, in_map_iff in Hy as ([j s] & <- & _).
  cbn [snd] in Hxy.
  rewrite !cell_insert_same in Hxy.
  rewrite !cell_insert_other in Hxy by discriminate.
  rewrite !priority_order_rank in Hxy. cbn [value_lt] in Hxy.
  unfold by_priority_then_date, by_date. cbn [snd].
  rewrite !cell_delete_other by discriminate.
  rewrite !cell_insert_other by discriminate.
  revert Hxy.
  destruct (Z.ltb_spec (priority_rank (Frame.cell s "priority"))
                       (priority_rank (Frame.cell r "priority")));
    [now left|].
  destruct (Z.ltb_spec (priority_rank (Frame.cell r "priority"))
                       (priority_rank (Frame.cell s "priority")));
    [discriminate|].
  intros Hxy. right. split; [lia|exact Hxy].
Qed.

Lemma set_loc_values_in idx col v d c u :
  Frame.has_label idx d = true ->
  In u (column_values (Frame.set_loc idx col v d) c) ->
  u = v \/ In u (column_values d c).
Proof.
  intros L. unfold column_values, Frame.set_loc. cbn [rows]. rewrite L.
  rewrite map_map. rewrite !in_map_iff.
  intros ([i r] & <- & Hin). case_bool_decide as E.
  - unfold Frame.cell. destruct (decide (c = col)) as [->|Hne].
    + left. now rewrite lookup_insert_eq.
    + right. exists (i, r). split; [|exact Hin].
      now rewrite lookup_insert_ne by congruence.
  - right. now exists (i, r).
Qed.

Lemma null_or_time_comparable vs :
  forallb null_or_time vs = true -> comparable vs = true.
Proof.
  intros H. apply comparable_spec. intros u v Hu Hv Nu Nv.
  rewrite forallb_forall in H.
  pose proof (H u Hu) as Tu. pose proof (H v Hv) as Tv.
  destruct u, v; try discriminate; reflexivity.
Qed.

(** X17. Scheduling and the daily view agree: after
    [schedule_followup(id, date)] on a record of a normalised store
    whose follow-up dates are null or timestamps, for a date that a
    nanosecond timestamp can hold ([pd.Timestamp.min] to
    [pd.Timestamp.max]; [pd.to_datetime] turns any other into NaT),
    [get_daily_tasks] of any instant of the same day returns that
    record. *)
Theorem scheduled_followup_is_a_daily_task w d lead_idx date day :
  store w = Some d -> normalized d = true ->
  Frame.has_label lead_idx d = true ->
  forallb null_or_time (column_values d "follow_up_date") = true ->
  in_ns_range date = true ->
  normalize day = normalize date ->
  exists w1 l' w2 v,
    schedule_followup pf lead_idx date w = (Return tt, w1)
    /\ get_daily_tasks pf day w1 = (Return l', w2)
    /\ frame_at w2 l' = Some v
    /\ In lead_idx (Frame.index v).
Proof.
  intros Hs Hn L Ht Hrange Hday.
  destruct (store_inv w d Hs) as (l & Hl & Hd).
  assert (He : Frame.empty d = false)
    by now apply (normalized_nonempty d lead_idx).
  assert (H1 : Frame.has_column "follow_up_date" d = true)
    by (apply normalized_columns; [exact Hn|simpl; auto]).
  pose proof (schedule_followup_exact pf w l d lead_idx date
                Hl Hd He (fun _ => H1)) as Hrun.
  set (d0 := Frame.set_loc lead_idx "follow_up_date" (VTime date) d) in *.
  set (d1 := Frame.set_loc lead_idx "follow_up_completed" (VBool false) d0)
    in *.
  set (w1 := committed pf l d1 _ _ w) in *.
  assert (L0 : Frame.has_label lead_idx d0 = true)
    by apply set_loc_has_label.
  assert (Hn1 : normalized d1 = true) by now do 2 apply normalized_set_loc.
  assert (Hc1 : comparable (column_values d1 "follow_up_date") = true).
  { apply null_or_time_comparable. apply forallb_forall. intros u Hu.
    unfold d1 in Hu. rewrite set_loc_column_values in Hu by easy.
    apply set_loc_values_in in Hu as [->|Hu]; [reflexivity| |exact L].
    rewrite forallb_forall in Ht. now apply Ht. }
  destruct (get_daily_tasks_eval pf day w1 l d1)
    as (l' & w2 & Hd2 & v & Hv & _ & Hi & _); try easy.
  { apply lookup_insert_eq. }
  { apply set_loc_nonempty. }
  { apply normalized_columns; [exact Hn1|simpl; auto]. }
  { apply normalized_columns; [exact Hn1|simpl; auto 6]. }
  { apply normalized_columns; [exact Hn1|simpl; auto]. }
  exists w1, l', w2, v. split; [exact Hrun|]. split; [exact Hd2|].
  split; [exact Hv|]. apply Hi.
  assert (L1 : Frame.has_label lead_idx d1 = true)
    by apply set_loc_has_label.
  apply has_label_In in L1. unfold Frame.index in L1.
  apply in_map_iff in L1 as ([i r] & E & Hin). cbn in E. subst i.
  exists r. split; [exact Hin|].
  assert (C : Frame.cell r "follow_up_completed" = VBool false)
    by now apply set_loc_row in Hin.
  assert (D : Frame.cell r "follow_up_date" = VTime date).
  { apply (set_loc_other _ _ _ _ _ _ "follow_up_date") in Hin;
      [|exact L0|discriminate].
    destruct Hin as (r0 & Hin & ->). now apply set_loc_row in Hin. }
  unfold daily_mask, open_followup, date_test. rewrite C, D.
  rewrite to_datetime_time by exact Hrange.
  cbn [notna isna eq_False negb andb].
  apply Z.eqb_eq. now symmetry.
Qed.

Lemma filter_length_impl {A} (p q : A -> bool) xs :
  (forall x, p x = true -> q x = true) ->
  (length (List.filter p xs) <= length (List.filter q xs))%nat.
Proof.
  intros H. induction xs as [|x xs IH]; [reflexivity|]. cbn.
  destruct (p x) eqn:P.
  - rewrite (H x P). cbn. lia.
  - destruct (q x); cbn; lia.
Qed.

(** X18. The counts of [get_analytics] on a normalised store with
    data: [total_leads] is the number of records, [active_followups]
    the number of open follow-ups, and [overdue_tasks] the number of
    records [get_overdue_followups] returns; so the overdue tasks are
    at most the active follow-ups, which are at most the leads. *)
Theorem analytics_counts_agree_with_views w d now :
  store w = Some d -> normalized d = true -> Frame.empty d = false ->
  comparable (column_values d "follow_up_date") = true ->
  exists a l' w' overdue,
    get_analytics pf now w = (Return a, w)
    /\ get_overdue_followups pf now w = (Return l', w')
    /\ frame_at w' l' = Some overdue
    /\ total_leads a = length (rows d)
    /\ active_followups a
       = length (List.filter (fun x => open_followup (snd x)) (rows d))
    /\ overdue_tasks a = length (rows overdue)
    /\ (overdue_tasks a <= active_followups a)%nat
    /\ (active_followups a <= total_leads a)%nat.
Proof.
  intros Hs Hn He Hc. destruct (store_inv w d Hs) as (l & Hl & Hd).
  assert (H1 : Frame.has_column "follow_up_date" d = true)
    by (apply normalized_columns; [exact Hn|simpl; auto]).
  assert (H2 : Frame.has_column "follow_up_completed" d = true)
    by (apply normalized_columns; [exact Hn|simpl; auto 6]).
  destruct (sorted_view_exact pf (overdue_mask pf (normalize now)) w l d
              Hl Hd He H1 H2 Hc) as (l1 & w1 & v1 & R1 & F1 & _ & Rows1).
  assert (Cnt : forall mask,
             count_rows mask d
             = length (List.filter (fun x => mask (snd x)) (rows d))).
  { intros mask. unfold count_rows. f_equal. apply filter_ext.
    now intros [i r]. }
  eexists _, l1, w1, v1.
  split; [apply (get_analytics_eval pf w l d now Hl Hd He Hn)|].
  split.
  { unfold get_overdue_followups. mstep. rewrite He. exact R1. }
  split; [exact F1|]. cbn [total_leads active_followups overdue_tasks].
  split; [reflexivity|]. split; [apply Cnt|].
  split; [now rewrite Rows1, sort_rows_length, quicksort_order_length, Cnt|].
  rewrite !Cnt. split.
  - apply filter_length_impl. intros x H. unfold overdue_mask in H.
    now apply andb_true_iff in H as [H _].
  - rewrite <- (filter_everything (rows d)) at 2.
    now apply filter_length_impl.
Qed.

End DailyTasks.

(** ** The import *)

Section StoreOnly.
Import FrameFacts.

Variable pf : Platform.
Variable l : loc.
Variable w0 : World.
Hypothesis store_l : leads_df (self w0) = Some l.

Lemma only_store_start : (only_store l w0) w0.
Proof. now repeat split. Qed.

Lemma only_the_leads {B} (k : loc -> M B) :
  preserves (only_store l w0) (k l) -> preserves (only_store l w0) (bind the_leads k).
Proof.
  intros H w Iw.
  assert (Hl : leads_df (self w) = Some l)
    by (destruct Iw as (_ & -> & _); exact store_l).
  rewrite (bind_the_leads k w l Hl). now apply H.
Qed.

Lemma only_read {B} l1 (k : DataFrame -> M B) :
  (forall d, preserves (only_store l w0) (k d)) ->
  preserves (only_store l w0) (bind (read_frame l1) k).
Proof.
  intros H. apply preserves_bind; [|exact H].
  apply preserves_pure, read_frame_pure.
Qed.

Lemma only_modify f : preserves (only_store l w0) (modify_frame l f).
Proof.
  intros w (Hb & Hs & Hf). unfold modify_frame.
  destruct (frames w !! l); cbn [snd]; [|now repeat split].
  split; [exact Hb|]. split; [exact Hs|]. cbn [frames].
  intros l0 Hne. rewrite lookup_insert_ne by congruence. now apply Hf.
Qed.

Lemma only_for_each {A} (xs : list A) (body : A -> M unit) :
  (forall x, preserves (only_store l w0) (body x)) ->
  preserves (only_store l w0) (for_each xs body).
Proof.
  intros H. induction xs as [|x xs IH]; cbn [for_each].
  - apply preserves_ret.
  - apply preserves_bind; [apply H|]. intros _. exact IH.
Qed.

Lemma only_clean_column col : preserves (only_store l w0) (clean_column pf col).
Proof.
  unfold clean_column. apply only_the_leads, only_read. intros d.
  destruct (Frame.dtype_of d col); try apply preserves_ret.
  apply preserves_bind; [apply only_modify|]. intros _.
  apply preserves_bind; [apply only_modify|]. intros _.
  unfold _process_multiple_values.
  destruct (is_email_column col || is_product_column col);
    [|apply preserves_ret].
  apply only_the_leads, only_modify.
Qed.

Lemma only_clean_data_types : preserves (only_store l w0) (_clean_data_types pf).
Proof.
  unfold _clean_data_types. apply only_the_leads, only_read. intros d.
  apply only_for_each, only_clean_column.
Qed.

Lemma only_add_if_missing col v :
  preserves (only_store l w0) (add_if_missing col v).
Proof.
  unfold add_if_missing. apply only_the_leads, only_read. intros d.
  destruct (negb (Frame.has_column col d));
    [apply only_modify|apply preserves_ret].
Qed.

Lemma only_standardize : preserves (only_store l w0) _standardize_columns.
Proof.
  unfold _standardize_columns. apply preserves_bind.
  { apply preserves_pure, get_self_pure. }
  intros s. apply only_for_each. intros [standard_name mapped_column].
  apply only_the_leads, only_read. intros d.
  destruct (negb (PyStr.is_empty mapped_column)
            && Frame.has_column mapped_column d); [|apply preserves_ret].
  destruct (negb (Frame.has_column standard_name d));
    [apply only_modify|apply preserves_ret].
Qed.

(** The steps of [load_data] between the copy and the save. *)
Lemma only_import_steps w1 w2 w3 w4 w5 w6 :
  _clean_data_types pf w0 = (Return tt, w1) ->
  add_if_missing "priority" (VStr "Medium") w1 = (Return tt, w2) ->
  add_if_missing "follow_up_date" VNone w2 = (Return tt, w3) ->
  add_if_missing "last_contact" VNone w3 = (Return tt, w4) ->
  add_if_missing "follow_up_completed" (VBool false) w4 = (Return tt, w5) ->
  _standardize_columns w5 = (Return tt, w6) ->
  db w6 = db w0 /\ self w6 = self w0
  /\ forall l0, l0 <> l -> frames w6 !! l0 = frames w0 !! l0.
Proof.
  intros E1 E2 E3 E4 E5 E6.
  pose proof (only_clean_data_types w0 only_store_start) as I1.
  rewrite E1 in I1. cbn [snd] in I1.
  pose proof (only_add_if_missing "priority" (VStr "Medium") w1 I1) as I2.
  rewrite E2 in I2. cbn [snd] in I2.
  pose proof (only_add_if_missing "follow_up_date" VNone w2 I2) as I3.
  rewrite E3 in I3. cbn [snd] in I3.
  pose proof (only_add_if_missing "last_contact" VNone w3 I3) as I4.
  rewrite E4 in I4. cbn [snd] in I4.
  pose proof (only_add_if_missing "follow_up_completed" (VBool false) w4 I4)
    as I5.
  rewrite E5 in I5. cbn [snd] in I5.
  pose proof (only_standardize w5 I5) as I6. rewrite E6 in I6.
  exact I6.
Qed.

End StoreOnly.

(** ** The aliases *)

Section Aliases.
Import FrameFacts.

Variable pf : Platform.

Lemma alias_step l s cols0 done name column :
  ~ In name (map fst done) ->
  forall w, store_is l s (aliases_done cols0 done) w ->
  exists w',
    (do l0 <- the_leads;
     do d <- read_frame l0;
     if negb (PyStr.is_empty column) && Frame.has_column column d
     then
       if negb (Frame.has_column name d)
       then modify_frame l0
              (Frame.assign name (Frame.dtype_of d column)
                 (fun r => Frame.cell r column))
       else ret tt
     else ret tt) w = (Return tt, w')
    /\ store_is l s (aliases_done cols0 (done ++ [(name, column)])%list) w'.
Proof.
  intros Hfresh w (Hs & Hl & d' & Hd & HA & HB & HC).
  assert (Hl' : leads_df (self w) = Some l) by now rewrite Hs.
  do 2 mstep.
  assert (Weak : forall c, In c cols0 \/ In c (map fst done) ->
                   In c cols0 \/ In c (map fst (done ++ [(name, column)])%list)).
  { intros c [H|H]; [now left|right].
    rewrite map_app, in_app_iff. now left. }
  destruct (negb (PyStr.is_empty column) && Frame.has_column column d')
    eqn:Htest.
  2:{ exists w. split; [reflexivity|]. split; [exact Hs|].
      split; [exact Hl|]. exists d'. split; [exact Hd|].
      split; [intros c Hc; apply Weak, HA, Hc|]. split; [exact HB|].
      intros k v Hin Hne Hv. apply in_app_iff in Hin as [Hin|[E|[]]].
      - now apply HC.
      - inversion E; subst k v. exfalso.
        apply HB, has_column_In in Hv. rewrite Hne, Hv in Htest.
        discriminate. }
  apply andb_true_iff in Htest as [Hne Hcol].
  apply negb_true_iff in Hne.
  destruct (Frame.has_column name d') eqn:Hname; cbn [negb].
  - exists w. split; [reflexivity|]. split; [exact Hs|].
    split; [exact Hl|]. exists d'. split; [exact Hd|].
    split; [intros c Hc; apply Weak, HA, Hc|]. split; [exact HB|].
    intros k v Hin Hnv Hv. apply in_app_iff in Hin as [Hin|[E|[]]].
    + now apply HC.
    + inversion E; subst k v. apply has_column_In in Hname.
      split; [exact Hname|]. intros Hk. exfalso.
      apply HA in Hname as [H|H]; contradiction.
  - rewrite (modify_frame_eval w l d' _ Hd). eexists.
    split; [reflexivity|]. split; [exact Hs|]. split; [exact Hl|].
    eexists. split; [apply lookup_insert_eq|].
    assert (Hk : ~ In name (columns d')).
    { intros H. apply has_column_In in H. congruence. }
    apply has_column_In in Hcol.
    assert (Keep : forall c, In c (columns d') ->
                     forall r : row,
                       Frame.cell (<[name := Frame.cell r column]> r) c
                       = Frame.cell r c).
    { intros c Hc r. apply cell_insert_other. intros ->. contradiction. }
    split; [|split].
    + intros c Hc. cbn [columns Frame.assign] in Hc.
      apply add_column_only in Hc as [->|Hc].
      * right. rewrite map_app, in_app_iff. right. now left.
      * apply Weak, HA, Hc.
    + intros c Hc. cbn [columns Frame.assign]. apply add_column_keeps.
      now apply HB.
    + intros k v Hin Hnv Hv. cbn [columns rows Frame.assign].
      apply in_app_iff in Hin as [Hin|[E|[]]].
      * destruct (HC k v Hin Hnv Hv) as [Hkc Hcells].
        split; [now apply add_column_keeps|]. intros Hk0.
        specialize (Hcells Hk0). rewrite List.Forall_forall in Hcells.
        apply List.Forall_forall. intros x Hx.
        apply in_map_iff in Hx as ([i r] & <- & Hx). cbn [snd].
        rewrite !Keep by (try exact Hkc; now apply HB).
        exact (Hcells (i, r) Hx).
      * inversion E; subst k v. split; [apply add_column_has|].
        intros _. apply List.Forall_forall. intros x Hx.
        apply in_map_iff in Hx as ([i r] & <- & Hx). cbn [snd].
        rewrite cell_insert_same. symmetry. now apply Keep.
Qed.

Lemma alias_loop l s cols0 rest : forall done w,
  List.NoDup (map fst (done ++ rest)%list) ->
  store_is l s (aliases_done cols0 done) w ->
  exists w',
    for_each rest
      (fun '(standard_name, mapped_column) =>
         do l0 <- the_leads;
         do d <- read_frame l0;
         if negb (PyStr.is_empty mapped_column)
            && Frame.has_column mapped_column d
         then
           if negb (Frame.has_column standard_name d)
           then modify_frame l0
                  (Frame.assign standard_name (Frame.dtype_of d mapped_column)
                     (fun r => Frame.cell r mapped_column))
           else ret tt
         else ret tt) w = (Return tt, w')
    /\ store_is l s (aliases_done cols0 (done ++ rest)%list) w'.
Proof.
  induction rest as [|[name column] rest IH]; intros done w Hnd Hw.
  - exists w. split; [reflexivity|]. now rewrite app_nil_r.
  - assert (Hfresh : ~ In name (map fst done)).
    { rewrite map_app in Hnd. cbn [map fst] in Hnd.
      apply List.NoDup_remove_2 in Hnd. intros H. apply Hnd.
      apply in_app_iff. now left. }
    destruct (alias_step l s cols0 done name column Hfresh w Hw)
      as (w1 & E1 & H1).
    cbn [for_each]. rewrite (bind_return _ _ _ _ _ E1).
    replace (done ++ (name, column) :: rest)%list
      with ((done ++ [(name, column)]) ++ rest)%list in *
      by now rewrite <- app_assoc.
    now apply IH.
Qed.

Lemma standardize_aliases l s d :
  List.NoDup (map fst (column_mapping s)) ->
  forall w, store_is l s (injected d management_defaults) w ->
  exists w',
    _standardize_columns w = (Return tt, w')
    /\ store_is l s (aliased (column_mapping s) d) w'.
Proof.
  intros Hnd w (Hs & Hl & d6 & Hd & Hi & Hcols & Hcells).
  unfold _standardize_columns. mstep. rewrite Hs.
  destruct (alias_loop l s (columns d6) (column_mapping s) [] w)
    as (w' & E & Hw').
  - exact Hnd.
  - split; [exact Hs|]. split; [exact Hl|]. exists d6. split; [exact Hd|].
    split; [now left|]. split; [easy|]. intros k v [].
  - exists w'. split; [exact E|]. revert Hw'. cbn [app].
    apply store_is_weaken. intros d' (HA & HB & HC) k v Hin Hne Hv Hk Hm.
    assert (Hv0 : In v (columns d6)) by (apply Hcols; now left).
    assert (Hk0 : ~ In k (columns d6)).
    { intros H. apply Hcols in H as [H|H]; contradiction. }
    destruct (HC k v Hin Hne Hv0) as [Hkc Hall].
    split; [now apply has_column_In|now apply Hall].
Qed.

Lemma NoDup_keys_filter (test : string * string -> bool) (m : mapping) :
  List.NoDup (map fst m) -> List.NoDup (map fst (List.filter test m)).
Proof.
  induction m as [|[k v] m IH]; cbn; [constructor|].
  intros H. inversion H as [|? ? Hk Hm]; subst.
  destruct (test (k, v)); cbn; [|now apply IH].
  constructor; [|now apply IH]. intros Hin. apply Hk.
  apply in_map_iff in Hin as (x & E & Hin). apply filter_In in Hin as [Hin _].
  apply in_map_iff. now exists x.
Qed.

End Aliases.

Section Importing.
Import FrameFacts.

Variable pf : Platform.

(** The world [load_data] leaves. *)
Lemma load_data_exact w df d m :
  frames w !! df = Some d ->
  let s := {| leads_df := Some (alloc w);
              column_mapping :=
                List.filter (fun '(_, v) => negb (PyStr.is_empty v)) m;
              original_columns := columns d |} in
  exists w' d',
    load_data pf df m w = (Return tt, w')
    /\ frames w' !! alloc w = Some d' /\ imported d d'
    /\ (List.NoDup (map fst m) -> aliased m d d')
    /\ self w' = s
    /\ (forall l0, l0 <> alloc w -> frames w' !! l0 = frames w !! l0)
    /\ db w'
       = (if Frame.empty d' then db w
          else {| leads_table := saved_table pf d' s (leads_table (db w));
                  lead_updates := lead_updates (db w) |}).
Proof.
  intros Hdf s. unfold load_data.
  erewrite bind_read_frame by eassumption. do 2 mstep.
  set (l := alloc w) in *. fold s.
  set (w1 := {| frames := frames (put_frame l d w); self := s;
                db := db (put_frame l d w) |}).
  assert (H1 : store_is l s (same_shape d) w1).
  { split; [reflexivity|]. split; [reflexivity|]. exists d.
    split; [apply lookup_insert_eq|now split]. }
  destruct (clean_data_types_keeps pf l s d w1 H1) as (w2 & E2 & H2).
  rewrite (bind_return _ _ _ _ _ E2).
  assert (H2' : store_is l s (injected d []) w2).
  { revert H2. apply store_is_weaken. intros d' [Hc Hi].
    split; [exact Hi|]. split; [|intros c v []].
    intros c. rewrite Hc. cbn. tauto. }
  assert (F1 : ~ In "priority" (map fst (@nil (string * value))))
    by (cbn; tauto).
  destruct (add_if_missing_step l s d [] "priority" (VStr "Medium")
              F1 w2 H2') as (w3 & E3 & H3).
  rewrite (bind_return _ _ _ _ _ E3). cbn [app] in H3.
  assert (F2 : ~ In "follow_up_date"
                 (map fst [("priority", VStr "Medium")]))
    by (cbn; intuition discriminate).
  destruct (add_if_missing_step l s d _ "follow_up_date" VNone
              F2 w3 H3) as (w4 & E4 & H4).
  rewrite (bind_return _ _ _ _ _ E4). cbn [app] in H4.
  assert (F3 : ~ In "last_contact"
                 (map fst [("priority", VStr "Medium");
                           ("follow_up_date", VNone)]))
    by (cbn; intuition discriminate).
  destruct (add_if_missing_step l s d _ "last_contact" VNone
              F3 w4 H4) as (w5 & E5 & H5).
  rewrite (bind_return _ _ _ _ _ E5). cbn [app] in H5.
  assert (F4 : ~ In "follow_up_completed"
                 (map fst [("priority", VStr "Medium");
                           ("follow_up_date", VNone);
                           ("last_contact", VNone)]))
    by (cbn; intuition discriminate).
  destruct (add_if_missing_step l s d _ "follow_up_completed" (VBool false)
              F4 w5 H5) as (w6 & E6 & H6).
  rewrite (bind_return _ _ _ _ _ E6). cbn [app] in H6.
  assert (H6' : store_is l s (imported d) w6).
  { revert H6. apply store_is_weaken. intros d'. apply injected_imported. }
  destruct (standardize_keeps l s d w6 H6') as (w7 & E7 & H7).
  rewrite (bind_return _ _ _ _ _ E7).
  destruct (only_import_steps pf l w1 eq_refl w2 w3 w4 w5 w6 w7
              E2 E3 E4 E5 E6 E7) as (Ib & Is & If).
  destruct H7 as (Hs & Hl & d' & Hd & HP).
  assert (Hl7 : leads_df (self w7) = Some l) by now rewrite Hs.
  assert (HAl : List.NoDup (map fst m) -> aliased m d d').
  { intros Hnd.
    destruct (standardize_aliases l s d (NoDup_keys_filter _ m Hnd) w6 H6)
      as (w7' & E7' & _ & _ & d'' & Hd'' & HA).
    rewrite E7 in E7'. injection E7' as <-.
    rewrite Hd in Hd''. injection Hd'' as <-.
    intros k v Hin Hne. apply HA; [|exact Hne].
    apply filter_In. split; [exact Hin|]. now rewrite Hne. }
  assert (Hother : forall l0, l0 <> l -> frames w7 !! l0 = frames w !! l0).
  { intros l0 Hne. rewrite (If l0 Hne). cbn.
    now rewrite lookup_insert_ne by congruence. }
  destruct (Frame.empty d') eqn:He.
  - assert (Hno : has_data w7 = (Return false, w7)).
    { rewrite (has_data_eval w7 l d' Hl7 Hd). now rewrite He. }
    rewrite (save_to_database_nodata pf w7 Hno).
    exists w7, d'. split; [reflexivity|]. split; [exact Hd|].
    split; [exact HP|]. split; [exact HAl|]. split; [exact Hs|].
    split; [exact Hother|]. rewrite He. exact Ib.
  - rewrite (save_to_database_data pf w7 l d' Hl7 Hd He).
    eexists _, d'. split; [reflexivity|]. cbn [frames self db].
    split; [exact Hd|]. split; [exact HP|]. split; [exact HAl|].
    split; [exact Hs|].
    split; [exact Hother|]. rewrite He, Hs, Ib. reflexivity.
Qed.

Lemma imported_empty d d' :
  imported d d' ->
  Frame.empty d' = match rows d with [] => true | _ => false end.
Proof.
  intros (Hi & Hn & _). unfold Frame.empty.
  pose proof (normalized_columns d' "priority" Hn) as Hp.
  apply has_column_In in Hp; [|simpl; auto].
  destruct (columns d'); [destruct Hp|].
  unfold Frame.index in Hi.
  destruct (rows d'), (rows d); try discriminate; reflexivity.
Qed.

(** X19. [load_data] works on a copy: the store becomes a new object,
    the frame the caller passed stays as it was (as does every other
    object), the mapping kept is the given one without the entries
    whose column is the empty text, and the original columns are the
    columns of the caller's frame. *)
Theorem load_data_copies_the_import w df d m :
  frames w !! df = Some d ->
  exists w' l d',
    load_data pf df m w = (Return tt, w')
    /\ leads_df (self w') = Some l /\ l <> df
    /\ frames w' !! l = Some d'
    /\ frames w' !! df = Some d
    /\ (forall l0, l0 <> l -> frames w' !! l0 = frames w !! l0)
    /\ column_mapping (self w')
       = List.filter (fun '(_, v) => negb (PyStr.is_empty v)) m
    /\ original_columns (self w') = columns d.
Proof.
  intros Hdf.
  destruct (load_data_exact w df d m Hdf)
    as (w' & d' & Hrun & Hd' & _ & _ & Hs & Hother & _).
  assert (Hne : df <> alloc w).
  { intros E. rewrite E, alloc_fresh in Hdf. discriminate. }
  exists w', (alloc w), d'. split; [exact Hrun|].
  split; [now rewrite Hs|]. split; [congruence|]. split; [exact Hd'|].
  split; [now rewrite Hother|]. split; [exact Hother|].
  now rewrite Hs.
Qed.

(** X20. [load_data] always returns and never touches the log of
    updates.  When the imported table has a record it ends with a save:
    if the table of the store can be written ([df.to_json] and the
    SQLite statements go through) the gateway then holds its JSON
    records with the mapping and the original columns, and if it cannot
    the gateway keeps the table it held.  A table without records is
    not saved: the gateway keeps whatever it held. *)
Theorem load_data_saves_unless_empty w df d m :
  frames w !! df = Some d ->
  exists w',
    load_data pf df m w = (Return tt, w')
    /\ lead_updates (db w') = lead_updates (db w)
    /\ (rows d <> [] -> saved_after pf w w')
    /\ (rows d = [] -> db w' = db w).
Proof.
  intros Hdf.
  destruct (load_data_exact w df d m Hdf)
    as (w' & d' & Hrun & Hd' & HP & _ & Hs & _ & Hdb).
  rewrite (imported_empty d d' HP) in Hdb.
  exists w'. split; [exact Hrun|]. split; [|split].
  - rewrite Hdb. now destruct (rows d).
  - intros Hr.
    assert (Ht : leads_table (db w')
                 = saved_table pf d' (self w') (leads_table (db w))).
    { rewrite Hdb, Hs. now destruct (rows d). }
    exists d'. split; [unfold store; now rewrite Hs|].
    split; [exact Ht|]. intros j Hj. rewrite Ht. unfold saved_table.
    now rewrite Hj.
  - intros Hr. rewrite Hdb. now rewrite Hr.
Qed.

(** X21. [load_data] gives every mapped column its alias: for an
    entry [name -> column] of the mapping (a dictionary, so no name
    comes twice) whose column is in the imported table, and whose name
    is neither a column of that table nor a management column, the
    store has a column [name] that holds, record by record, what the
    column [column] of the store holds. *)
Theorem load_data_aliases_mapped_columns w df d m :
  frames w !! df = Some d ->
  List.NoDup (map fst m) ->
  exists w' d',
    load_data pf df m w = (Return tt, w')
    /\ store w' = Some d'
    /\ forall name column,
         In (name, column) m -> PyStr.is_empty column = false ->
         In column (columns d) ->
         ~ In name (columns d) -> ~ In name management_columns ->
         Frame.has_column name d' = true
         /\ Forall (fun x => Frame.cell (snd x) name
                             = Frame.cell (snd x) column) (rows d').
Proof.
  intros Hdf Hnd.
  destruct (load_data_exact w df d m Hdf)
    as (w' & d' & Hrun & Hd' & _ & HAl & Hs & _).
  exists w', d'. split; [exact Hrun|]. split.
  - unfold store. now rewrite Hs.
  - exact (HAl Hnd).
Qed.

End Importing.

(** ** Without data *)

Section NoData.

Variable pf : Platform.

(** X22. On a manager without data (no table, or an empty one) the
    four views return a new frame without columns or records, the list
    of statuses is empty and every count of [get_analytics] is zero;
    the manager, the log and the saved table are as before. *)
Theorem queries_without_data w now days_ahead date
    search_term status_filter priority_filter :
  has_data w = (Return false, w) ->
  frames w !! alloc w = None
  /\ get_filtered_leads pf search_term status_filter priority_filter w
     = empty_result w
  /\ get_upcoming_followups pf now days_ahead w = empty_result w
  /\ get_overdue_followups pf now w = empty_result w
  /\ get_daily_tasks pf date w = empty_result w
  /\ get_unique_statuses pf w = (Return [], w)
  /\ get_analytics pf now w
     = (Return {| total_leads := 0; active_followups := 0;
                  overdue_tasks := 0; qualified_leads := 0;
                  status_distribution := ∅;
                  priority_distribution := ∅ |}, w).
Proof.
  intros H. split; [apply alloc_fresh|].
  unfold get_filtered_leads, get_upcoming_followups, get_overdue_followups,
    get_daily_tasks, get_unique_statuses, get_analytics.
  rewrite !(bind_return _ _ _ _ _ H). repeat split.
Qed.

End NoData.

(** ** Further statements at work on concrete tables *)

Lemma shop_store : store shop_world = Some (the_store shop_world).
Proof. apply the_store_some. vm_compute. reflexivity. Qed.

Lemma demo_store : store demo_world = Some (the_store demo_world).
Proof. apply the_store_some. vm_compute. reflexivity. Qed.

Lemma boundary_store : store boundary_world = Some (the_store boundary_world).
Proof. apply the_store_some. vm_compute. reflexivity. Qed.

Lemma enlarged_store : store enlarged_world = Some (the_store enlarged_world).
Proof. apply the_store_some. vm_compute. reflexivity. Qed.

Lemma demo_normalized : normalized (the_store demo_world) = true.
Proof. vm_compute. reflexivity. Qed.

Lemma demo_nonempty : Frame.empty (the_store demo_world) = false.
Proof. vm_compute. reflexivity. Qed.

Lemma boundary_normalized : normalized (the_store boundary_world) = true.
Proof. vm_compute. reflexivity. Qed.

Lemma boundary_nonempty : Frame.empty (the_store boundary_world) = false.
Proof. vm_compute. reflexivity. Qed.

Lemma boundary_comparable :
  comparable (column_values (the_store boundary_world) "follow_up_date")
  = true.
Proof. vm_compute. reflexivity. Qed.

Lemma fresh_no_data import :
  has_data (fresh_world import) = (Return false, fresh_world import).
Proof. reflexivity. Qed.

Lemma get_multiple_products_spec_witness :
  (store shop_world = Some (the_store shop_world)
   /\ Frame.find_row 0 (rows (the_store shop_world))
      = Some (default ∅ (Frame.find_row 0 (rows (the_store shop_world))))
   /\ forallb
        (fun c =>
           negb (Frame.has_column c (the_store shop_world))
           || text_or_none
                (Frame.cell
                   (default ∅
                      (Frame.find_row 0 (rows (the_store shop_world)))) c))
        (product_columns (column_mapping (self shop_world))
           (the_store shop_world)) = true)
  /\ exists products,
       get_multiple_products 0 shop_world = (Return products, shop_world)
       /\ List.NoDup products.
Proof.
  assert (H2 : Frame.find_row 0 (rows (the_store shop_world))
               = Some (default ∅
                         (Frame.find_row 0 (rows (the_store shop_world)))))
    by (apply some_default; vm_compute; reflexivity).
  assert (H3 : forallb
                 (fun c =>
                    negb (Frame.has_column c (the_store shop_world))
                    || text_or_none
                         (Frame.cell
                            (default ∅
                               (Frame.find_row 0
                                  (rows (the_store shop_world)))) c))
                 (product_columns (column_mapping (self shop_world))
                    (the_store shop_world)) = true)
    by (vm_compute; reflexivity).
  split; [split; [exact shop_store|split; [exact H2|exact H3]]|].
  destruct (get_multiple_products_spec shop_world (the_store shop_world) 0 _
              shop_store H2 H3) as (products & Hrun & Hnd & _).
  exists products. split; [exact Hrun|exact Hnd].
Defined.

Lemma get_multiple_products_nan_raises_witness :
  (store enlarged_world = Some (the_store enlarged_world)
   /\ Frame.find_row 7 (rows (the_store enlarged_world))
      = Some (default ∅ (Frame.find_row 7 (rows (the_store enlarged_world))))
   /\ product_columns (column_mapping (self enlarged_world))
        (the_store enlarged_world)
      = "Products"
        :: tl (product_columns (column_mapping (self enlarged_world))
                 (the_store enlarged_world))
   /\ Frame.has_column "Products" (the_store enlarged_world) = true
   /\ Frame.cell
        (default ∅ (Frame.find_row 7 (rows (the_store enlarged_world))))
        "Products" = VNaN)
  /\ get_multiple_products 7 enlarged_world
     = (Raise (AttributeError "split"), enlarged_world).
Proof.
  assert (H2 : Frame.find_row 7 (rows (the_store enlarged_world))
               = Some (default ∅
                         (Frame.find_row 7
                            (rows (the_store enlarged_world)))))
    by (apply some_default; vm_compute; reflexivity).
  assert (H3 : product_columns (column_mapping (self enlarged_world))
                 (the_store enlarged_world)
               = "Products"
                 :: tl (product_columns
                          (column_mapping (self enlarged_world))
                          (the_store enlarged_world)))
    by (vm_compute; reflexivity).
  assert (H4 : Frame.has_column "Products" (the_store enlarged_world) = true)
    by (vm_compute; reflexivity).
  assert (H5 : Frame.cell
                 (default ∅
                    (Frame.find_row 7 (rows (the_store enlarged_world))))
                 "Products" = VNaN) by (vm_compute; reflexivity).
  split; [split; [exact enlarged_store|split; [exact H2|split; [exact H3|
          split; [exact H4|exact H5]]]]|].
  exact (get_multiple_products_nan_raises enlarged_world
           (the_store enlarged_world) 7 _ "Products" _
           enlarged_store H2 H3 H4 H5).
Defined.

Lemma get_unique_statuses_spec_witness :
  store shop_world = Some (the_store shop_world)
  /\ exists statuses,
       get_unique_statuses demo_platform shop_world
       = (Return statuses, shop_world)
       /\ List.NoDup statuses.
Proof.
  split; [exact shop_store|].
  destruct (get_unique_statuses_spec demo_platform shop_world
              (the_store shop_world) shop_store)
    as (statuses & Hrun & _ & Hnd & _).
  exists statuses. split; [exact Hrun|exact Hnd].
Defined.

Lemma mutations_log_the_change_witness :
  (store demo_world = Some (the_store demo_world)
   /\ normalized (the_store demo_world) = true
   /\ Frame.empty (the_store demo_world) = false)
  /\ exists w',
       complete_followup demo_platform 0 1 demo_world = (Return tt, w')
       /\ lead_updates (db w')
          = (lead_updates (db demo_world)
             ++ [{| lead_row_id := 1; field_name := "follow_up_completed";
                    old_value := "False"; new_value := "True" |}])%list.
Proof.
  split; [split; [exact demo_store|
                  split; [exact demo_normalized|exact demo_nonempty]]|].
  destruct (mutations_log_the_change demo_platform demo_world
              (the_store demo_world) 1 0 "High" 0
              demo_store demo_normalized demo_nonempty)
    as (_ & _ & _ & (w' & Hrun & Hlog) & _).
  exists w'. split; [exact Hrun|].
  rewrite Hlog. exact (logged_in_range 1 _ _ eq_refl).
Defined.

Lemma mutations_save_the_store_witness :
  (store demo_world = Some (the_store demo_world)
   /\ normalized (the_store demo_world) = true
   /\ Frame.empty (the_store demo_world) = false)
  /\ saved_after demo_platform demo_world
       (snd (update_lead_priority demo_platform 1 "High" demo_world))
  /\ json_writable demo_platform
       (columns
          (the_store
             (snd (update_lead_priority demo_platform 1 "High" demo_world))))
       (rows
          (the_store
             (snd (update_lead_priority demo_platform 1 "High" demo_world))))
     = true.
Proof.
  split; [split; [exact demo_store|
                  split; [exact demo_normalized|exact demo_nonempty]]|].
  destruct (mutations_save_the_store demo_platform demo_world
              (the_store demo_world) 1 0 "High" 0
              demo_store demo_normalized demo_nonempty) as (H & _).
  split; [exact H|]. vm_compute. reflexivity.
Defined.

Lemma mutations_without_data_do_nothing_witness :
  has_data (fresh_world demo_import)
  = (Return false, fresh_world demo_import)
  /\ complete_followup demo_platform 0 1 (fresh_world demo_import)
     = (Return tt, fresh_world demo_import).
Proof.
  split; [exact (fresh_no_data demo_import)|].
  destruct (mutations_without_data_do_nothing demo_platform
              (fresh_world demo_import) 1 0 "x" 0
              (fresh_no_data demo_import)) as (_ & _ & _ & _ & H).
  exact H.
Defined.

Lemma add_note_blank_does_nothing_witness :
  (store demo_world = Some (the_store demo_world)
   /\ PyStr.is_empty (PyStr.strip "  ") = true)
  /\ add_note demo_platform 0 1 "  " demo_world = (Return tt, demo_world).
Proof.
  assert (H2 : PyStr.is_empty (PyStr.strip "  ") = true)
    by (vm_compute; reflexivity).
  split; [split; [exact demo_store|exact H2]|].
  exact (add_note_blank_does_nothing demo_platform demo_world
           (the_store demo_world) 0 1 "  " demo_store H2).
Defined.

Lemma add_note_stamps_and_appends_witness :
  (store demo_world = Some (the_store demo_world)
   /\ Frame.empty (the_store demo_world) = false
   /\ Frame.has_label 1 (the_store demo_world) = true
   /\ PyStr.is_empty (PyStr.strip "call back") = false)
  /\ exists w' d',
       add_note demo_platform 0 1 "call back" demo_world = (Return tt, w')
       /\ store w' = Some d'
       /\ Frame.index d' = Frame.index (the_store demo_world).
Proof.
  assert (H3 : Frame.has_label 1 (the_store demo_world) = true)
    by (vm_compute; reflexivity).
  assert (H4 : PyStr.is_empty (PyStr.strip "call back") = false)
    by (vm_compute; reflexivity).
  split; [split; [exact demo_store|split; [exact demo_nonempty|
          split; [exact H3|exact H4]]]|].
  destruct (add_note_stamps_and_appends demo_platform demo_world
              (the_store demo_world) 0 1 "call back"
              demo_store demo_nonempty H3 H4)
    as (w' & d' & Hrun & Hs & Hi & _).
  exists w', d'. split; [exact Hrun|]. split; [exact Hs|exact Hi].
Defined.

Lemma update_lead_status_writes_witness :
  (store demo_world = Some (the_store demo_world)
   /\ Frame.empty (the_store demo_world) = false
   /\ Frame.has_label 1 (the_store demo_world) = true
   /\ target_column (column_mapping (self demo_world)) "status"
        (the_store demo_world) <> "last_contact")
  /\ exists w' d',
       update_lead_status demo_platform 0 1 "won" demo_world = (Return tt, w')
       /\ store w' = Some d'
       /\ Frame.index d' = Frame.index (the_store demo_world).
Proof.
  assert (H3 : Frame.has_label 1 (the_store demo_world) = true)
    by (vm_compute; reflexivity).
  assert (H4 : target_column (column_mapping (self demo_world)) "status"
                 (the_store demo_world) <> "last_contact")
    by (intros E; vm_compute in E; discriminate E).
  split; [split; [exact demo_store|split; [exact demo_nonempty|
          split; [exact H3|exact H4]]]|].
  destruct (update_lead_status_writes demo_platform demo_world
              (the_store demo_world) 0 1 "won"
              demo_store demo_nonempty H3 H4)
    as (w' & d' & Hrun & Hs & Hi & _).
  exists w', d'. split; [exact Hrun|]. split; [exact Hs|exact Hi].
Defined.



Lemma updated_priority_passes_filter_witness :
  (store demo_world = Some (the_store demo_world)
   /\ normalized (the_store demo_world) = true
   /\ Frame.has_label 1 (the_store demo_world) = true)
  /\ exists w1 l w2 v,
       update_lead_priority demo_platform 1 "High" demo_world
       = (Return tt, w1)
       /\ get_filtered_leads demo_platform "" "All" "High" w1
          = (Return l, w2)
       /\ frame_at w2 l = Some v
       /\ In 1 (Frame.index v).
Proof.
  assert (H3 : Frame.has_label 1 (the_store demo_world) = true)
    by (vm_compute; reflexivity).
  split; [split; [exact demo_store|split; [exact demo_normalized|exact H3]]|].
  exact (updated_priority_passes_filter demo_platform demo_world
           (the_store demo_world) 1 "High" demo_store demo_normalized H3).
Defined.

Lemma daily_tasks_sorted_by_priority_witness :
  (store boundary_world = Some (the_store boundary_world)
   /\ normalized (the_store boundary_world) = true
   /\ Frame.empty (the_store boundary_world) = false
   /\ comparable (column_values (the_store boundary_world) "follow_up_date")
      = true)
  /\ exists l w' v,
       get_daily_tasks demo_platform midnight_day7 boundary_world
       = (Return l, w')
       /\ frame_at w' l = Some v
       /\ Sorted by_priority_then_date (rows v).
Proof.
  split; [split; [exact boundary_store|split; [exact boundary_normalized|
          split; [exact boundary_nonempty|exact boundary_comparable]]]|].
  exact (daily_tasks_sorted_by_priority demo_platform boundary_world
           (the_store boundary_world) midnight_day7
           boundary_store boundary_normalized boundary_nonempty
           boundary_comparable).
Defined.

Lemma scheduled_followup_is_a_daily_task_witness :
  (store demo_world = Some (the_store demo_world)
   /\ normalized (the_store demo_world) = true
   /\ Frame.has_label 1 (the_store demo_world) = true
   /\ forallb null_or_time
        (column_values (the_store demo_world) "follow_up_date") = true
   /\ in_ns_range midnight_day7 = true
   /\ normalize afternoon_day7 = normalize midnight_day7)
  /\ exists w1 l w2 v,
       schedule_followup demo_platform 1 midnight_day7 demo_world
       = (Return tt, w1)
       /\ get_daily_tasks demo_platform afternoon_day7 w1 = (Return l, w2)
       /\ frame_at w2 l = Some v
       /\ In 1 (Frame.index v).
Proof.
  assert (H3 : Frame.has_label 1 (the_store demo_world) = true)
    by (vm_compute; reflexivity).
  assert (H4 : forallb null_or_time
                 (column_values (the_store demo_world) "follow_up_date")
               = true) by (vm_compute; reflexivity).
  assert (H5 : in_ns_range midnight_day7 = true)
    by (vm_compute; reflexivity).
  assert (H6 : normalize afternoon_day7 = normalize midnight_day7)
    by (vm_compute; reflexivity).
  split; [split; [exact demo_store|split; [exact demo_normalized|
          split; [exact H3|split; [exact H4|split; [exact H5|exact H6]]]]]|].
  exact (scheduled_followup_is_a_daily_task demo_platform demo_world
           (the_store demo_world) 1 midnight_day7 afternoon_day7
           demo_store demo_normalized H3 H4 H5 H6).
Defined.

Lemma analytics_counts_agree_with_views_witness :
  (store boundary_world = Some (the_store boundary_world)
   /\ normalized (the_store boundary_world) = true
   /\ Frame.empty (the_store boundary_world) = false
   /\ comparable (column_values (the_store boundary_world) "follow_up_date")
      = true)
  /\ exists a,
       get_analytics demo_platform 1000 boundary_world
       = (Return a, boundary_world)
       /\ (overdue_tasks a <= active_followups a)%nat
       /\ (active_followups a <= total_leads a)%nat.
Proof.
  split; [split; [exact boundary_store|split; [exact boundary_normalized|
          split; [exact boundary_nonempty|exact boundary_comparable]]]|].
  destruct (analytics_counts_agree_with_views demo_platform boundary_world
              (the_store boundary_world) 1000
              boundary_store boundary_normalized boundary_nonempty
              boundary_comparable)
    as (a & l & w' & v & Hrun & _ & _ & _ & _ & _ & H1 & H2).
  exists a. split; [exact Hrun|]. split; [exact H1|exact H2].
Defined.

Lemma load_data_copies_the_import_witness :
  frames (fresh_world demo_import) !! 1%positive = Some demo_import
  /\ exists w' l d',
       load_data demo_platform 1%positive demo_mapping
         (fresh_world demo_import) = (Return tt, w')
       /\ leads_df (self w') = Some l /\ l <> 1%positive
       /\ frames w' !! l = Some d'
       /\ frames w' !! 1%positive = Some demo_import.
Proof.
  assert (H1 : frames (fresh_world demo_import) !! 1%positive
               = Some demo_import) by reflexivity.
  split; [exact H1|].
  destruct (load_data_copies_the_import demo_platform
              (fresh_world demo_import) 1%positive demo_import demo_mapping
              H1) as (w' & l & d' & Hrun & Hl & Hne & Hd & Hdf & _).
  exists w', l, d'. split; [exact Hrun|]. split; [exact Hl|].
  split; [exact Hne|]. split; [exact Hd|exact Hdf].
Defined.

Lemma load_data_saves_unless_empty_witness :
  (frames (fresh_world demo_import) !! 1%positive = Some demo_import
   /\ rows demo_import <> [])
  /\ exists w',
       load_data demo_platform 1%positive demo_mapping
         (fresh_world demo_import) = (Return tt, w')
       /\ lead_updates (db w') = []
       /\ saved_after demo_platform (fresh_world demo_import) w'.
Proof.
  assert (H1 : frames (fresh_world demo_import) !! 1%positive
               = Some demo_import) by reflexivity.
  assert (H2 : rows demo_import <> []) by discriminate.
  split; [split; [exact H1|exact H2]|].
  destruct (load_data_saves_unless_empty demo_platform
              (fresh_world demo_import) 1%positive demo_import demo_mapping
              H1) as (w' & Hrun & Hlog & Hsave & _).
  exists w'. split; [exact Hrun|]. split; [exact Hlog|exact (Hsave H2)].
Defined.

Lemma load_data_aliases_mapped_columns_witness :
  (frames (fresh_world demo_import) !! 1%positive = Some demo_import
   /\ List.NoDup (map fst demo_mapping))
  /\ exists w' d',
       load_data demo_platform 1%positive demo_mapping
         (fresh_world demo_import) = (Return tt, w')
       /\ store w' = Some d'.
Proof.
  assert (H1 : frames (fresh_world demo_import) !! 1%positive
               = Some demo_import) by reflexivity.
  assert (H2 : List.NoDup (map fst demo_mapping)).
  { cbn. repeat constructor; cbn; intuition discriminate. }
  split; [split; [exact H1|exact H2]|].
  destruct (load_data_aliases_mapped_columns demo_platform
              (fresh_world demo_import) 1%positive demo_import demo_mapping
              H1 H2) as (w' & d' & Hrun & Hs & _).
  exists w', d'. split; [exact Hrun|exact Hs].
Defined.

Lemma queries_without_data_witness :
  has_data (fresh_world demo_import)
  = (Return false, fresh_world demo_import)
  /\ get_unique_statuses demo_platform (fresh_world demo_import)
     = (Return [], fresh_world demo_import).
Proof.
  split; [exact (fresh_no_data demo_import)|].
  destruct (queries_without_data demo_platform (fresh_world demo_import)
              0 7 0 "" "All" "All" (fresh_no_data demo_import))
    as (_ & _ & _ & _ & _ & H & _).
  exact H.
Defined.

(** What the product and status functions return on the shop. *)
Example shop_products_and_statuses :
  fst (get_multiple_products 0 shop_world) = Return ["pen"; "ink"; "paper"]
  /\ fst (get_multiple_products 1 shop_world) = Return []
  /\ fst (get_unique_statuses demo_platform shop_world)
     = Return ["New"; "new"; "won"].
Proof. repeat split; vm_compute; reflexivity. Qed.
